(** * pyqsmod: a shallow embedding of the log interpreter and its statistics

    The development follows [pyqsmod.py] function by function.  Python
    dictionaries keyed by strings are finite maps ([gmap string _]), sets are
    [gset], lists are lists, and integers are [Z].  Code that can raise is
    written in a small exception monad; where the source mutates an object
    before raising inside a [try], the partially updated object is what the
    handler sees, and the model keeps it.

    Python 3 semantics is assumed throughout ([/] on integers is true
    division).  Text is modelled over ASCII: the classes [\d], [\s] and [\w]
    of the regular expressions are their ASCII restrictions. *)

From Stdlib Require Import ZArith QArith String Ascii List Lia Bool.
From stdpp Require Import base option list gmap strings fin_maps fin_sets
  sorting.

Open Scope string_scope.
Open Scope list_scope.
Open Scope Z_scope.

(** ** Exceptions and the result of a computation *)

Inductive exn : Type :=
| KeyError | IndexError | ValueError | AttributeError
| ZeroDivisionError | StopIteration | OverflowError | TypeError
| OutOfFuel.

Inductive result (A : Type) : Type :=
| Ok (a : A)
| Raise (e : exn).
Arguments Ok {A} a.
Arguments Raise {A} e.

#[global] Instance result_ret : MRet result := fun A a => Ok a.
#[global] Instance result_bind : MBind result := fun A B k r =>
  match r with
  | Ok a => k a
  | Raise e => Raise e
  end.

#[global] Instance result_fmap : FMap result := fun A B f r =>
  match r with
  | Ok a => Ok (f a)
  | Raise e => Raise e
  end.

Definition of_option {A} (e : exn) (o : option A) : result A :=
  match o with
  | Some a => Ok a
  | None => Raise e
  end.

Definition is_ok {A} (r : result A) : bool :=
  match r with Ok _ => true | Raise _ => false end.

(** ** Python strings

    A Python [str] is a [string].  The primitives work on its list of
    characters. *)

Module Str.

Definition of_str : string -> list ascii := list_ascii_of_string.
Definition to_str : list ascii -> string := string_of_list_ascii.

Definition len (s : string) : Z := Z.of_nat (String.length s).

Fixpoint starts_with (sub s : list ascii) : bool :=
  match sub, s with
  | [], _ => true
  | _ :: _, [] => false
  | a :: sub', b :: s' => Ascii.eqb a b && starts_with sub' s'
  end.

Fixpoint find_from (sub s : list ascii) (i : Z) : Z :=
  if starts_with sub s then i
  else match s with
       | [] => -1
       | _ :: s' => find_from sub s' (i + 1)
       end.

(** [s.find(sub)]: the lowest index of an occurrence, or -1. *)
Definition find (s sub : string) : Z := find_from (of_str sub) (of_str s) 0.

Fixpoint rfind_from (sub s : list ascii) (i : Z) : Z :=
  match s with
  | [] => if starts_with sub [] then i else -1
  | _ :: s' =>
      let r := rfind_from sub s' (i + 1) in
      if 0 <=? r then r
      else if starts_with sub s then i else -1
  end.

(** [s.rfind(sub)]: the highest index of an occurrence, or -1. *)
Definition rfind (s sub : string) : Z := rfind_from (of_str sub) (of_str s) 0.

(** A slice bound, normalised the way Python does: a negative bound counts
    from the end, and the result is clamped to [0, len s]. *)
Definition norm (n : Z) (i : Z) : Z :=
  let j := if i <? 0 then i + n else i in
  Z.max 0 (Z.min n j).

(** [s[a:b]] *)
Definition slice (s : string) (a b : Z) : string :=
  let n := len s in
  let a' := norm n a in
  let b' := norm n b in
  to_str (take (Z.to_nat (b' - a')) (drop (Z.to_nat a') (of_str s))).

(** [s[i]], a one-character string, raising [IndexError] out of range. *)
Definition index (s : string) (i : Z) : result string :=
  let n := len s in
  let j := if i <? 0 then i + n else i in
  if (j <? 0) || (n <=? j) then Raise IndexError
  else match of_str s !! Z.to_nat j with
       | Some c => Ok (String c EmptyString)
       | None => Raise IndexError
       end.

Fixpoint split_chars (c : ascii) (s : list ascii) : list (list ascii) :=
  match s with
  | [] => [[]]
  | a :: s' =>
      match split_chars c s' with
      | [] => [[]]
      | p :: ps => if Ascii.eqb a c then [] :: p :: ps else (a :: p) :: ps
      end
  end.

(** [s.split(c)] for a one-character separator. *)
Definition split (s : string) (c : ascii) : list string :=
  map to_str (split_chars c (of_str s)).

(** Character classes. *)
Definition is_digit (c : ascii) : bool :=
  let n := nat_of_ascii c in (48 <=? n)%nat && (n <=? 57)%nat.

(** [str.isspace] below 128: tab, newline, vertical tab, form feed,
    carriage return, the separators 0x1c..0x1f, and the space. *)
Definition is_space (c : ascii) : bool :=
  let n := nat_of_ascii c in
  ((9 <=? n)%nat && (n <=? 13)%nat) || ((28 <=? n)%nat && (n <=? 32)%nat).

Definition is_word (c : ascii) : bool :=
  let n := nat_of_ascii c in
  is_digit c || ((65 <=? n)%nat && (n <=? 90)%nat)
  || ((97 <=? n)%nat && (n <=? 122)%nat) || (n =? 95)%nat.

Definition not_space (c : ascii) : bool := negb (is_space c).
Definition is_char (a : ascii) (c : ascii) : bool := Ascii.eqb a c.
Definition not_char (a : ascii) (c : ascii) : bool := negb (Ascii.eqb a c).
(** [.] matches anything but a newline. *)
Definition dot (c : ascii) : bool := negb (Ascii.eqb c "010"%char).

(** The whitespace that [int] drops around the digits of an ASCII string:
    the space, tab, newline, vertical tab, form feed and carriage return.
    The separators 0x1c..0x1f are no part of it. *)
Definition is_int_space (c : ascii) : bool :=
  let n := nat_of_ascii c in
  ((9 <=? n)%nat && (n <=? 13)%nat) || (n =? 32)%nat.

Fixpoint lstrip (s : list ascii) : list ascii :=
  match s with
  | c :: s' => if is_int_space c then lstrip s' else s
  | [] => []
  end.

Definition strip (s : list ascii) : list ascii :=
  rev (lstrip (rev (lstrip s))).

(** Decimal digits, single underscores allowed between two digits. *)
Fixpoint digits (acc : Z) (after_digit : bool) (s : list ascii) : option Z :=
  match s with
  | [] => if after_digit then Some acc else None
  | c :: s' =>
      if is_digit c
      then digits (10 * acc + (Z.of_nat (nat_of_ascii c) - 48)) true s'
      else if Ascii.eqb c "_"%char && after_digit then digits acc false s'
      else None
  end.

(** [int(s)]: surrounding whitespace is dropped, a sign is optional. *)
Definition to_int (s : string) : result Z :=
  match strip (of_str s) with
  | "-"%char :: ds => of_option ValueError (Z.opp <$> digits 0 false ds)
  | "+"%char :: ds => of_option ValueError (digits 0 false ds)
  | ds => of_option ValueError (digits 0 false ds)
  end.

End Str.

(** ** Regular expressions

    The patterns of the source use single-character classes under [?], [*]
    and [+], literals, and unnested groups.  [rmatch] is the backtracking
    matcher of Python's [re] on that fragment: quantifiers are greedy and
    give characters back one at a time.  A pattern is a list of atoms; [p+]
    is spelled [One p; Star p].  [Mark] records the current position, so a
    group is a pair of marks.  Where a pattern of the source is quoted, it
    is spaced as under [re.VERBOSE]: the blanks are not part of it. *)

Module Re.

Inductive atom : Type :=
| One (p : ascii -> bool)
| Opt (p : ascii -> bool)
| Star (p : ascii -> bool)
| Mark.

Definition lit (s : string) : list atom :=
  map (fun c => One (Str.is_char c)) (Str.of_str s).

Fixpoint rmatch (r : list atom) (s : list ascii) (pos : nat)
         (marks : list nat) : option (list nat) :=
  match r with
  | [] => Some (rev marks)
  | One p :: r' =>
      match s with
      | c :: s' => if p c then rmatch r' s' (S pos) marks else None
      | [] => None
      end
  | Opt p :: r' =>
      match s with
      | c :: s' =>
          if p c then
            match rmatch r' s' (S pos) marks with
            | Some m => Some m
            | None => rmatch r' s pos marks
            end
          else rmatch r' s pos marks
      | [] => rmatch r' s pos marks
      end
  | Star p :: r' =>
      (fix star (s : list ascii) (pos : nat) : option (list nat) :=
         match s with
         | c :: s' =>
             if p c then
               match star s' (S pos) with
               | Some m => Some m
               | None => rmatch r' s pos marks
               end
             else rmatch r' s pos marks
         | [] => rmatch r' s pos marks
         end) s pos
  | Mark :: r' => rmatch r' s pos (pos :: marks)
  end.

Fixpoint search_from (r : list atom) (s : list ascii) (pos : nat)
  : option (list nat) :=
  match rmatch r s pos [] with
  | Some m => Some m
  | None =>
      match s with
      | [] => None
      | _ :: s' => search_from r s' (S pos)
      end
  end.

(** The marks of a match are positions in the subject; group [k >= 1]
    lies between marks [2k-2] and [2k-1]. *)
Definition group (s : list ascii) (m : list nat) (k : nat) : string :=
  match m !! (2 * (k - 1))%nat, m !! (2 * (k - 1) + 1)%nat with
  | Some a, Some b => Str.to_str (take (b - a) (drop a s))
  | _, _ => ""
  end.

(** [re.search]: the leftmost position at which the pattern matches; the
    result lists the groups [1..n] of that match. *)
Definition search (r : list atom) (n : nat) (s : string)
  : option (list string) :=
  match search_from r (Str.of_str s) 0 with
  | Some m => Some (map (group (Str.of_str s) m) (seq 1 n))
  | None => None
  end.

(** [re.search(...).group(1)] on a one-group pattern:
    [AttributeError] when nothing matches. *)
Definition search1 (r : list atom) (s : string) : result string :=
  match search r 1 s with
  | Some (g :: _) => Ok g
  | _ => Raise AttributeError
  end.

End Re.

(** A log line as [read_log] yields it: the text with its newline. *)
Definition ln (s : string) : string :=
  String.append s (String "010"%char EmptyString).

(** [totime]: strings of the format mmm:ss to seconds, through
    [timedelta(minutes=, seconds=).seconds], which is the number of seconds
    within the day; a [timedelta] holds at most 999999999 days either way. *)
Definition totime (s : string) : result Z :=
  match Str.split s ":"%char with
  | [mins; secs] =>
      m ← Str.to_int mins;
      s ← Str.to_int secs;
      let total := 60 * m + s in
      if 999999999 <? Z.abs (total / 86400) then Raise OverflowError
      else Ok (total mod 86400)
  | _ => Raise ValueError
  end.

(** ** The data model

    [Game] and [Server] are the two classes of the source.  The attributes
    [pos], [gametype] and [ctfscores] of a game and [hostname] of the server
    are attached after construction; the last three are absent until a line
    sets them, and reading an absent attribute raises [AttributeError]. *)

(** A handicap is the text of a regular-expression group or the integer
    default. *)
Inductive pyval : Type :=
| PStr (s : string)
| PInt (z : Z).

Record Game : Type := mkGame {
  number : Z;
  mapname : string;
  players : gmap string (string * Z);
  pid : gmap string string;
  handicap : gmap string pyval;
  teams : gmap string string;
  scores : list (list string);
  awards : gmap string (gmap string Z);
  itemsp : gmap string (list string);
  killsp : gmap string (list string);
  deathsp : gmap string Z;
  ctf : gmap string (gmap string Z);
  ptime : gmap string Z;
  time : Z;
  validp : list string;
  quotes : gset (string * string);
  weapons : gmap string (gmap string Z);
  pos : Z;
  gametype : option string;
  ctfscores : option (string * string)
}.

Definition set_number (v : Z) (g : Game) : Game :=
  mkGame v (mapname g) (players g) (pid g) (handicap g) (teams g) (scores g) (awards g) (itemsp g) (killsp g) (deathsp g) (ctf g) (ptime g) (time g) (validp g) (quotes g) (weapons g) (pos g) (gametype g) (ctfscores g).
Definition set_mapname (v : string) (g : Game) : Game :=
  mkGame (number g) v (players g) (pid g) (handicap g) (teams g) (scores g) (awards g) (itemsp g) (killsp g) (deathsp g) (ctf g) (ptime g) (time g) (validp g) (quotes g) (weapons g) (pos g) (gametype g) (ctfscores g).
Definition set_players (v : gmap string (string * Z)) (g : Game) : Game :=
  mkGame (number g) (mapname g) v (pid g) (handicap g) (teams g) (scores g) (awards g) (itemsp g) (killsp g) (deathsp g) (ctf g) (ptime g) (time g) (validp g) (quotes g) (weapons g) (pos g) (gametype g) (ctfscores g).
Definition set_pid (v : gmap string string) (g : Game) : Game :=
  mkGame (number g) (mapname g) (players g) v (handicap g) (teams g) (scores g) (awards g) (itemsp g) (killsp g) (deathsp g) (ctf g) (ptime g) (time g) (validp g) (quotes g) (weapons g) (pos g) (gametype g) (ctfscores g).
Definition set_handicap (v : gmap string pyval) (g : Game) : Game :=
  mkGame (number g) (mapname g) (players g) (pid g) v (teams g) (scores g) (awards g) (itemsp g) (killsp g) (deathsp g) (ctf g) (ptime g) (time g) (validp g) (quotes g) (weapons g) (pos g) (gametype g) (ctfscores g).
Definition set_teams (v : gmap string string) (g : Game) : Game :=
  mkGame (number g) (mapname g) (players g) (pid g) (handicap g) v (scores g) (awards g) (itemsp g) (killsp g) (deathsp g) (ctf g) (ptime g) (time g) (validp g) (quotes g) (weapons g) (pos g) (gametype g) (ctfscores g).
Definition set_scores (v : list (list string)) (g : Game) : Game :=
  mkGame (number g) (mapname g) (players g) (pid g) (handicap g) (teams g) v (awards g) (itemsp g) (killsp g) (deathsp g) (ctf g) (ptime g) (time g) (validp g) (quotes g) (weapons g) (pos g) (gametype g) (ctfscores g).
Definition set_awards (v : gmap string (gmap string Z)) (g : Game) : Game :=
  mkGame (number g) (mapname g) (players g) (pid g) (handicap g) (teams g) (scores g) v (itemsp g) (killsp g) (deathsp g) (ctf g) (ptime g) (time g) (validp g) (quotes g) (weapons g) (pos g) (gametype g) (ctfscores g).
Definition set_itemsp (v : gmap string (list string)) (g : Game) : Game :=
  mkGame (number g) (mapname g) (players g) (pid g) (handicap g) (teams g) (scores g) (awards g) v (killsp g) (deathsp g) (ctf g) (ptime g) (time g) (validp g) (quotes g) (weapons g) (pos g) (gametype g) (ctfscores g).
Definition set_killsp (v : gmap string (list string)) (g : Game) : Game :=
  mkGame (number g) (mapname g) (players g) (pid g) (handicap g) (teams g) (scores g) (awards g) (itemsp g) v (deathsp g) (ctf g) (ptime g) (time g) (validp g) (quotes g) (weapons g) (pos g) (gametype g) (ctfscores g).
Definition set_deathsp (v : gmap string Z) (g : Game) : Game :=
  mkGame (number g) (mapname g) (players g) (pid g) (handicap g) (teams g) (scores g) (awards g) (itemsp g) (killsp g) v (ctf g) (ptime g) (time g) (validp g) (quotes g) (weapons g) (pos g) (gametype g) (ctfscores g).
Definition set_ctf (v : gmap string (gmap string Z)) (g : Game) : Game :=
  mkGame (number g) (mapname g) (players g) (pid g) (handicap g) (teams g) (scores g) (awards g) (itemsp g) (killsp g) (deathsp g) v (ptime g) (time g) (validp g) (quotes g) (weapons g) (pos g) (gametype g) (ctfscores g).
Definition set_ptime (v : gmap string Z) (g : Game) : Game :=
  mkGame (number g) (mapname g) (players g) (pid g) (handicap g) (teams g) (scores g) (awards g) (itemsp g) (killsp g) (deathsp g) (ctf g) v (time g) (validp g) (quotes g) (weapons g) (pos g) (gametype g) (ctfscores g).
Definition set_time (v : Z) (g : Game) : Game :=
  mkGame (number g) (mapname g) (players g) (pid g) (handicap g) (teams g) (scores g) (awards g) (itemsp g) (killsp g) (deathsp g) (ctf g) (ptime g) v (validp g) (quotes g) (weapons g) (pos g) (gametype g) (ctfscores g).
Definition set_validp (v : list string) (g : Game) : Game :=
  mkGame (number g) (mapname g) (players g) (pid g) (handicap g) (teams g) (scores g) (awards g) (itemsp g) (killsp g) (deathsp g) (ctf g) (ptime g) (time g) v (quotes g) (weapons g) (pos g) (gametype g) (ctfscores g).
Definition set_quotes (v : gset (string * string)) (g : Game) : Game :=
  mkGame (number g) (mapname g) (players g) (pid g) (handicap g) (teams g) (scores g) (awards g) (itemsp g) (killsp g) (deathsp g) (ctf g) (ptime g) (time g) (validp g) v (weapons g) (pos g) (gametype g) (ctfscores g).
Definition set_weapons (v : gmap string (gmap string Z)) (g : Game) : Game :=
  mkGame (number g) (mapname g) (players g) (pid g) (handicap g) (teams g) (scores g) (awards g) (itemsp g) (killsp g) (deathsp g) (ctf g) (ptime g) (time g) (validp g) (quotes g) v (pos g) (gametype g) (ctfscores g).
Definition set_pos (v : Z) (g : Game) : Game :=
  mkGame (number g) (mapname g) (players g) (pid g) (handicap g) (teams g) (scores g) (awards g) (itemsp g) (killsp g) (deathsp g) (ctf g) (ptime g) (time g) (validp g) (quotes g) (weapons g) v (gametype g) (ctfscores g).
Definition set_gametype (v : option string) (g : Game) : Game :=
  mkGame (number g) (mapname g) (players g) (pid g) (handicap g) (teams g) (scores g) (awards g) (itemsp g) (killsp g) (deathsp g) (ctf g) (ptime g) (time g) (validp g) (quotes g) (weapons g) (pos g) v (ctfscores g).
Definition set_ctfscores (v : option (string * string)) (g : Game) : Game :=
  mkGame (number g) (mapname g) (players g) (pid g) (handicap g) (teams g) (scores g) (awards g) (itemsp g) (killsp g) (deathsp g) (ctf g) (ptime g) (time g) (validp g) (quotes g) (weapons g) (pos g) (gametype g) v.

Record Server : Type := mkServer {
  srv_time : Z;
  srv_frags : Z;
  srv_gtype : Z;
  srv_hostname : option string
}.

(** [Game(number)], followed by [game.pos = 1] as [mainProcessing] does. *)
Definition Game_init (number : Z) : Game :=
  {| number := number; mapname := ""; players := ∅; pid := ∅;
     handicap := ∅; teams := ∅; scores := []; awards := ∅; itemsp := ∅;
     killsp := {[ "<world>" := [] ]}; deathsp := ∅; ctf := ∅; ptime := ∅;
     time := 0; validp := []; quotes := ∅; weapons := ∅;
     pos := 1; gametype := None; ctfscores := None |}.

Definition Server_init : Server :=
  {| srv_time := 0; srv_frags := 0; srv_gtype := 0; srv_hostname := None |}.

(** [MINPLAY = 0.5] *)
Definition MINPLAY : Q := 1 # 2.

(** ** Helpers for dictionaries *)

(** [d.values()] *)
Definition values {A} (d : gmap string A) : list A := (map_to_list d).*2.

(** [name in d.values()] *)
Definition in_values (name : string) (d : gmap string string) : bool :=
  bool_decide (name ∈ values d).

(** [min(l)]: [ValueError] on an empty sequence. *)
Definition pymin (l : list Z) : result Z :=
  match l with
  | [] => Raise ValueError
  | x :: l' => Ok (foldl Z.min x l')
  end.

(** [a > q * b] with integers [a], [b] and the float [q].  The durations of
    this program lie below 86400, where the product with 0.5 and the
    comparison are exact in binary floating point, so the rationals decide
    it. *)
Definition gt_scaled (a : Z) (q : Q) (b : Z) : bool :=
  negb (Qle_bool (inject_Z a) (q * inject_Z b)).

(** ** The event parser *)

Definition bslash : ascii := "\"%char.

(** [mapname[\\]( [\w]* )] *)
Definition re_mapname : list Re.atom :=
  Re.lit "mapname" ++ [Re.One (Str.is_char bslash);
                       Re.Mark; Re.Star Str.is_word; Re.Mark].

(** [lineProcInit]: process game init lines. *)
Definition lineProcInit (line : string) (game : Game) (server : Server)
  : result (Game * Server) :=
  mapname ← Re.search1 re_mapname line;
  let game := set_mapname mapname game in
  let idx := Str.find line "sv_hostname" + 11 in
  hostname ← of_option IndexError
             (Str.split (Str.slice line idx (idx + 50)) bslash !! 1%nat);
  let server := mkServer (srv_time server) (srv_frags server)
                         (srv_gtype server) (Some hostname) in
  let idx := Str.find line "g_gametype" in
  gt ← Str.index line (idx + 11);
  let game := set_gametype (Some gt) game in
  let gtype := match Str.to_int gt with
               | Ok n => n
               | Raise _ => 0
               end in
  Ok (game, mkServer (srv_time server) (srv_frags server) gtype
                     (srv_hostname server)).

(** [\d:[\s]( .* )], the fragger's nick *)
Definition re_killer : list Re.atom :=
  [Re.One Str.is_digit; Re.One (Str.is_char ":"); Re.One Str.is_space;
   Re.Mark; Re.Star Str.dot; Re.Mark].

(** The fields a kill line is cut into: killer, victim and weapon.  [None]
    is the first [except] of [lineProcKills]: no killer was found. *)
Definition parse_kill (this_line : string)
  : option (string * string * string) :=
  let k_idx := Str.find this_line " killed " in
  match Re.search1 re_killer (Str.slice this_line 17 k_idx) with
  | Raise _ => None
  | Ok killer =>
      let d_idx := k_idx + 6 in
      let b_idx := Str.rfind this_line " b" in
      let killed := Str.slice this_line (d_idx + 2) b_idx in
      let weapon := Str.slice this_line (b_idx + 7 + 1) (-1) in
      Some (killer, killed, weapon)
  end.

(** The first statement of the [try] block of [lineProcKills], the
    three-way branch.  It returns the game as the branch left it and
    whether the branch raised. *)
Definition kill_branch (killer killed weapon : string) (game : Game)
  : Game * result unit :=
  if String.eqb killer killed then
    match killsp game !! killer with
    | Some l =>
        (set_killsp (<[killer := l ++ [weapon]]> (killsp game)) game, Ok ())
    | None => (game, Raise KeyError)
    end
  else if negb (String.eqb killer "<world>") then
    match weapons game !! killer with
    | Some w =>
        match w !! Str.slice weapon 0 3 with
        | Some n =>
            (set_weapons
               (<[killer := <[Str.slice weapon 0 3 := n + 1]> w]>
                  (weapons game)) game, Ok ())
        | None => (game, Raise KeyError)
        end
    | None => (game, Raise KeyError)
    end
  else
    match killsp game !! "<world>" with
    | Some l =>
        (set_killsp (<["<world>" := l ++ [killed]]> (killsp game)) game,
         Ok ())
    | None => (game, Raise KeyError)
    end.

(** The whole [try] block: the branch, then the victim's death counter.
    The dictionaries are mutated in place, so what the branch wrote stays
    written when the death counter raises. *)
Definition kill_try (killer killed weapon : string) (game : Game)
  : Game * result unit :=
  match kill_branch killer killed weapon game with
  | (game, Raise e) => (game, Raise e)
  | (game, Ok _) =>
      match deathsp game !! killed with
      | Some d => (set_deathsp (<[killed := d + 1]> (deathsp game)) game, Ok ())
      | None => (game, Raise KeyError)
      end
  end.

Definition add_frag (server : Server) : Server :=
  mkServer (srv_time server) (srv_frags server + 1) (srv_gtype server)
           (srv_hostname server).

(** [lineProcKills]: process kill lines.  [except: pass] keeps the game as
    it is at the raise; [else] counts the frag on the server. *)
Definition lineProcKills (this_line : string) (game : Game) (server : Server)
  : Game * Server :=
  match parse_kill this_line with
  | None => (game, server)
  | Some (killer, killed, weapon) =>
      match kill_try killer killed weapon game with
      | (game, Raise _) => (game, server)
      | (game, Ok _) => (game, add_frag server)
      end
  end.

(** [d[k1][k2] = d[k1][k2] + 1] on a dictionary of counters. *)
Definition bump (k1 k2 : string) (d : gmap string (gmap string Z))
  : result (gmap string (gmap string Z)) :=
  c ← of_option KeyError (d !! k1);
  n ← of_option KeyError (c !! k2);
  Ok (<[k1 := <[k2 := n + 1]> c]> d).

(** [lineProcCTF]: process CTF lines. *)
Definition lineProcCTF (this_line : string) (game : Game) : result Game :=
  p_id ← Str.index this_line 12;
  event ← Str.index this_line 16;
  match (name ← of_option KeyError (pid game !! p_id);
         bump name event (ctf game)) with
  | Ok c => Ok (set_ctf c game)
  | Raise _ => Ok game
  end.

(** [\d:\s( \S*\s?\S* )], the player name *)
Definition re_award_name : list Re.atom :=
  [Re.One Str.is_digit; Re.One (Str.is_char ":"); Re.One Str.is_space;
   Re.Mark; Re.Star Str.not_space; Re.Opt Str.is_space;
   Re.Star Str.not_space; Re.Mark].

(** [lineProcAwards]: process award lines. *)
Definition lineProcAwards (this_line : string) (game : Game) : result Game :=
  let g_idx := Str.find this_line " gained " in
  name ← Re.search1 re_award_name (Str.slice this_line 0 g_idx);
  let award := Str.slice this_line (g_idx + 12) (g_idx + 13) in
  match bump name award (awards game) with
  | Ok a => Ok (set_awards a game)
  | Raise _ => Ok game
  end.

(** [Changed:[\s]( [\d]* )], the client id *)
Definition re_client_id : list Re.atom :=
  Re.lit "Changed:" ++ [Re.One Str.is_space;
                        Re.Mark; Re.Star Str.is_digit; Re.Mark].

(** [n\\( [^\\]* )], the client name *)
Definition re_client_name : list Re.atom :=
  Re.lit "n" ++ [Re.One (Str.is_char bslash);
                 Re.Mark; Re.Star (Str.not_char bslash); Re.Mark].

(** [\\hc\\( \d* )], the handicap *)
Definition re_handicap : list Re.atom :=
  [Re.One (Str.is_char bslash)] ++ Re.lit "hc" ++
  [Re.One (Str.is_char bslash); Re.Mark; Re.Star Str.is_digit; Re.Mark].

(** [\\t\\(\d)], the team *)
Definition re_team : list Re.atom :=
  [Re.One (Str.is_char bslash)] ++ Re.lit "t" ++
  [Re.One (Str.is_char bslash); Re.Mark; Re.One Str.is_digit; Re.Mark].

Definition new_awards : gmap string Z :=
  <["A" := 0]> (<["C" := 0]> (<["D" := 0]> (<["E" := 0]> (<["I" := 0]> ∅)))).

Definition new_ctf : gmap string Z :=
  <["0" := 0]> (<["1" := 0]> (<["2" := 0]> (<["3" := 0]> ∅))).

Definition weapon_codes : list string :=
  ["SHO"; "GAU"; "MAC"; "GRE"; "ROC"; "PLA";
   "RAI"; "LIG"; "BFG"; "TEL"; "NAI"; "CHA"].

Definition new_weapons : gmap string Z :=
  foldr (fun k d => <[k := 0]> d) ∅ weapon_codes.

(** The fields a user-info line is cut into: client id, name, handicap and
    team.  A missing handicap is caught and defaults to the integer 100;
    without an id, a name or a team the line raises. *)
Definition parse_userinfo (this_line : string)
  : result (string * string * pyval * string) :=
  new_id ← Re.search1 re_client_id this_line;
  new_name ← Re.search1 re_client_name this_line;
  let hc := match Re.search1 re_handicap this_line with
            | Ok h => PStr h
            | Raise _ => PInt 100
            end in
  team ← Re.search1 re_team this_line;
  Ok (new_id, new_name, hc, team).

(** The dictionaries of a new player, before the join time is read. *)
Definition init_player (new_name : string) (hc : pyval) (team : string)
           (game : Game) : Game :=
  let game := set_itemsp (<[new_name := []]> (itemsp game)) game in
  let game := set_killsp (<[new_name := []]> (killsp game)) game in
  let game := set_deathsp (<[new_name := 0]> (deathsp game)) game in
  let game := set_awards (<[new_name := new_awards]> (awards game)) game in
  let game := set_handicap (<[new_name := hc]> (handicap game)) game in
  let game := set_teams (<[new_name := team]> (teams game)) game in
  let game := set_ctf (<[new_name := new_ctf]> (ctf game)) game in
  set_weapons (<[new_name := new_weapons]> (weapons game)) game.

(** [lineProcUserInfo]: process user info lines. *)
Definition lineProcUserInfo (this_line : string) (game : Game)
  : result Game :=
  '(new_id, new_name, hc, team) ← parse_userinfo this_line;
  if negb (in_values new_name (pid game)) then
    let game := init_player new_name hc team game in
    let c_idx := Str.find this_line "ClientU" in
    t ← totime (Str.slice this_line 0 c_idx);
    let game := set_ptime (<[new_name := t]> (ptime game)) game in
    Ok (set_pid (<[new_id := new_name]> (pid game)) game)
  else Ok game.

(** [lineProcQuotes]: process quotes lines. *)
Definition lineProcQuotes (this_line : string) (game : Game) : result Game :=
  name ← of_option IndexError (Str.split this_line ":" !! 2%nat);
  part ← of_option IndexError (Str.split this_line ":" !! 3%nat);
  let bs := Str.slice part 0 (-1) in
  Ok (set_quotes ({[ (name, bs) ]} ∪ quotes game) game).

(** The pattern of a score line, written with [re.VERBOSE]:
    [( \s?\s?\s? \S* ) [\s][^\s]*[\s] ( \S?\d* ) [\s]+[^\s]*[\s] ( \d* )
     [\s]+[^\s]*[\s] ( \d* ) \s ( .* )] *)
Definition re_score : list Re.atom :=
  [Re.Mark; Re.Opt Str.is_space; Re.Opt Str.is_space; Re.Opt Str.is_space;
   Re.Star Str.not_space; Re.Mark;
   Re.One Str.is_space; Re.Star Str.not_space; Re.One Str.is_space;
   Re.Mark; Re.Opt Str.not_space; Re.Star Str.is_digit; Re.Mark;
   Re.One Str.is_space; Re.Star Str.is_space; Re.Star Str.not_space;
   Re.One Str.is_space;
   Re.Mark; Re.Star Str.is_digit; Re.Mark;
   Re.One Str.is_space; Re.Star Str.is_space; Re.Star Str.not_space;
   Re.One Str.is_space;
   Re.Mark; Re.Star Str.is_digit; Re.Mark;
   Re.One Str.is_space;
   Re.Mark; Re.Star Str.dot; Re.Mark].

(** The five fields of a score line: time, score, ping, client, nick. *)
Definition parse_score (this_line : string)
  : result (string * string * string * string * string) :=
  match Re.search re_score 5 this_line with
  | Some [tm; score; ping; client; nick] =>
      Ok (tm, score, ping, client, nick)
  | _ => Raise AttributeError
  end.

(** The validity test of [lineProcScores]:
    [(game.time - game.ptime[nick]) > MINPLAY * (game.time - min(game.ptime.values()))] *)
Definition played_enough (game : Game) (nick : string) : result bool :=
  joined ← of_option KeyError (ptime game !! nick);
  first ← pymin (values (ptime game));
  Ok (gt_scaled (time game - joined) MINPLAY (time game - first)).

(** [lineProcScores]: process scores lines. *)
Definition lineProcScores (this_line : string) (game : Game) : result Game :=
  '(tm, score, ping, client, nick) ← parse_score this_line;
  let game := set_scores (scores game ++ [[tm; score; ping; client; nick]])
                         game in
  let game := set_players (<[nick := (ping, pos game)]> (players game)) game in
  let game := set_pos (pos game + 1) game in
  ok ← played_enough game nick;
  if (ok : bool) then Ok (set_validp (validp game ++ [nick]) game)
  else Ok game.

(** ** The game segmenter *)

(** [line.find(marker) > 0] *)
Definition has (line marker : string) : bool := 0 <? Str.find line marker.

(** A limit-reached exit line. *)
Definition is_exit (line : string) : bool :=
  has line "Exit: Timelimit hit" || has line "Exit: Fraglimit hit"
  || has line "Exit: Capturelimit hit".

(** The category of a line: the [if]/[elif] chain of [oneGameProc], in its
    order.  The first marker found at a positive index decides. *)
Inductive event : Type :=
| EvItem | EvKill | EvCTF | EvAward | EvUserInfo | EvSay | EvScore
| EvTeamScore | EvExit | EvShutdown | EvOther.

Definition classify (line : string) : event :=
  if has line " Item: " then EvItem
  else if has line " Kill: " then EvKill
  else if has line " CTF: " then EvCTF
  else if has line " Award: " then EvAward
  else if has line "UserinfoChanged" then EvUserInfo
  else if has line " say:" then EvSay
  else if has line " score: " then EvScore
  else if has line " red:" then EvTeamScore
  else if is_exit line then EvExit
  else if has line " ShutdownGame:" then EvShutdown
  else EvOther.

(** [oneGameProc]: process lines from one single game.  [lines] is the
    generator the caller iterates too: the function takes lines off its
    front and returns what it has left.  The extra argument is the local
    [valid_game]. *)
Fixpoint oneGameLoop (lines : list string) (game : Game) (server : Server)
         (valid_game : bool) : result (Game * Server * bool * list string) :=
  match lines with
  | [] => Ok (game, server, valid_game, [])
  | line :: lines =>
      match classify line with
      | EvItem => oneGameLoop lines game server valid_game
      | EvKill =>
          let '(game, server) := lineProcKills line game server in
          oneGameLoop lines game server valid_game
      | EvCTF =>
          game ← lineProcCTF line game;
          oneGameLoop lines game server valid_game
      | EvAward =>
          game ← lineProcAwards line game;
          oneGameLoop lines game server valid_game
      | EvUserInfo =>
          game ← lineProcUserInfo line game;
          oneGameLoop lines game server valid_game
      | EvSay =>
          game ← lineProcQuotes line game;
          oneGameLoop lines game server valid_game
      | EvScore =>
          game ← lineProcScores line game;
          oneGameLoop lines game server valid_game
      | EvTeamScore =>
          red ← Str.index line 11;
          blue ← Str.index line 19;
          oneGameLoop lines (set_ctfscores (Some (red, blue)) game) server
                      valid_game
      | EvExit =>
          let e_idx := Str.find line "Exit" in
          t ← totime (Str.slice line 0 e_idx);
          oneGameLoop lines (set_time t game) server true
      | EvShutdown => Ok (game, server, valid_game, lines)
      | EvOther => oneGameLoop lines game server valid_game
      end
  end.

Definition oneGameProc (lines : list string) (game : Game) (server : Server)
  : result (Game * Server * bool * list string) :=
  oneGameLoop lines game server false.

Definition add_time (server : Server) (t : Z) : Server :=
  mkServer (srv_time server + t) (srv_frags server) (srv_gtype server)
           (srv_hostname server).

(** The loop of [mainProcessing] over the generator [lines], with the
    locals [server], [cgames] and [N].  An iteration takes at least one
    line, so [fuel] beyond the number of lines is never used up. *)
Fixpoint mainLoop (fuel : nat) (lines : list string) (server : Server)
         (cgames : list Game) (N : Z) : result (Server * list Game) :=
  match fuel with
  | O => Raise OutOfFuel
  | S fuel =>
      match lines with
      | [] => Ok (server, cgames)
      | line :: lines =>
          if has line " InitGame: " then
            match lines with
            | [] => Raise StopIteration
            | peeked :: lines =>
                if Str.find peeked " Warmup:" =? -1 then
                  let game := Game_init N in
                  '(game, server) ← lineProcInit line game server;
                  '(game, server, valid_game, lines) ←
                    oneGameProc lines game server;
                  if (valid_game : bool) then
                    if bool_decide (size (players game) = 0%nat) then
                      mainLoop fuel lines server cgames (N + 1)
                    else
                      first ← pymin (values (ptime game));
                      mainLoop fuel lines
                               (add_time server (time game - first))
                               (cgames ++ [game]) (N + 1)
                  else mainLoop fuel lines server cgames (N + 1)
                else mainLoop fuel lines server cgames N
            end
          else mainLoop fuel lines server cgames N
      end
  end.

(** [mainProcessing]: main processing function. *)
Definition mainProcessing (log : list string) : result (Server * list Game) :=
  mainLoop (S (length log)) log Server_init [] 1.

(** ** The aggregator *)

(** [sum(l)] *)
Definition zsum (l : list Z) : Z := foldr Z.add 0 l.

(** [csum]: column-wise addition of lists.  The rows here are always lists
    or tuples of numbers, so the one-dimensional exit is not taken. *)
Definition csum (A : list (list Z)) : result (list Z) :=
  match A with
  | [] => Raise IndexError
  | first :: _ =>
      mapM (fun i : nat =>
              col ← mapM (fun row : list Z => of_option IndexError (row !! i)) A;
              Ok (zsum col))
           (seq 0 (length first))
  end.

(** [allnames]: names of all valid players in log.  A Python set has no
    specified iteration order; [elements] fixes one. *)
Definition allnames (cgames : list Game) : gset string :=
  foldl (fun acc game => acc ∪ list_to_set (validp game)) ∅ cgames.

Fixpoint insert_item {A} (x : string * A) (l : list (string * A))
  : list (string * A) :=
  match l with
  | [] => [x]
  | y :: l' => if String.ltb y.1 x.1 then y :: insert_item x l' else x :: l
  end.

(** [sorted(d.items())]: the keys of a dictionary are distinct, so the
    pairs are ordered by key. *)
Definition sorted_items {A} (d : gmap string A) : list (string * A) :=
  foldr insert_item [] (map_to_list d).

Definition wlist : list string :=
  ["SHOTGUN"; "GAUNTLET"; "MACHINEGUN"; "GRENADE"; "GRENADE_SPLASH";
   "ROCKET"; "ROCKET_SPLASH"; "PLASMA"; "PLASMA_SPLASH"; "RAILGUN";
   "LIGHTNING"; "BFG10K"; "BFG10K_SPLASH"; "TELEFRAG"; "NAIL"; "CHAIN"].

(** What [player_stats] returns after its list of keys. *)
Record GameStats : Type := mkGameStats {
  gs_win : Z;
  gs_time : Z;
  gs_hand : pyval;
  gs_ping : string;
  gs_frags : Z;
  gs_deaths : Z;
  gs_suics : Z;
  gs_wfrags : Z;
  gs_awards : list Z;
  gs_weapon_count : list Z;
  gs_ctf_events : list Z
}.

(** [t[i]] on the pair [t]. *)
Definition pair_index {A} (t : A * A) (i : Z) : result A :=
  if (i =? 0) || (i =? -2) then Ok t.1
  else if (i =? 1) || (i =? -1) then Ok t.2
  else Raise IndexError.

(** The win of a player in a team game.  Only the [IndexError] of a team
    outside the two scores is caught. *)
Definition team_win (game : Game) (player_name : string) : result Z :=
  scores ← of_option AttributeError (ctfscores game);
  team ← of_option KeyError (teams game !! player_name);
  t ← Str.to_int team;
  match pair_index scores (t - 1) with
  | Raise IndexError => Ok 0
  | Raise e => Raise e
  | Ok mine =>
      let best := if String.ltb scores.1 scores.2 then scores.2
                  else scores.1 in
      Ok (if String.eqb mine best then 1 else 0)
  end.

(** [player_stats]: gather the relevant numbers on a per-game, per-player
    basis.  [None] is the [return 0] of a player who is not valid. *)
Definition player_stats (cgames : list Game) (game_number : nat)
           (player_name : string) : result (option GameStats) :=
  game ← of_option IndexError (cgames !! game_number);
  if negb (bool_decide (player_name ∈ validp game)) then Ok None
  else
    joined ← of_option KeyError (ptime game !! player_name);
    let time := time game - joined in
    entry ← of_option KeyError (players game !! player_name);
    let ping := entry.1 in
    hand ← of_option KeyError (handicap game !! player_name);
    gt ← of_option AttributeError (gametype game);
    win ← (if negb (String.eqb gt "4") && negb (String.eqb gt "3")
           then Ok (if entry.2 =? 1 then 1 else 0)
           else team_win game player_name);
    aw ← of_option KeyError (awards game !! player_name);
    let awards := (sorted_items aw).*2 in
    world ← of_option KeyError (killsp game !! "<world>");
    let wfrags := Z.of_nat (length (filter (fun n => n = player_name) world)) in
    deaths ← of_option KeyError (deathsp game !! player_name);
    own ← of_option KeyError (killsp game !! player_name);
    let suics := Z.of_nat (length own) in
    w ← of_option KeyError (weapons game !! player_name);
    let frags := zsum (values w) in
    weapon_count ←
      mapM (fun wn => of_option KeyError (w !! Str.slice wn 0 3)) wlist;
    ctf_events ←
      (if String.eqb gt "4" then
         c ← of_option KeyError (ctf game !! player_name);
         flags_taken ← of_option KeyError (c !! "0");
         flags_retrd ← of_option KeyError (c !! "2");
         flag_fraggd ← of_option KeyError (c !! "3");
         Ok [flags_taken; flags_retrd; flag_fraggd]
       else Ok [0; 0; 0]);
    Ok (Some (mkGameStats win time hand ping frags deaths suics wfrags
                          awards weapon_count ctf_events)).

(** An entry of the aggregated list, the dictionary [one_player]. *)
Record Player : Type := mkPlayer {
  p_name : string;
  p_games : Z;
  p_won : Z;
  p_time : Z;
  p_hand : Q;
  p_ping : Z * Q * Z;
  p_frags : Z;
  p_deaths : Z;
  p_suics : Z;
  p_wfrags : Z;
  p_excellent : Z;
  p_impressive : Z;
  p_defence : Z;
  p_capture : Z;
  p_assist : Z;
  p_weapons : list Z;
  p_ctf : list Z
}.

(** The locals of [player_stats_total] that one player accumulates. *)
Record Totals : Type := mkTotals {
  t_win : Z;
  t_time : Z;
  t_hand : list Z;
  t_ping : list Z;
  t_weapon_count : list (list Z);
  t_ctf_events : list (list Z);
  t_frags : Z;
  t_deaths : Z;
  t_suics : Z;
  t_wfrags : Z;
  t_awards_a : Z;
  t_awards_c : Z;
  t_awards_d : Z;
  t_awards_e : Z;
  t_awards_i : Z
}.

Definition Totals_init : Totals :=
  mkTotals 0 0 [] [] [] [] 0 0 0 0 0 0 0 0 0.

(** [int(x)] on a handicap. *)
Definition pyval_int (v : pyval) : result Z :=
  match v with
  | PStr s => Str.to_int s
  | PInt z => Ok z
  end.

(** One round of the inner loop of [player_stats_total], for a game in
    which the player is valid. *)
Definition add_game (gs : GameStats) (t : Totals) : result Totals :=
  hand ← pyval_int (gs_hand gs);
  ping ← Str.to_int (gs_ping gs);
  a ← of_option IndexError (gs_awards gs !! 0%nat);
  c ← of_option IndexError (gs_awards gs !! 1%nat);
  d ← of_option IndexError (gs_awards gs !! 2%nat);
  e ← of_option IndexError (gs_awards gs !! 3%nat);
  i ← of_option IndexError (gs_awards gs !! 4%nat);
  Ok (mkTotals (t_win t + gs_win gs) (t_time t + gs_time gs)
               (t_hand t ++ [hand]) (t_ping t ++ [ping])
               (t_weapon_count t ++ [gs_weapon_count gs])
               (t_ctf_events t ++ [gs_ctf_events gs])
               (t_frags t + gs_frags gs) (t_deaths t + gs_deaths gs)
               (t_suics t + gs_suics gs) (t_wfrags t + gs_wfrags gs)
               (t_awards_a t + a) (t_awards_c t + c) (t_awards_d t + d)
               (t_awards_e t + e) (t_awards_i t + i)).

(** The inner loop, over the game numbers [idx]. *)
Fixpoint fold_games (cgames : list Game) (name : string) (idx : list nat)
         (t : Totals) : result Totals :=
  match idx with
  | [] => Ok t
  | i :: idx =>
      game ← of_option IndexError (cgames !! i);
      if negb (bool_decide (name ∈ validp game)) then
        fold_games cgames name idx t
      else
        r ← player_stats cgames i name;
        match r with
        | None => Raise TypeError
        | Some gs => t ← add_game gs t; fold_games cgames name idx t
        end
  end.

(** [a / b] on integers: true division. *)
Definition truediv (a b : Z) : result Q :=
  if b =? 0 then Raise ZeroDivisionError
  else Ok (inject_Z a / inject_Z b)%Q.

(** [max(l)]: [ValueError] on an empty sequence. *)
Definition pymax (l : list Z) : result Z :=
  match l with
  | [] => Raise ValueError
  | x :: l' => Ok (foldl Z.max x l')
  end.

(** The dictionary [one_player] of a player with frags. *)
Definition one_player (name : string) (t : Totals) : result Player :=
  hand ← truediv (zsum (t_hand t)) (Z.of_nat (length (t_hand t)));
  lo ← pymin (t_ping t);
  mean ← truediv (zsum (t_ping t)) (Z.of_nat (length (t_ping t)));
  hi ← pymax (t_ping t);
  weapons ← csum (t_weapon_count t);
  ctf ← csum (t_ctf_events t);
  Ok (mkPlayer name (Z.of_nat (length (t_hand t))) (t_win t) (t_time t) hand
               (lo, mean, hi) (t_frags t) (t_deaths t) (t_suics t)
               (t_wfrags t) (t_awards_e t) (t_awards_i t) (t_awards_d t)
               (t_awards_c t) (t_awards_a t) weapons ctf).

(** The outer loop of [player_stats_total], over the names. *)
Fixpoint fold_names (cgames : list Game) (names : list string)
         (all_players : list Player) : result (list Player) :=
  match names with
  | [] => Ok all_players
  | name :: names =>
      t ← fold_games cgames name (seq 0 (length cgames)) Totals_init;
      if t_frags t =? 0 then fold_names cgames names all_players
      else
        p ← one_player name t;
        fold_names cgames names (all_players ++ [p])
  end.

(** [player_stats_total]: accumulated stats per player for all players in
    log. *)
Definition player_stats_total (cgames : list Game) : result (list Player) :=
  fold_names cgames (elements (allnames cgames)) [].

(** ** The ranker *)

(** A sort key: a number, or a list of numbers such as the ping triple and
    the weapon vector.  The ratios are floats in the source; the rationals
    order them the same way as long as the counters stay below 2^26, where
    two different quotients are further apart than a rounding error. *)
Inductive keyval : Type :=
| KNum (q : Q)
| KList (l : list Q).

Definition Qltb (a b : Q) : bool := negb (Qle_bool b a).

Fixpoint list_ltb (a b : list Q) : bool :=
  match a, b with
  | [], [] => false
  | [], _ :: _ => true
  | _ :: _, [] => false
  | x :: a', y :: b' => if Qeq_bool x y then list_ltb a' b' else Qltb x y
  end.

(** [a < b] on two keys of the same kind. *)
Definition key_ltb (a b : keyval) : bool :=
  match a, b with
  | KNum x, KNum y => Qltb x y
  | KList x, KList y => list_ltb x y
  | _, _ => false
  end.

Definition knum (z : Z) : keyval := KNum (inject_Z z).

(** [dic[option]] for a key of [one_player] other than ['name'], which
    [results_ordered] handles before it looks a key up. *)
Definition player_field (sort_option : string) (p : Player) : option keyval :=
  if String.eqb sort_option "games" then Some (knum (p_games p))
  else if String.eqb sort_option "won" then Some (knum (p_won p))
  else if String.eqb sort_option "time" then Some (knum (p_time p))
  else if String.eqb sort_option "hand" then Some (KNum (p_hand p))
  else if String.eqb sort_option "ping" then
    Some (KList [inject_Z (p_ping p).1.1; (p_ping p).1.2;
                 inject_Z (p_ping p).2])
  else if String.eqb sort_option "frags" then Some (knum (p_frags p))
  else if String.eqb sort_option "deaths" then Some (knum (p_deaths p))
  else if String.eqb sort_option "suics" then Some (knum (p_suics p))
  else if String.eqb sort_option "wfrags" then Some (knum (p_wfrags p))
  else if String.eqb sort_option "excellent" then Some (knum (p_excellent p))
  else if String.eqb sort_option "impressive" then Some (knum (p_impressive p))
  else if String.eqb sort_option "defence" then Some (knum (p_defence p))
  else if String.eqb sort_option "capture" then Some (knum (p_capture p))
  else if String.eqb sort_option "assist" then Some (knum (p_assist p))
  else if String.eqb sort_option "weapons" then
    Some (KList (map inject_Z (p_weapons p)))
  else if String.eqb sort_option "ctf" then Some (KList (map inject_Z (p_ctf p)))
  else None.

(** [insert_sorted] puts [x] in front of the first entry that need not
    precede it.  The entries of [l] come after [x] in the input, so entries
    with equal keys keep their order, as in Python's stable sort, also
    under [reverse=True]. *)
Fixpoint insert_sorted (reverse : bool) (x : keyval * Player)
         (l : list (keyval * Player)) : list (keyval * Player) :=
  match l with
  | [] => [x]
  | y :: l' =>
      if (if reverse then key_ltb x.1 y.1 else key_ltb y.1 x.1)
      then y :: insert_sorted reverse x l'
      else x :: l
  end.

(** [sorted(R, key=..., reverse=...)]: the key of every entry is computed
    first, and a key that raises makes the whole call raise. *)
Definition sorted_by (key : Player -> result keyval) (reverse : bool)
           (R : list Player) : result (list Player) :=
  keyed ← mapM (fun p => k ← key p; Ok (k, p)) R;
  Ok (foldr (insert_sorted reverse) [] keyed).*2.

(** [float(a) / b] *)
Definition ratio (a b : Z) : result keyval :=
  q ← truediv a b; Ok (KNum q).

(** [R[0:maxnumber]] *)
Definition take_first (n : Z) (R : list Player) : list Player :=
  take (Z.to_nat n) R.

(** [results_ordered]: sort the list R according to the key specified by
    option; maxnumber limits the size of the output.  [Ok None] is the bare
    [return] after a message.  [maxnumber] is an integer, on which
    [is_number] is true. *)
Definition results_ordered (R : list Player) (sort_option : string)
           (maxnumber : Z) : result (option (list Player)) :=
  let len := Z.of_nat (length R) in
  match (if len <? maxnumber then Some len
         else if maxnumber <=? 0 then None
         else Some maxnumber) with
  | None => Ok None
  | Some maxnumber =>
    if String.eqb sort_option "frag_death_ratio" then
      Rordered ← sorted_by (fun p => ratio (p_frags p) (p_deaths p)) true R;
      Ok (Some (take_first maxnumber Rordered))
    else if String.eqb sort_option "won_percentage" then
      Rordered ← sorted_by (fun p => ratio (p_won p) (p_games p)) true R;
      Ok (Some (take_first maxnumber Rordered))
    else if String.eqb sort_option "frags_per_hour" then
      Rordered ← sorted_by (fun p => ratio (p_frags p) (p_time p)) true R;
      Ok (Some (take_first maxnumber Rordered))
    else if String.eqb sort_option "name" then
      Rordered ← sorted_by (fun p => ratio (p_frags p) (p_deaths p)) false R;
      Ok (Some (take_first maxnumber Rordered))
    else
      first ← of_option IndexError (R !! 0%nat);
      match player_field sort_option first with
      | Some _ =>
          Rordered ←
            sorted_by
              (fun p => of_option KeyError (player_field sort_option p))
              true R;
          Ok (Some (take_first maxnumber Rordered))
      | None => Ok None
      end
  end.

(** ** The table projector *)

Definition scaled (c : Z) (a b : Z) : result Q :=
  q ← truediv (c * a) b; Ok q.

(** A row of [make_stats_table] before its numbers are rounded to two
    places and printed. *)
Definition stats_row (p : Player) : result (string * list Q) :=
  c1 ← scaled 100 (p_won p) (p_games p);
  c2 ← scaled 1 (p_frags p) (1 + p_deaths p);
  c3 ← scaled 3600 (p_frags p) (p_time p);
  c4 ← scaled 1 (p_frags p) (p_games p);
  c5 ← scaled 3600 (p_deaths p) (p_time p);
  c6 ← scaled 1 (p_deaths p) (p_games p);
  c7 ← scaled 3600 (p_suics p + p_wfrags p) (p_time p);
  c8 ← scaled 1 (p_suics p + p_wfrags p) (p_games p);
  c9 ← scaled 100 (p_frags p) (1 + p_frags p + p_deaths p);
  Ok (p_name p, [c1; c2; c3; c4; c5; c6; c7; c8; c9]).

(** [make_stats_table]: another table with more numbers. *)
Definition make_stats_table (R : list Player)
  : result (list (string * list Q)) :=
  mapM stats_row R.

(** [make_ctf_table]: table with CTF-related numbers. *)
Definition make_ctf_table (R : list Player) : list (string * list Z) :=
  map (fun p => (p_name p,
                 p_ctf p ++ [p_defence p; p_assist p; p_capture p])) R.

(** ** The configuration *)

(** [MAXPLAYERS = 150] *)
Definition MAXPLAYERS : Z := 150.

(** [SORT_OPTION = 'time'] *)
Definition SORT_OPTION : string := "time".

(** [BAN_LIST = ['UnnamedPlayer', 'a_player_I_dont_like']] *)
Definition BAN_LIST : list string := ["UnnamedPlayer"; "a_player_I_dont_like"].

(** [GTYPE_OVERRIDE = ''] *)
Definition GTYPE_OVERRIDE : string := EmptyString.

(** ** The ban filter *)

(** [l.index(x)], where it is used after [x in l]. *)
Fixpoint index_of (x : string) (l : list string) : option nat :=
  match l with
  | [] => None
  | y :: l' => if String.eqb y x then Some 0%nat
               else S <$> index_of x l'
  end.

(** The first loop of [apply_ban]: for every name of the ban list that is
    among the names, the index of its first entry. *)
Definition ban_list_index (R_names BAN_LIST : list string) : list nat :=
  flat_map (fun name => match index_of name R_names with
                        | Some i => [i]
                        | None => []
                        end) BAN_LIST.

Fixpoint insert_desc (i : nat) (l : list nat) : list nat :=
  match l with
  | [] => [i]
  | j :: l' => if (i <? j)%nat then j :: insert_desc i l' else i :: l
  end.

(** [sorted(l, reverse=True)] on indexes. *)
Definition sorted_desc (l : list nat) : list nat := foldr insert_desc [] l.

(** [del(R[i])]: [IndexError] when there is no entry [i]. *)
Definition del {A} (i : nat) (R : list A) : result (list A) :=
  if (i <? length R)%nat then Ok (delete i R) else Raise IndexError.

Fixpoint del_all {A} (idx : list nat) (R : list A) : result (list A) :=
  match idx with
  | [] => Ok R
  | i :: idx => R ← del i R; del_all idx R
  end.

(** [apply_ban]: possibly naive implementation of a black list of
    players. *)
Definition apply_ban (R : list Player) (BAN_LIST : list string)
  : result (list Player) :=
  let R_names := map p_name R in
  del_all (sorted_desc (ban_list_index R_names BAN_LIST)) R.

(** ** Colour codes *)

(** [s[a:]] *)
Definition slice_from (s : string) (a : Z) : string :=
  Str.slice s a (Str.len s).

Definition dquote : string := String "034"%char EmptyString.

(** One round of the loop of [name_colour], for the digit [n]. *)
Definition colour_step (nick n : string) : string :=
  let code := String.append "^" n in
  let html_code :=
    String.append "<SPAN class="
      (String.append dquote
         (String.append "c" (String.append n (String.append dquote ">")))) in
  if -1 <? Str.rfind nick code then
    let idx := Str.find nick code in
    String.append (Str.slice nick 0 idx)
                  (String.append html_code (slice_from nick (idx + 2)))
  else nick.

(** [name_colour]: parse Quake colour codes to HTML. *)
Definition name_colour (nick : string) : string :=
  foldl colour_step nick ["0"; "1"; "2"; "3"; "4"; "5"; "6"; "7"].

(** ** The game type of the report *)

Definition gametypes : list (Z * string) :=
  [(0, "Death Match"); (1, "1 vs 1"); (2, "Single Death Match");
   (3, "Team Death Match"); (4, "Capture the Flag"); (5, "One-Flag CTF");
   (6, "Overload"); (7, "Harvester"); (8, "Elimination");
   (9, "CTF Elimination"); (10, "Last Man Standing");
   (11, "Double Elimination"); (12, "Domination")].

(** [gametypes[k]] *)
Definition gametype_name (k : Z) : result string :=
  match filter (fun e => e.1 = k) gametypes with
  | e :: _ => Ok e.2
  | [] => Raise KeyError
  end.

(** [sub in s] on strings. *)
Definition contains (s sub : string) : bool := 0 <=? Str.find s sub.

(** [set_gametype] of the source (the name without prefix is taken by the
    setter of a game): the name that replaces [server.gtype], for the
    configured [GTYPE_OVERRIDE]; the other attributes of the server stay
    as they are. *)
Definition set_server_gametype (GTYPE_OVERRIDE : string) (server : Server)
  : result string :=
  if contains "" GTYPE_OVERRIDE then gametype_name (srv_gtype server)
  else if bool_decide (GTYPE_OVERRIDE ∈ ["ctf"; "CTF"])
       then Ok "Capture the Flag"
  else if bool_decide (GTYPE_OVERRIDE ∈ ["dm"; "DM"]) then Ok "Death Match"
  else if negb (String.eqb GTYPE_OVERRIDE "") then Ok GTYPE_OVERRIDE
  else Ok "Unknown".

(** ** Quotes *)

(** [get_quotes]: the quotes of all games, each once.  A set is never
    equal to the empty list, so no game is left out; the order of the list
    made of the set is not specified, and [elements] fixes one. *)
Definition get_quotes (cgames : list Game) : list (string * string) :=
  if bool_decide (length cgames ≠ 0%nat)
  then elements (foldr (fun g acc => quotes g ∪ acc) ∅ cgames)
  else [].

(** ** The weapon table *)

(** [l[a:b]] for constant bounds *)
Definition lslice {A} (l : list A) (a b : nat) : list A :=
  take (b - a) (drop a l).

(** The row of [make_weapons_table] after its first loop, without the
    name: the counts of the weapon groups. *)
Definition weapon_groups (w : list Z) : list Z :=
  lslice w 0 3 ++ [zsum (lslice w 3 5)] ++ [zsum (lslice w 5 7)]
  ++ [zsum (lslice w 7 9)] ++ lslice w 9 11 ++ drop 14 w
  ++ [zsum (lslice w 11 13)] ++ lslice w 13 14.

(** A row of [make_weapons_table] before its numbers are rounded to two
    places and printed: every count as a percentage of the frags. *)
Definition weapons_row (p : Player) : result (string * list Q) :=
  shares ← mapM (fun x => truediv (100 * x) (p_frags p))
                (weapon_groups (p_weapons p));
  Ok (p_name p, shares).

(** [make_weapons_table]: list storing data for weapons table. *)
Definition make_weapons_table (R : list Player)
  : result (list (string * list Q)) :=
  mapM weapons_row R.

(** * The vocabulary of the properties, and sample data *)

(** [first] is the earliest join offset of the dictionary [d]: it is one of
    its values and no value lies below it. *)
Definition earliest (d : gmap string Z) (first : Z) : Prop :=
  first ∈ values d /\ Forall (fun v => first <= v) (values d).

(** A match of ten minutes: A joined at its start, B after five minutes,
    which is exactly half of the time A played. *)
Definition boundary_game : Game :=
  set_time 600
    (set_ptime (<["A" := 0]> (<["B" := 300]> ∅)) (Game_init 1)).

(** A match in which Foo and Bar are registered. *)
Definition arena : Game :=
  init_player "Foo" (PStr "100") "0"
    (init_player "Bar" (PStr "100") "0" (Game_init 1)).

(** The whole [try] block of a kill line runs through: the line yields a
    killer, the victim has a death counter, and the dictionary of the
    branch taken has the key it reads. *)
Definition kill_applies (this_line : string) (game : Game) : Prop :=
  exists killer killed weapon,
    parse_kill this_line = Some (killer, killed, weapon) /\
    is_Some (deathsp game !! killed) /\
    if decide (killer = killed) then is_Some (killsp game !! killer)
    else if decide (killer = "<world>")
         then is_Some (killsp game !! "<world>")
         else exists w, weapons game !! killer = Some w /\
                        is_Some (w !! Str.slice weapon 0 3).

(** The claim as the specification words it: a self-kill or a world-kill
    leaves the server's frags as they are. *)
Definition frags_only_on_regular_kills : Prop :=
  forall this_line game server killer killed weapon,
    parse_kill this_line = Some (killer, killed, weapon) ->
    killer = killed \/ killer = "<world>" ->
    srv_frags (lineProcKills this_line game server).2 = srv_frags server.

(** A log in which Ghost's registration directly follows the init line and
    is taken by the warm-up check, so that Ghost is never registered; Foo
    then kills Ghost. *)
Definition ghost_log : list string := map ln
  ["  0:00 InitGame: \sv_hostname\MyServer\g_gametype\0\mapname\q3dm6\x\y";
   "  0:01 ClientUserinfoChanged: 5 n\Ghost\t\0\hc\100";
   "  0:02 ClientUserinfoChanged: 0 n\Foo\t\0\hc\100";
   "  0:25 Kill: 0 5 6: Foo killed Ghost by MOD_ROCKET";
   " 10:00 Exit: Timelimit hit.";
   " 10:00 score: 1  ping: 62  client: 0 Foo";
   " 10:00 ShutdownGame:"].

(** Foo plays as client 0 in team 1 with handicap 100. *)
Definition foo_joined : Game :=
  set_pid (<["0" := "Foo"]> ∅)
    (set_ptime (<["Foo" := 5]> ∅)
       (init_player "Foo" (PStr "100") "1" (Game_init 1))).

(** The claim as the specification words it, a name being seen once it has
    a join offset: the line sets the team and the handicap it carries,
    binds its client id to the name, and leaves the join offset and the
    counters of the player as they are. *)
Definition known_name_is_updated : Prop :=
  forall this_line game new_id new_name hc team,
    parse_userinfo this_line = Ok (new_id, new_name, hc, team) ->
    is_Some (ptime game !! new_name) ->
    exists game',
      lineProcUserInfo this_line game = Ok game' /\
      teams game' !! new_name = Some team /\
      handicap game' !! new_name = Some hc /\
      pid game' !! new_id = Some new_name /\
      ptime game' !! new_name = ptime game !! new_name /\
      weapons game' !! new_name = weapons game !! new_name /\
      deathsp game' !! new_name = deathsp game !! new_name /\
      killsp game' !! new_name = killsp game !! new_name.

(** The claim as the specification words it: the exit line ends the match,
    so the function returns with the duration set and every later line
    still in the generator. *)
Definition exit_line_is_terminal : Prop :=
  forall line lines game server valid_game t,
    classify line = EvExit ->
    totime (Str.slice line 0 (Str.find line "Exit")) = Ok t ->
    oneGameLoop (line :: lines) game server valid_game
    = Ok (set_time t game, server, true, lines).

(** What is left of a run: the valid players of the game and the lines not
    consumed. *)
Definition outcome (r : result (Game * Server * bool * list string))
  : option (list string * list string) :=
  match r with
  | Ok (game, _, _, lines) => Some (validp game, lines)
  | Raise _ => None
  end.

(** An init line and a separator line. *)
Definition init_q3dm6 : string :=
  ln "  0:00 InitGame: \sv_hostname\MyServer\g_gametype\0\mapname\q3dm6\x\y".

Definition rule_line : string := ln "  0:00 ------------------------------".

(** The claim as the specification words it, for every line sequence: what
    the line after an init line says does not matter, wherever the init
    line stands in the log. *)
Definition line_after_any_init_is_ignored : Prop :=
  forall pre line x x' lines,
    has line " InitGame: " = true ->
    Str.find x " Warmup:" = -1 ->
    Str.find x' " Warmup:" = -1 ->
    mainProcessing (pre ++ line :: x :: lines)
    = mainProcessing (pre ++ line :: x' :: lines).

(** A match that was not shut down before the next one started. *)
Definition unfinished_match : list string :=
  [init_q3dm6; rule_line;
   ln "  0:02 ClientUserinfoChanged: 0 n\Foo\t\0\hc\100";
   ln "  0:03 ClientUserinfoChanged: 1 n\Bar\t\0\hc\100"].

(** The end of a match with the scores of Foo and Bar. *)
Definition second_match : list string := map ln
  [" 10:00 Exit: Timelimit hit.";
   " 10:00 score: 1  ping: 62  client: 0 Foo";
   " 10:00 score: 0  ping: 50  client: 1 Bar";
   " 10:00 ShutdownGame:"].

(** The server's frags at the end of a run. *)
Definition frags_of (r : result (Server * list Game)) : option Z :=
  match r with
  | Ok (server, _) => Some (srv_frags server)
  | Raise _ => None
  end.

(** A log of one match in which Foo frags Bar once and is never fragged. *)
Definition unscathed_log : list string :=
  [init_q3dm6; rule_line;
   ln "  0:02 ClientUserinfoChanged: 0 n\Foo\t\0\hc\100";
   ln "  0:03 ClientUserinfoChanged: 1 n\Bar\t\0\hc\90";
   ln "  0:25 Kill: 0 1 7: Foo killed Bar by MOD_ROCKET_SPLASH";
   ln " 10:00 Exit: Timelimit hit.";
   ln " 10:00 score: 1  ping: 62  client: 0 Foo";
   ln " 10:00 score: 0  ping: 50  client: 1 Bar";
   ln " 10:00 ShutdownGame:"].

(** Foo's career after [unscathed_log]; Bar, without a frag, has none. *)
Definition foo_career : Player :=
  {| p_name := "Foo"; p_games := 1; p_won := 1; p_time := 598;
     p_hand := 100 # 1; p_ping := (62, 62 # 1, 62);
     p_frags := 1; p_deaths := 0; p_suics := 0; p_wfrags := 0;
     p_excellent := 0; p_impressive := 0; p_defence := 0; p_capture := 0;
     p_assist := 0;
     p_weapons := [0; 0; 0; 0; 0; 1; 1; 0; 0; 0; 0; 0; 0; 0; 0; 0];
     p_ctf := [0; 0; 0] |}.

(** The claim as the specification words it: a count outside
    [1 .. size] gives no result. *)
Definition count_out_of_range_fails : Prop :=
  forall R sort_option maxnumber,
    maxnumber <= 0 \/ Z.of_nat (length R) < maxnumber ->
    ~ exists l, results_ordered R sort_option maxnumber = Ok (Some l).

(** The games of the numbers [idx], in their order. *)
Definition games_at (cgames : list Game) (idx : list nat) : list Game :=
  omap (fun i => cgames !! i) idx.

(** The games in which a player is valid. *)
Definition valid_games (cgames : list Game) (name : string) : list Game :=
  filter (fun g => name ∈ validp g) cgames.

(** [player_stats] of a valid player, game by game. *)
Definition stats_of (cgames : list Game) (name : string)
           (games : list Game) (stats : list GameStats) : Prop :=
  Forall2 (fun g gs => exists i, cgames !! i = Some g /\
                                 player_stats cgames i name = Ok (Some gs))
          games stats.

(** Column [i] of a table. *)
Definition column (i : nat) (A : list (list Z)) : list Z :=
  map (fun row => default 0 (row !! i)) A.

(** A player's counter for a CTF event code in a game. *)
Definition ctf_counter (g : Game) (name code : string) : Z :=
  default 0 (ctf g !! name ≫= (.!! code)).

(** What a game adds to the career vector for a code: the counter in a game
    of type 4, nothing in any other game. *)
Definition ctf_contrib (g : Game) (name code : string) : Z :=
  if decide (gametype g = Some "4") then ctf_counter g name code else 0.

(** The sum over the games in which the player is valid. *)
Definition ctf_total (cgames : list Game) (name code : string) : Z :=
  zsum (map (fun g => ctf_contrib g name code) (valid_games cgames name)).

(** What a game adds to the career vector, code by code. *)
Definition ctf_row (name : string) (g : Game) : list Z :=
  [ctf_contrib g name "0"; ctf_contrib g name "2"; ctf_contrib g name "3"].

(** A capture-the-flag match: Foo takes the blue flag, captures it and is
    given the capture award. *)
Definition ctf_log : list string :=
  [ln "  0:00 InitGame: \sv_hostname\MyServer\g_gametype\4\mapname\oasago2\x\y";
   rule_line;
   ln "  0:02 ClientUserinfoChanged: 0 n\Foo\t\1\hc\100";
   ln "  0:03 ClientUserinfoChanged: 1 n\Bar\t\2\hc\100";
   ln "  1:00 CTF: 0 2 0: Foo got the BLUE flag!";
   ln "  1:30 CTF: 0 2 1: Foo captured the BLUE flag!";
   ln "  1:30 Award: 0 1: Foo gained the CAPTURE award!";
   ln "  2:00 Kill: 0 1 7: Foo killed Bar by MOD_ROCKET_SPLASH";
   ln " 10:00 Exit: Capturelimit hit.";
   ln " 10:00 red:1  blue:0";
   ln " 10:00 score: 1  ping: 62  client: 0 Foo";
   ln " 10:00 score: 0  ping: 50  client: 1 Bar";
   ln " 10:00 ShutdownGame:"].

(** The games [mainProcessing] keeps of a log. *)
Definition games_of (log : list string) : list Game :=
  match mainProcessing log with
  | Ok (_, cgames) => cgames
  | Raise _ => []
  end.

(** Foo's career after [ctf_log]. *)
Definition foo_ctf_career : Player :=
  {| p_name := "Foo"; p_games := 1; p_won := 1; p_time := 598;
     p_hand := 100 # 1; p_ping := (62, 62 # 1, 62);
     p_frags := 1; p_deaths := 0; p_suics := 0; p_wfrags := 0;
     p_excellent := 0; p_impressive := 0; p_defence := 0; p_capture := 1;
     p_assist := 0;
     p_weapons := [0; 0; 0; 0; 0; 1; 1; 0; 0; 0; 0; 0; 0; 0; 0; 0];
     p_ctf := [1; 0; 0] |}.

(** The claim as the specification words it: one component for each of the
    four codes, the sum of the player's counter over the valid games. *)
Definition career_has_four_ctf_counters : Prop :=
  forall cgames R p,
    player_stats_total cgames = Ok R ->
    p ∈ R ->
    p_ctf p
    = map (fun code =>
             zsum (map (fun g => ctf_counter g (p_name p) code)
                       (valid_games cgames (p_name p))))
          ["0"; "1"; "2"; "3"].

(** Every weapon dictionary of the game has the twelve codes of its
    initialisation as its keys.  Kill lines keep it so: they write only to
    a key they have read. *)
Definition well_keyed (g : Game) : Prop :=
  forall name w, weapons g !! name = Some w ->
                 dom w = list_to_set weapon_codes.

(** The frags of the four weapons that [wlist] names twice. *)
Definition splash (g : Game) (name : string) : Z :=
  match weapons g !! name with
  | Some w => default 0 (w !! "GRE") + default 0 (w !! "ROC")
              + default 0 (w !! "PLA") + default 0 (w !! "BFG")
  | None => 0
  end.

(** ** The vocabulary of the further properties *)

(** The names of the entries at the indexes [ds]. *)
Definition banned_at (ds : list nat) (R : list Player) : list string :=
  omap (fun d => p_name <$> R !! d) ds.

(** The frags, the deaths and the time played of a player in one game, as
    [player_stats] reads them. *)
Definition frags_in (g : Game) (name : string) : Z :=
  zsum (values (default ∅ (weapons g !! name))).

Definition deaths_in (g : Game) (name : string) : Z :=
  default 0 (deathsp g !! name).

Definition played_in (g : Game) (name : string) : Z :=
  time g - default 0 (ptime g !! name).

(** The integer fields of [one_player] by which [results_ordered] can
    sort, each with its projection. *)
Definition int_fields : list (string * (Player -> Z)) :=
  [("games", p_games); ("won", p_won); ("time", p_time);
   ("frags", p_frags); ("deaths", p_deaths); ("suics", p_suics);
   ("wfrags", p_wfrags); ("excellent", p_excellent);
   ("impressive", p_impressive); ("defence", p_defence);
   ("capture", p_capture); ("assist", p_assist)].

(** The sort keys that [results_ordered] computes on the fly. *)
Definition ratio_keys : list string :=
  ["frag_death_ratio"; "won_percentage"; "frags_per_hour"; "name"].

(** The keys of the dictionary [one_player]. *)
Definition player_keys : list string :=
  ["name"; "games"; "won"; "time"; "hand"; "ping"; "frags"; "deaths";
   "suics"; "wfrags"; "excellent"; "impressive"; "defence"; "capture";
   "assist"; "weapons"; "ctf"].

(** An entry with its key, for the integer field [f]. *)
Definition keyed_by (f : Player -> Z) (p : Player) : keyval * Player :=
  (knum (f p), p).

(** What a retained game adds to the server's time: its duration less the
    earliest join offset. *)
Definition match_length (g : Game) : Z :=
  match pymin (values (ptime g)) with
  | Ok first => time g - first
  | Raise _ => 0
  end.

(** What a game has once [lineProcInit] has run on its init line: its
    number and a game type. *)
Definition started (N : Z) (g : Game) : Prop :=
  number g = N /\ is_Some (gametype g).

(** What the first statement of the [try] block of a kill line can do to a
    game: nothing, an entry more on a kill list, or one more on a weapon
    counter. *)
Definition kill_step (g gb : Game) : Prop :=
  gb = g \/
  (exists k l x,
     killsp g !! k = Some l /\
     gb = set_killsp (<[k := l ++ [x]]> (killsp g)) g) \/
  (exists k w code n,
     weapons g !! k = Some w /\ w !! code = Some n /\
     gb = set_weapons (<[k := <[code := n + 1]> w]> (weapons g)) g).

(** A registered player has an entry in every dictionary of counters, and
    the CTF counters that [player_stats] reads. *)
Definition has_counters (g : Game) (name : string) : Prop :=
  is_Some (handicap g !! name) /\ is_Some (teams g !! name) /\
  is_Some (deathsp g !! name) /\ is_Some (killsp g !! name) /\
  is_Some (awards g !! name) /\ is_Some (weapons g !! name) /\
  exists c, ctf g !! name = Some c /\
            is_Some (c !! "0") /\ is_Some (c !! "2") /\ is_Some (c !! "3").

(** What the lines of a match keep true of its game: the times are seconds
    of a day; who has a join offset has all counters; who has a score has
    a join offset; who is valid has a score; the world has its kill list;
    no counter is negative. *)
Definition sound (g : Game) : Prop :=
  0 <= time g < 86400 /\
  (forall name t, ptime g !! name = Some t ->
                  0 <= t < 86400 /\ has_counters g name) /\
  (forall name, is_Some (players g !! name) -> is_Some (ptime g !! name)) /\
  (forall name, name ∈ validp g -> is_Some (players g !! name)) /\
  is_Some (killsp g !! "<world>") /\
  (forall name d, deathsp g !! name = Some d -> 0 <= d) /\
  (forall name w code n, weapons g !! name = Some w ->
                         w !! code = Some n -> 0 <= n).

(** What the main loop keeps true of its locals: the server's time is the
    sum of the lengths of the retained games; every retained game is
    sound, has a score and a type, and a number below the next one; the
    numbers increase. *)
Definition run_inv (server : Server) (cgames : list Game) (N : Z) : Prop :=
  srv_time server = zsum (map match_length cgames) /\
  Forall (fun g => sound g /\ players g <> ∅ /\ is_Some (gametype g) /\
                   1 <= number g < N) cgames /\
  StronglySorted (fun a b => number a < number b) cgames.

(** The tag that replaces the code of the digit [d]. *)
Definition span (d : ascii) : list ascii :=
  Str.of_str "<SPAN class=" ++ Str.of_str dquote ++ ["c"%char; d]
  ++ Str.of_str dquote ++ [">"%char].

(** A career under the first name of the configured ban list, with no
    time played. *)
Definition unnamed_career : Player :=
  {| p_name := "UnnamedPlayer"; p_games := 1; p_won := 0; p_time := 0;
     p_hand := 100 # 1; p_ping := (50, 50 # 1, 50);
     p_frags := 2; p_deaths := 3; p_suics := 0; p_wfrags := 0;
     p_excellent := 0; p_impressive := 0; p_defence := 0; p_capture := 0;
     p_assist := 0;
     p_weapons := [0; 0; 2; 0; 0; 0; 0; 0; 0; 0; 0; 0; 0; 0; 0; 0];
     p_ctf := [0; 0; 0] |}.

(** The capture-the-flag match of [ctf_log] without its line of team
    scores. *)
Definition ctf_log_without_scores : list string :=
  filter (fun l => negb (has l " red:")) ctf_log.

(** The start of a warm-up round. *)
Definition warmup_line : string := ln "  0:00 Warmup:".

(** The server [mainProcessing] returns for a log, and the game at an
    index of its list. *)
Definition server_of (log : list string) : Server :=
  match mainProcessing log with
  | Ok (server, _) => server
  | Raise _ => Server_init
  end.

Definition game_at (log : list string) (i : nat) : Game :=
  default (Game_init 0) (games_of log !! i).

(** What [oneGameProc] returns for the lines of a match. *)
Definition match_of (lines : list string) (game : Game) (server : Server)
  : Game * Server * bool * list string :=
  match oneGameProc lines game server with
  | Ok r => r
  | Raise _ => (game, server, false, [])
  end.

(** ** The vocabulary of the segmenter, and further sample lines *)

(** The lines of a match before its shutdown line. *)
Definition open_lines (pre : list string) : Prop :=
  Forall (fun l => classify l <> EvShutdown) pre.

Definition is_exit_line (l : string) : bool :=
  match classify l with
  | EvExit => true
  | _ => false
  end.

(** The lines of a match in which Foo, client 0, frags Bar with a rocket
    and client 0 then takes the name Baz. *)
Definition rename_lines : list string := map ln
  ["  0:02 ClientUserinfoChanged: 0 n\Foo\t\1\hc\100";
   "  0:03 ClientUserinfoChanged: 1 n\Bar\t\2\hc\100";
   "  0:25 Kill: 0 1 6: Foo killed Bar by MOD_ROCKET";
   "  1:00 ClientUserinfoChanged: 0 n\Baz\t\1\hc\100"].

(** The game after these lines: Foo has a join offset and a frag, and no
    client id is bound to the name any more. *)
Definition foo_renamed : Game :=
  (match_of rename_lines (Game_init 1) Server_init).1.1.1.

(** Foo comes back, as client 3. *)
Definition foo_returns : string :=
  ln "  5:00 ClientUserinfoChanged: 3 n\Foo\t\2\hc\50".

(** Foo's registration at the start of a match, and the rest of a match
    that Bar joins after five minutes and finishes alone. *)
Definition foo_at_start : string :=
  ln "  0:00 ClientUserinfoChanged: 0 n\Foo\t\0\hc\100".

Definition bar_match : list string := map ln
  ["  5:00 ClientUserinfoChanged: 1 n\Bar\t\0\hc\100";
   " 10:00 Exit: Timelimit hit.";
   " 10:00 score: 0  ping: 50  client: 1 Bar";
   " 10:00 ShutdownGame:"].

(** The kill line of the samples. *)
Definition foo_kills_bar : string :=
  ln "  0:25 Kill: 0 1 6: Foo killed Bar by MOD_ROCKET".

(** * Properties *)

(** ** Sample lines *)

Example parse_kill_sample :
  parse_kill (ln "  0:25 Kill: 1 0 7: A killed B by MOD_ROCKET_SPLASH")
  = Some ("A", "B", "ROCKET_SPLASH").
Proof. reflexivity. Qed.

Example parse_userinfo_sample :
  parse_userinfo
    (ln "  0:05 ClientUserinfoChanged: 0 n\Foo\t\0\model\sarge\hc\100\w\0")
  = Ok ("0", "Foo", PStr "100", "0").
Proof. reflexivity. Qed.

Example parse_score_sample :
  parse_score (ln " 10:14 score: 12  ping: 62  client: 2 Iagoi")
  = Ok (" 10:14", "12", "62", "2", "Iagoi").
Proof. reflexivity. Qed.

Example parse_score_none :
  parse_score (ln "score: 1 ping: 2 client: 3 a") = Raise AttributeError.
Proof. reflexivity. Qed.

Example totime_sample : totime " 10:00 " = Ok 600.
Proof. reflexivity. Qed.

Example totime_wraps : totime " -1:25 " = Ok 86365.
Proof. reflexivity. Qed.

(** ** The exception monad *)

Lemma bind_Ok {A B} (r : result A) (k : A -> result B) (b : B) :
  r ≫= k = Ok b -> exists a, r = Ok a /\ k a = Ok b.
Proof. destruct r as [a|e]; simpl; [eauto | discriminate]. Qed.

Lemma of_option_Ok {A} (e : exn) (o : option A) (a : A) :
  of_option e o = Ok a <-> o = Some a.
Proof. destruct o; simpl; split; congruence. Qed.

Ltac inv_bind H :=
  let a := fresh "a" in
  let Ha := fresh "Ha" in
  apply bind_Ok in H; destruct H as (a & Ha & H).

(** ** Minimum of the join offsets *)

Lemma foldl_min_le (l : list Z) (x : Z) :
  foldl Z.min x l <= x /\ Forall (fun v => foldl Z.min x l <= v) l.
Proof.
  revert x. induction l as [|y l IH]; intros x; simpl.
  - split; [lia | constructor].
  - destruct (IH (Z.min x y)) as [H1 H2]. split; [lia|].
    constructor; [lia | exact H2].
Qed.

Lemma foldl_min_elem (l : list Z) (x : Z) :
  foldl Z.min x l = x \/ foldl Z.min x l ∈ l.
Proof.
  revert x. induction l as [|y l IH]; intros x; simpl; [by left|].
  destruct (IH (Z.min x y)) as [H|H].
  - rewrite H. destruct (Z.min_spec x y) as [[_ ->]|[_ ->]];
      [by left | right; left].
  - right. by right.
Qed.

Lemma pymin_spec (l : list Z) (m : Z) :
  pymin l = Ok m <-> m ∈ l /\ Forall (fun v => m <= v) l.
Proof.
  destruct l as [|x l]; simpl.
  - split; [discriminate | intros [H _]; inversion H].
  - pose proof (foldl_min_le l x) as [Hx Hl].
    pose proof (foldl_min_elem l x) as Hin.
    split.
    + intros [= <-]. split.
      * destruct Hin as [-> | Hin]; [left | by right].
      * by constructor.
    + intros [Hm Hall]. f_equal.
      apply Z.le_antisymm.
      * apply elem_of_cons in Hm. destruct Hm as [-> | Hm]; [done|].
        rewrite Forall_forall in Hl. by apply Hl.
      * rewrite Forall_forall in Hall. apply Hall.
        destruct Hin as [-> | Hin]; [left | by right].
Qed.

Lemma pymin_earliest (d : gmap string Z) (first : Z) :
  pymin (values d) = Ok first <-> earliest d first.
Proof. apply pymin_spec. Qed.

Lemma gt_scaled_spec (a : Z) (q : Q) (b : Z) :
  gt_scaled a q b = true <-> (q * inject_Z b < inject_Z a)%Q.
Proof.
  unfold gt_scaled. rewrite negb_true_iff.
  split.
  - intros H. apply Qnot_le_lt. intros Hle.
    apply Qle_bool_iff in Hle. congruence.
  - intros H. destruct (Qle_bool _ _) eqn:E; [|done].
    apply Qle_bool_iff in E. exfalso. by eapply Qlt_not_le.
Qed.

(** ** C8: the validity of a player *)

(** C8.  A score line of a registered player adds the player to the valid
    list exactly when the time played exceeds [MINPLAY] times the time
    played by the earliest joiner, strictly: at equality the list is left
    as it is. *)
Theorem lineProcScores_strict_validity
  (this_line tm score ping client nick : string) (game : Game)
  (joined first : Z) :
  parse_score this_line = Ok (tm, score, ping, client, nick) ->
  ptime game !! nick = Some joined ->
  earliest (ptime game) first ->
  exists game',
    lineProcScores this_line game = Ok game' /\
    (validp game' = validp game ++ [nick] <->
     (MINPLAY * inject_Z (time game - first)
      < inject_Z (time game - joined))%Q) /\
    (~ (MINPLAY * inject_Z (time game - first)
        < inject_Z (time game - joined))%Q ->
     validp game' = validp game) /\
    ((inject_Z (time game - joined)
      == MINPLAY * inject_Z (time game - first))%Q ->
     validp game' = validp game).
Proof.
  intros Hparse Hjoin Hfirst.
  apply pymin_earliest in Hfirst.
  unfold lineProcScores. rewrite Hparse. simpl.
  unfold played_enough. simpl. rewrite Hjoin, Hfirst. simpl.
  destruct (gt_scaled (time game - joined) MINPLAY (time game - first)) eqn:E.
  - apply gt_scaled_spec in E.
    eexists. split; [reflexivity|]. simpl.
    split; [tauto|]. split; [tauto|].
    intros Heq. rewrite Heq in E. by apply Qlt_irrefl in E.
  - assert (~ (MINPLAY * inject_Z (time game - first)
               < inject_Z (time game - joined))%Q) as Hn.
    { intros H. apply gt_scaled_spec in H. congruence. }
    eexists. split; [reflexivity|]. simpl.
    split; [|by split].
    split; [|tauto].
    intros Heq. exfalso.
    apply (f_equal length) in Heq. rewrite length_app in Heq. simpl in Heq. lia.
Qed.

Lemma lineProcScores_strict_validity_witness :
  parse_score (ln " 10:00 score: 0  ping: 50  client: 1 B")
  = Ok (" 10:00", "0", "50", "1", "B") /\
  ptime boundary_game !! "B" = Some 300 /\
  earliest (ptime boundary_game) 0 /\
  exists game',
    lineProcScores (ln " 10:00 score: 0  ping: 50  client: 1 B")
                   boundary_game = Ok game' /\
    validp game' = validp boundary_game.
Proof.
  assert (earliest (ptime boundary_game) 0) as He.
  { split; apply (bool_decide_unpack _); vm_compute; exact I. }
  split; [reflexivity|]. split; [reflexivity|]. split; [exact He|].
  destruct (lineProcScores_strict_validity
              (ln " 10:00 score: 0  ping: 50  client: 1 B")
              " 10:00" "0" "50" "1" "B" boundary_game 300 0
              eq_refl eq_refl He) as (game' & Hrun & _ & _ & Heq).
  exists game'. split; [exact Hrun|]. apply Heq. reflexivity.
Defined.

(** ** C2: kill lines and the server's frag counter *)

Lemma kill_branch_deathsp killer killed weapon game :
  deathsp (kill_branch killer killed weapon game).1 = deathsp game.
Proof.
  unfold kill_branch.
  destruct (String.eqb killer killed).
  - by destruct (killsp game !! killer).
  - destruct (negb (String.eqb killer "<world>")).
    + destruct (weapons game !! killer) as [w|]; [|done].
      by destruct (w !! Str.slice weapon 0 3).
    + by destruct (killsp game !! "<world>").
Qed.

Lemma kill_branch_ok killer killed weapon game :
  (kill_branch killer killed weapon game).2 = Ok () <->
  if decide (killer = killed) then is_Some (killsp game !! killer)
  else if decide (killer = "<world>")
       then is_Some (killsp game !! "<world>")
       else exists w, weapons game !! killer = Some w /\
                      is_Some (w !! Str.slice weapon 0 3).
Proof.
  unfold kill_branch.
  destruct (String.eqb_spec killer killed) as [Heq|Hne];
    destruct (decide (killer = killed)) as [?|?]; try done.
  - destruct (killsp game !! killer); simpl;
      (split; [intros H | intros [? H]]); try done; eauto.
  - destruct (String.eqb_spec killer "<world>") as [Hw|Hw];
      destruct (decide (killer = "<world>")) as [?|?]; try done;
      cbn [negb].
    + destruct (killsp game !! "<world>"); simpl;
        (split; [intros H | intros [? H]]); try done; eauto.
    + destruct (weapons game !! killer) as [w|] eqn:Ew; simpl.
      * destruct (w !! Str.slice weapon 0 3) eqn:En; simpl.
        -- split; [|done]. intros _. exists w. split; [done|].
           rewrite En. eauto.
        -- split; [done|]. intros (w' & [= <-] & [? ?]). congruence.
      * split; [done|]. intros (w' & ? & _). done.
Qed.

Lemma kill_branch_weapons killer killed weapon game :
  killer = killed \/ killer = "<world>" ->
  weapons (kill_branch killer killed weapon game).1 = weapons game.
Proof.
  intros H. unfold kill_branch.
  destruct (String.eqb_spec killer killed) as [-> | Hne].
  - by destruct (killsp game !! killed).
  - destruct H as [H | ->]; [done|]. simpl.
    by destruct (killsp game !! "<world>").
Qed.

Lemma kill_try_ok killer killed weapon game :
  (kill_try killer killed weapon game).2 = Ok () <->
  (kill_branch killer killed weapon game).2 = Ok () /\
  is_Some (deathsp game !! killed).
Proof.
  unfold kill_try.
  pose proof (kill_branch_deathsp killer killed weapon game) as Hd.
  destruct (kill_branch killer killed weapon game) as [g [[]|e]]; simpl in *.
  - rewrite Hd. destruct (deathsp game !! killed) eqn:E; simpl.
    + split; [intros _; split; eauto | done].
    + split; [done | intros [_ [? ?]]; done].
  - split; [done | intros [? _]; done].
Qed.

Lemma kill_try_weapons killer killed weapon game :
  killer = killed \/ killer = "<world>" ->
  weapons (kill_try killer killed weapon game).1 = weapons game.
Proof.
  intros H. unfold kill_try.
  pose proof (kill_branch_weapons killer killed weapon game H) as Hw.
  destruct (kill_branch killer killed weapon game) as [g [[]|e]]; simpl in *;
    [|done].
  by destruct (deathsp g !! killed).
Qed.

(** C2, as the code has it.  A kill line adds one to the server's frags
    exactly when its whole [try] block runs through, whichever of the three
    branches is taken; otherwise the server is left as it is.  A self-kill
    and a world-kill never touch a weapon-frag counter. *)
Theorem lineProcKills_server_frags (this_line : string) (game : Game)
        (server : Server) :
  (srv_frags (lineProcKills this_line game server).2 = srv_frags server + 1
   <-> kill_applies this_line game) /\
  (~ kill_applies this_line game ->
   (lineProcKills this_line game server).2 = server) /\
  (forall killer killed weapon,
     parse_kill this_line = Some (killer, killed, weapon) ->
     killer = killed \/ killer = "<world>" ->
     weapons (lineProcKills this_line game server).1 = weapons game).
Proof.
  unfold lineProcKills, kill_applies.
  destruct (parse_kill this_line) as [[[killer killed] weapon]|] eqn:Hp.
  - pose proof (kill_try_ok killer killed weapon game) as Hok.
    pose proof (kill_try_weapons killer killed weapon game) as Hw.
    rewrite kill_branch_ok in Hok.
    destruct (kill_try killer killed weapon game) as [g [[]|e]]; simpl in *.
    + destruct Hok as [Hok _]. destruct (Hok eq_refl) as [Hb Hd].
      split; [|split].
      * split; [|intros _; reflexivity].
        intros _. exists killer, killed, weapon. tauto.
      * intros Hn. exfalso. apply Hn. exists killer, killed, weapon. tauto.
      * intros ? ? ? [= <- <- <-]. exact Hw.
    + assert (~ exists k v w, Some (killer, killed, weapon) = Some (k, v, w) /\
                is_Some (deathsp game !! v) /\
                (if decide (k = v) then is_Some (killsp game !! k)
                 else if decide (k = "<world>")
                      then is_Some (killsp game !! "<world>")
                      else exists w0, weapons game !! k = Some w0 /\
                                      is_Some (w0 !! Str.slice w 0 3))) as Hn.
      { intros (k & v & w & [= <- <- <-] & Hd & Hb).
        destruct Hok as [_ Hok]. by specialize (Hok (conj Hb Hd)). }
      split; [|split].
      * split; [intros; lia | intros H; by apply Hn in H].
      * done.
      * intros ? ? ? [= <- <- <-]. exact Hw.
  - split; [|split].
    + simpl. split; [intros; lia | intros (? & ? & ? & ? & _); done].
    + done.
    + intros ? ? ? ?. done.
Qed.

(** Foo's suicide is counted as a frag of the server. *)
Lemma selfkill_counts_as_server_frag :
  parse_kill (ln "  0:30 Kill: 0 0 20: Foo killed Foo by MOD_SUICIDE")
  = Some ("Foo", "Foo", "SUICIDE") /\
  srv_frags (lineProcKills
               (ln "  0:30 Kill: 0 0 20: Foo killed Foo by MOD_SUICIDE")
               arena Server_init).2 = srv_frags Server_init + 1 /\
  ~ frags_only_on_regular_kills.
Proof.
  split; [reflexivity|]. split; [reflexivity|].
  intros H.
  specialize (H (ln "  0:30 Kill: 0 0 20: Foo killed Foo by MOD_SUICIDE")
                arena Server_init "Foo" "Foo" "SUICIDE" eq_refl
                (or_introl eq_refl)).
  vm_compute in H. discriminate.
Qed.

(** The same for a fall: the world's kill of Bar is a frag of the server. *)
Example worldkill_counts_as_server_frag :
  lineProcKills
    (ln "  0:40 Kill: 1022 1 19: <world> killed Bar by MOD_FALLING")
    arena Server_init
  = (set_deathsp (<["Bar" := 1]> (deathsp arena))
       (set_killsp (<["<world>" := ["Bar"]]> (killsp arena)) arena),
     add_frag Server_init).
Proof. vm_compute. reflexivity. Qed.

Lemma lineProcKills_server_frags_witness :
  kill_applies
    (ln "  0:40 Kill: 1022 1 19: <world> killed Bar by MOD_FALLING") arena /\
  srv_frags
    (lineProcKills
       (ln "  0:40 Kill: 1022 1 19: <world> killed Bar by MOD_FALLING")
       arena Server_init).2 = srv_frags Server_init + 1.
Proof.
  assert (kill_applies
            (ln "  0:40 Kill: 1022 1 19: <world> killed Bar by MOD_FALLING")
            arena) as Ha.
  { exists "<world>", "Bar", "FALLING".
    split; [reflexivity|]. split; vm_compute; eauto. }
  split; [exact Ha|].
  apply (lineProcKills_server_frags
           (ln "  0:40 Kill: 1022 1 19: <world> killed Bar by MOD_FALLING")
           arena Server_init).
  exact Ha.
Defined.

(** ** C4: kill lines that name an unregistered player *)

(** A killer who is neither registered nor the world makes the line a
    no-op: the first lookup of the branch raises before anything is
    written. *)
Lemma lineProcKills_unknown_killer this_line game server killer killed weapon :
  parse_kill this_line = Some (killer, killed, weapon) ->
  killer <> "<world>" ->
  killsp game !! killer = None ->
  weapons game !! killer = None ->
  lineProcKills this_line game server = (game, server).
Proof.
  intros Hp Hw Hk Hwp. unfold lineProcKills, kill_try, kill_branch.
  rewrite Hp.
  destruct (String.eqb_spec killer killed) as [Heq|Hne].
  - by rewrite Hk.
  - destruct (String.eqb_spec killer "<world>") as [?|_]; [done|].
    simpl. by rewrite Hwp.
Qed.

(** C4.  Foo is registered, Ghost is not.  The line "Foo killed Ghost" is
    not dropped as a whole: Foo's rocket counter goes from 0 to 1 before
    the lookup of Ghost's death counter raises, and only the rest of the
    event (the death, the server's frag) is skipped.  A world-kill of Ghost
    likewise leaves Ghost on the world-kill list. *)
Theorem kill_of_unregistered_victim_leaks :
  parse_kill (ln "  0:25 Kill: 0 5 6: Foo killed Ghost by MOD_ROCKET")
  = Some ("Foo", "Ghost", "ROCKET") /\
  deathsp arena !! "Ghost" = None /\
  weapons arena !! "Foo" ≫= (.!! "ROC") = Some 0 /\
  lineProcKills (ln "  0:25 Kill: 0 5 6: Foo killed Ghost by MOD_ROCKET")
                arena Server_init
  = (set_weapons (<["Foo" := <["ROC" := 1]> new_weapons]> (weapons arena))
                 arena,
     Server_init) /\
  lineProcKills (ln "  0:40 Kill: 1022 5 19: <world> killed Ghost by MOD_FALLING")
                arena Server_init
  = (set_killsp (<["<world>" := ["Ghost"]]> (killsp arena)) arena,
     Server_init).
Proof. repeat split; vm_compute; reflexivity. Qed.

(** The same through the whole pipeline: in [ghost_log] Foo's kill of the
    unregistered Ghost gives Foo a frag in the career totals that the
    server's frag counter does not have. *)
Example ghost_log_totals :
  exists server cgames,
    mainProcessing ghost_log = Ok (server, cgames) /\
    srv_frags server = 0 /\
    map p_frags <$> player_stats_total cgames = Ok [1].
Proof. eexists _, _. split; [vm_compute; reflexivity|]. by vm_compute. Qed.

(** ** C6: a user-info line for a name already bound to a client id *)

Lemma lineProcUserInfo_bound (this_line : string) (game : Game)
      (new_id new_name team : string) (hc : pyval) :
  parse_userinfo this_line = Ok (new_id, new_name, hc, team) ->
  in_values new_name (pid game) = true ->
  lineProcUserInfo this_line game = Ok game.
Proof.
  intros Hp Hin. unfold lineProcUserInfo. rewrite Hp. simpl.
  by rewrite Hin.
Qed.

(** C6, as the code has it.  When the name of a user-info line is still
    bound to a client id, that is, among the values of the id-to-name map,
    the line does not update the player: team and handicap keep their
    values, and so do the join offset and every per-player counter. *)
Theorem lineProcUserInfo_known_name (this_line : string) (game : Game)
        (new_id new_name team : string) (hc : pyval) :
  parse_userinfo this_line = Ok (new_id, new_name, hc, team) ->
  in_values new_name (pid game) = true ->
  exists game',
    lineProcUserInfo this_line game = Ok game' /\
    teams game' = teams game /\ handicap game' = handicap game /\
    ptime game' = ptime game /\
    killsp game' = killsp game /\ deathsp game' = deathsp game /\
    weapons game' = weapons game /\ awards game' = awards game /\
    ctf game' = ctf game /\ itemsp game' = itemsp game.
Proof.
  intros Hp Hin. exists game.
  split; [by eapply lineProcUserInfo_bound|]. done.
Qed.

Example foo_joined_by_line :
  lineProcUserInfo
    (ln "  0:05 ClientUserinfoChanged: 0 n\Foo\t\1\model\sarge\hc\100\w\0")
    (Game_init 1) = Ok foo_joined.
Proof. by vm_compute. Qed.

Lemma lineProcUserInfo_known_name_witness :
  parse_userinfo foo_returns = Ok ("3", "Foo", PStr "50", "2") /\
  in_values "Foo" (pid foo_joined) = true /\
  exists game',
    lineProcUserInfo foo_returns foo_joined = Ok game' /\
    teams game' = teams foo_joined /\ handicap game' = handicap foo_joined /\
    ptime game' = ptime foo_joined /\
    killsp game' = killsp foo_joined /\ deathsp game' = deathsp foo_joined /\
    weapons game' = weapons foo_joined /\ awards game' = awards foo_joined /\
    ctf game' = ctf foo_joined /\ itemsp game' = itemsp foo_joined.
Proof.
  split; [reflexivity|]. split; [reflexivity|].
  apply (lineProcUserInfo_known_name foo_returns foo_joined
           "3" "Foo" "2" (PStr "50")); reflexivity.
Defined.

(** Foo comes back as client 3, in team 2 and with handicap 50.  While
    client 0 is still bound to Foo, the game keeps Foo in team 1 with
    handicap 100, and client 3 is bound to nobody.  After client 0 has
    taken the name Baz, Foo is no value
    of the id-to-name map: the line makes Foo a new player, the join
    offset goes from 2 to 300 and the rocket counter from 1 to 0. *)
Lemma known_name_is_not_updated :
  (exists game',
     lineProcUserInfo foo_returns foo_joined = Ok game' /\
     teams game' !! "Foo" = Some "1" /\
     handicap game' !! "Foo" = Some (PStr "100") /\
     pid game' !! "3" = None) /\
  (ptime foo_renamed !! "Foo" = Some 2 /\
   (weapons foo_renamed !! "Foo" ≫= (.!! "ROC")) = Some 1 /\
   in_values "Foo" (pid foo_renamed) = false /\
   exists game',
     lineProcUserInfo foo_returns foo_renamed = Ok game' /\
     ptime game' !! "Foo" = Some 300 /\
     (weapons game' !! "Foo" ≫= (.!! "ROC")) = Some 0) /\
  ~ known_name_is_updated.
Proof.
  split; [|split].
  - exists foo_joined.
    split; [by apply (lineProcUserInfo_bound _ _ "3" "Foo" "2" (PStr "50"))|].
    repeat split; by vm_compute.
  - split; [by vm_compute|]. split; [by vm_compute|].
    split; [by vm_compute|].
    destruct (lineProcUserInfo foo_returns foo_renamed) as [g|e] eqn:E;
      [|by vm_compute in E].
    exists g. split; [done|].
    assert (Ok g = lineProcUserInfo foo_returns foo_renamed) as Hg by done.
    clear E. split.
    + assert ((g' ← lineProcUserInfo foo_returns foo_renamed;
               Ok (ptime g' !! "Foo")) = Ok (Some 300)) as H
        by (by vm_compute).
      rewrite <- Hg in H. by injection H.
    + assert ((g' ← lineProcUserInfo foo_returns foo_renamed;
               Ok (weapons g' !! "Foo" ≫= (.!! "ROC"))) = Ok (Some 0)) as H
        by (by vm_compute).
      rewrite <- Hg in H. by injection H.
  - intros H.
    assert (is_Some (ptime foo_joined !! "Foo")) as Hseen
      by (exists 5; by vm_compute).
    destruct (H foo_returns foo_joined "3" "Foo" (PStr "50") "2" eq_refl
                Hseen)
      as (game' & Hrun & Hteam & _).
    rewrite (lineProcUserInfo_bound _ _ "3" "Foo" "2" (PStr "50")) in Hrun
      by reflexivity.
    injection Hrun as <-. vm_compute in Hteam. discriminate.
Qed.

(** ** C5: the exit line *)

Lemma oneGameLoop_exit line lines game server valid_game t :
  classify line = EvExit ->
  totime (Str.slice line 0 (Str.find line "Exit")) = Ok t ->
  oneGameLoop (line :: lines) game server valid_game
  = oneGameLoop lines (set_time t game) server true.
Proof. intros Hc Ht. simpl. rewrite Hc. by rewrite Ht. Qed.

Lemma oneGameLoop_shutdown line lines game server valid_game :
  classify line = EvShutdown ->
  oneGameLoop (line :: lines) game server valid_game
  = Ok (game, server, valid_game, lines).
Proof. intros Hc. simpl. by rewrite Hc. Qed.

(** The loop over a sequence of lines that holds no shutdown line in its
    first part: the second part is dispatched in the state that the first
    part leaves. *)
Lemma oneGameLoop_app pre lines g s v :
  open_lines pre ->
  oneGameLoop (pre ++ lines) g s v
  = r ← oneGameLoop pre g s v; oneGameLoop lines r.1.1.1 r.1.1.2 r.1.2.
Proof.
  intros Hpre. revert g s v.
  induction Hpre as [|line pre Hl _ IH]; intros g s v; [done|].
  cbn [app oneGameLoop].
  destruct (classify line); try done; try apply IH.
  - destruct (lineProcKills line g s). apply IH.
  - destruct (lineProcCTF line g); [apply IH | done].
  - destruct (lineProcAwards line g); [apply IH | done].
  - destruct (lineProcUserInfo line g); [apply IH | done].
  - destruct (lineProcQuotes line g); [apply IH | done].
  - destruct (lineProcScores line g); [apply IH | done].
  - destruct (Str.index line 11); [|done].
    destruct (Str.index line 19); [apply IH | done].
  - destruct (totime _); [apply IH | done].
Qed.

Lemma oneGameLoop_open pre g s v g' s' v' rest :
  open_lines pre ->
  oneGameLoop pre g s v = Ok (g', s', v', rest) ->
  rest = [] /\ v' = v || existsb is_exit_line pre.
Proof.
  intros Hpre. revert g s v.
  induction Hpre as [|line pre Hl _ IH]; intros g s v H.
  - injection H as <- <- <- <-. by rewrite orb_false_r.
  - cbn [oneGameLoop] in H. cbn [existsb]. unfold is_exit_line at 1.
    destruct (classify line) eqn:E; try done; cbn [orb];
      try (by eapply IH).
    + destruct (lineProcKills line g s). by eapply IH.
    + inv_bind H. by eapply IH.
    + inv_bind H. by eapply IH.
    + inv_bind H. by eapply IH.
    + inv_bind H. by eapply IH.
    + inv_bind H. by eapply IH.
    + inv_bind H. inv_bind H. by eapply IH.
    + inv_bind H. apply IH in H as [-> ->].
      split; [done|]. by rewrite orb_true_r.
Qed.

(** Where the loop returns: at the first shutdown line, or at the end of
    the lines. *)
Lemma oneGameLoop_split lines g s v g' s' v' rest :
  oneGameLoop lines g s v = Ok (g', s', v', rest) ->
  exists pre,
    open_lines pre /\
    (lines = pre /\ rest = [] \/
     exists sd, classify sd = EvShutdown /\ lines = pre ++ sd :: rest) /\
    oneGameLoop pre g s v = Ok (g', s', v', []).
Proof.
  revert g s v.
  induction lines as [|line lines IH]; intros g s v H.
  - exists []. injection H as <- <- <- <-.
    split; [constructor|]. split; [by left | done].
  - assert (classify line = EvShutdown \/ classify line <> EvShutdown)
      as [Hsd|Hn] by (destruct (classify line); (by left) || (by right)).
    + exists []. cbn [oneGameLoop] in H. rewrite Hsd in H.
      injection H as <- <- <- <-.
      split; [constructor|]. split; [|done]. right. by exists line.
    + assert (forall g1 s1 v1,
                oneGameLoop lines g1 s1 v1 = Ok (g', s', v', rest) ->
                (forall tl, oneGameLoop (line :: tl) g s v
                            = oneGameLoop tl g1 s1 v1) ->
                exists pre,
                  open_lines pre /\
                  (line :: lines = pre /\ rest = [] \/
                   exists sd, classify sd = EvShutdown /\
                              line :: lines = pre ++ sd :: rest) /\
                  oneGameLoop pre g s v = Ok (g', s', v', [])) as Hstep.
      { intros g1 s1 v1 Hrun Heq.
        destruct (IH _ _ _ Hrun) as (pre & Hopen & Hcase & Hpre).
        exists (line :: pre). split; [by constructor|]. split.
        - destruct Hcase as [[-> ->] | (sd & Hsd & ->)]; [by left|].
          right. by exists sd.
        - by rewrite Heq. }
      cbn [oneGameLoop] in H.
      destruct (classify line) eqn:E; try done.
      * eapply Hstep; [exact H|]. intros tl. cbn [oneGameLoop]. by rewrite E.
      * destruct (lineProcKills line g s) as [g1 s1] eqn:Ek.
        eapply Hstep; [exact H|]. intros tl. cbn [oneGameLoop].
        by rewrite E, Ek.
      * apply bind_Ok in H as (g1 & Hg & H).
        eapply Hstep; [exact H|]. intros tl. cbn [oneGameLoop].
        by rewrite E, Hg.
      * apply bind_Ok in H as (g1 & Hg & H).
        eapply Hstep; [exact H|]. intros tl. cbn [oneGameLoop].
        by rewrite E, Hg.
      * apply bind_Ok in H as (g1 & Hg & H).
        eapply Hstep; [exact H|]. intros tl. cbn [oneGameLoop].
        by rewrite E, Hg.
      * apply bind_Ok in H as (g1 & Hg & H).
        eapply Hstep; [exact H|]. intros tl. cbn [oneGameLoop].
        by rewrite E, Hg.
      * apply bind_Ok in H as (g1 & Hg & H).
        eapply Hstep; [exact H|]. intros tl. cbn [oneGameLoop].
        by rewrite E, Hg.
      * apply bind_Ok in H as (red & Hr & H).
        apply bind_Ok in H as (blue & Hb & H).
        eapply Hstep; [exact H|]. intros tl. cbn [oneGameLoop].
        by rewrite E, Hr, Hb.
      * apply bind_Ok in H as (t & Ht & H).
        eapply Hstep; [exact H|]. intros tl. cbn [oneGameLoop].
        by rewrite E, Ht.
      * eapply Hstep; [exact H|]. intros tl. cbn [oneGameLoop]. by rewrite E.
Qed.

(** C5, as the code has it.  An exit line records the duration and sets
    the valid flag, and the loop goes on with the next line and the same
    game.  The lines after a part without a shutdown line, exit lines or
    not, are dispatched in the state that part leaves.  The loop returns
    at a shutdown line, with the lines after it left to the caller, or at
    the end of the lines: whenever it returns, the lines before that point
    hold no shutdown line, the state returned is the one that dispatching
    all of them gives, and the match is valid when it was before or one of
    them is an exit line. *)
Theorem exit_line_keeps_match_open (lines : list string)
        (game : Game) (server : Server) (valid_game : bool) :
  (forall line t,
     classify line = EvExit ->
     totime (Str.slice line 0 (Str.find line "Exit")) = Ok t ->
     oneGameLoop (line :: lines) game server valid_game
     = oneGameLoop lines (set_time t game) server true) /\
  (forall line,
     classify line = EvShutdown ->
     oneGameLoop (line :: lines) game server valid_game
     = Ok (game, server, valid_game, lines)) /\
  (forall pre,
     open_lines pre ->
     oneGameLoop (pre ++ lines) game server valid_game
     = r ← oneGameLoop pre game server valid_game;
       oneGameLoop lines r.1.1.1 r.1.1.2 r.1.2) /\
  (forall game' server' valid' rest,
     oneGameLoop lines game server valid_game
     = Ok (game', server', valid', rest) ->
     exists pre,
       open_lines pre /\
       (lines = pre /\ rest = [] \/
        exists sd, classify sd = EvShutdown /\ lines = pre ++ sd :: rest) /\
       oneGameLoop pre game server valid_game
       = Ok (game', server', valid', []) /\
       valid' = valid_game || existsb is_exit_line pre).
Proof.
  split; [|split; [|split]].
  - intros line t. apply oneGameLoop_exit.
  - intros line. apply oneGameLoop_shutdown.
  - intros pre. apply oneGameLoop_app.
  - intros game' server' valid' rest H.
    destruct (oneGameLoop_split _ _ _ _ _ _ _ _ H)
      as (pre & Hopen & Hcase & Hpre).
    exists pre. split; [done|]. split; [done|]. split; [done|].
    by destruct (oneGameLoop_open _ _ _ _ _ _ _ _ Hopen Hpre).
Qed.

Lemma exit_line_keeps_match_open_witness :
  let exit := ln " 10:00 Exit: Timelimit hit." in
  let score := ln " 10:00 score: 1  ping: 62  client: 0 Foo" in
  let lines := [score; ln " 10:00 ShutdownGame:"; ln " 10:01 ------------"] in
  let r := match_of (exit :: lines) foo_joined Server_init in
  classify exit = EvExit /\
  totime (Str.slice exit 0 (Str.find exit "Exit")) = Ok 600 /\
  open_lines [exit] /\
  oneGameLoop (exit :: lines) foo_joined Server_init false
  = Ok (r.1.1.1, r.1.1.2, r.1.2, r.2) /\
  oneGameLoop (exit :: lines) foo_joined Server_init false
  = oneGameLoop lines (set_time 600 foo_joined) Server_init true /\
  oneGameLoop ([exit] ++ lines) foo_joined Server_init false
  = (r' ← oneGameLoop [exit] foo_joined Server_init false;
     oneGameLoop lines r'.1.1.1 r'.1.1.2 r'.1.2) /\
  validp r.1.1.1 = ["Foo"] /\
  exists pre,
    open_lines pre /\
    (exit :: lines = pre /\ r.2 = [] \/
     exists sd, classify sd = EvShutdown /\ exit :: lines = pre ++ sd :: r.2) /\
    oneGameLoop pre foo_joined Server_init false
    = Ok (r.1.1.1, r.1.1.2, r.1.2, []) /\
    r.1.2 = false || existsb is_exit_line pre.
Proof.
  intros exit score lines r.
  assert (classify exit = EvExit) as Hc by reflexivity.
  assert (totime (Str.slice exit 0 (Str.find exit "Exit")) = Ok 600) as Ht
    by reflexivity.
  assert (open_lines [exit]) as Ho by (repeat constructor; by vm_compute).
  assert (oneGameLoop (exit :: lines) foo_joined Server_init false
          = Ok (r.1.1.1, r.1.1.2, r.1.2, r.2)) as Hr
    by (vm_compute; reflexivity).
  split; [exact Hc|]. split; [exact Ht|]. split; [exact Ho|].
  split; [exact Hr|].
  destruct (exit_line_keeps_match_open lines foo_joined Server_init false)
    as (Hexit & _ & Happ & _).
  split; [exact (Hexit exit 600 Hc Ht)|]. split; [exact (Happ [exit] Ho)|].
  split; [by vm_compute|].
  destruct (exit_line_keeps_match_open (exit :: lines) foo_joined Server_init
                                       false)
    as (_ & _ & _ & Hsplit).
  exact (Hsplit _ _ _ _ Hr).
Defined.

(** The score line that follows the exit line is dispatched to the game:
    it makes Foo a valid player. *)
Lemma score_after_exit_is_dispatched :
  outcome (oneGameLoop [ln " 10:00 Exit: Timelimit hit.";
                        ln " 10:00 score: 1  ping: 62  client: 0 Foo";
                        ln " 10:00 ShutdownGame:";
                        ln " 10:01 ------------"]
                       foo_joined Server_init false)
  = Some (["Foo"], [ln " 10:01 ------------"]) /\
  ~ exit_line_is_terminal.
Proof.
  split; [by vm_compute|].
  intros H.
  specialize (H (ln " 10:00 Exit: Timelimit hit.")
                [ln " 10:00 score: 1  ping: 62  client: 0 Foo";
                 ln " 10:00 ShutdownGame:";
                 ln " 10:01 ------------"]
                foo_joined Server_init false 600 eq_refl eq_refl).
  apply (f_equal outcome) in H. vm_compute in H. discriminate.
Qed.

(** ** C10: the line after an init line *)

Lemma mainLoop_peek fuel line x x' lines server cgames N :
  has line " InitGame: " = true ->
  Str.find x " Warmup:" = -1 ->
  Str.find x' " Warmup:" = -1 ->
  mainLoop fuel (line :: x :: lines) server cgames N
  = mainLoop fuel (line :: x' :: lines) server cgames N.
Proof.
  intros Hi Hx Hx'. destruct fuel as [|fuel]; [reflexivity|].
  simpl. rewrite Hi, Hx, Hx'. reflexivity.
Qed.

(** While idle, a line without the init marker is passed over. *)
Lemma mainLoop_skip pre fuel lines server cgames N :
  Forall (fun l => has l " InitGame: " = false) pre ->
  mainLoop (length pre + fuel) (pre ++ lines) server cgames N
  = mainLoop fuel lines server cgames N.
Proof.
  induction 1 as [|l pre Hl _ IH]; [reflexivity|].
  simpl. by rewrite Hl.
Qed.

Lemma oneGameLoop_other body line lines g s v :
  open_lines body ->
  classify line = EvOther ->
  oneGameLoop (body ++ line :: lines) g s v
  = oneGameLoop (body ++ lines) g s v.
Proof.
  intros Hopen Hc. rewrite !oneGameLoop_app by done.
  destruct (oneGameLoop body g s v) as [r|e]; [|done].
  cbn [mbind result_bind oneGameLoop]. by rewrite Hc.
Qed.

(** C10, as the code has it.  When the main loop, scanning for a match
    start, meets an init line, the line after it is taken by the warm-up
    check and goes to no parser: whatever the state of the loop, two lines
    without the warm-up marker in that place give the same result.  The
    loop over the lines of a match has no case for an init line: inside a
    match that no shutdown line has ended, an init line without an event
    marker is passed over, and the line after it is dispatched as if the
    init line were not there. *)
Theorem line_after_init_is_consumed (line x : string) (lines : list string) :
  has line " InitGame: " = true ->
  (forall fuel x' server cgames N,
     Str.find x " Warmup:" = -1 ->
     Str.find x' " Warmup:" = -1 ->
     mainLoop fuel (line :: x :: lines) server cgames N
     = mainLoop fuel (line :: x' :: lines) server cgames N) /\
  (forall body game server valid_game,
     open_lines body ->
     classify line = EvOther ->
     oneGameLoop (body ++ line :: x :: lines) game server valid_game
     = oneGameLoop (body ++ x :: lines) game server valid_game).
Proof.
  intros Hi. split.
  - intros fuel x' server cgames N. by apply mainLoop_peek.
  - intros body game server valid_game. apply oneGameLoop_other.
Qed.

(** For a whole log: the init line may come after any lines that do not
    start a match. *)
Corollary mainProcessing_line_after_init pre line x x' lines :
  Forall (fun l => has l " InitGame: " = false) pre ->
  has line " InitGame: " = true ->
  Str.find x " Warmup:" = -1 ->
  Str.find x' " Warmup:" = -1 ->
  mainProcessing (pre ++ line :: x :: lines)
  = mainProcessing (pre ++ line :: x' :: lines).
Proof.
  intros Hpre Hi Hx Hx'. unfold mainProcessing.
  rewrite !length_app. cbn [length].
  replace (S (length pre + S (S (length lines))))
    with (length pre + S (S (S (length lines))))%nat by lia.
  rewrite !mainLoop_skip by done.
  by apply mainLoop_peek.
Qed.

Lemma line_after_init_is_consumed_witness :
  has init_q3dm6 " InitGame: " = true /\
  Str.find foo_at_start " Warmup:" = -1 /\
  Str.find rule_line " Warmup:" = -1 /\
  mainLoop 7 (init_q3dm6 :: foo_at_start :: bar_match) Server_init [] 1
  = mainLoop 7 (init_q3dm6 :: rule_line :: bar_match) Server_init [] 1 /\
  srv_time (server_of (init_q3dm6 :: foo_at_start :: bar_match)) = 300 /\
  srv_time (server_of (init_q3dm6 :: rule_line :: foo_at_start :: bar_match))
  = 600 /\
  open_lines (drop 2 unfinished_match) /\
  classify init_q3dm6 = EvOther /\
  oneGameLoop (drop 2 unfinished_match ++ init_q3dm6 :: foo_kills_bar
               :: second_match) (Game_init 1) Server_init false
  = oneGameLoop (drop 2 unfinished_match ++ foo_kills_bar :: second_match)
                (Game_init 1) Server_init false /\
  srv_frags (match_of (drop 2 unfinished_match ++ init_q3dm6 :: foo_kills_bar
                       :: second_match) (Game_init 1) Server_init).1.1.2 = 1.
Proof.
  assert (has init_q3dm6 " InitGame: " = true) as Hi by reflexivity.
  assert (Str.find foo_at_start " Warmup:" = -1) as Hx by reflexivity.
  assert (Str.find rule_line " Warmup:" = -1) as Hx' by reflexivity.
  assert (open_lines (drop 2 unfinished_match)) as Ho
    by (repeat constructor; by vm_compute).
  assert (classify init_q3dm6 = EvOther) as Hc by reflexivity.
  split; [exact Hi|]. split; [exact Hx|]. split; [exact Hx'|].
  split.
  { exact (proj1 (line_after_init_is_consumed init_q3dm6 foo_at_start
                    bar_match Hi)
                 7%nat rule_line Server_init [] 1 Hx Hx'). }
  split; [by vm_compute|]. split; [by vm_compute|].
  split; [exact Ho|]. split; [exact Hc|].
  split; [|by vm_compute].
  exact (proj2 (line_after_init_is_consumed init_q3dm6 foo_kills_bar
                  second_match Hi)
               (drop 2 unfinished_match) (Game_init 1) Server_init false
               Ho Hc).
Defined.

(** The second init line is met inside the first match, where it is no
    match start: the kill line after it is dispatched and counted. *)
Lemma line_after_init_inside_match_is_dispatched :
  frags_of (mainProcessing
              (unfinished_match ++ init_q3dm6 ::
               ln "  0:25 Kill: 0 1 6: Foo killed Bar by MOD_ROCKET" ::
               second_match)) = Some 1 /\
  frags_of (mainProcessing
              (unfinished_match ++ init_q3dm6 :: rule_line :: second_match))
  = Some 0 /\
  ~ line_after_any_init_is_ignored.
Proof.
  split; [by vm_compute|]. split; [by vm_compute|].
  intros H.
  specialize (H unfinished_match init_q3dm6
                (ln "  0:25 Kill: 0 1 6: Foo killed Bar by MOD_ROCKET")
                rule_line second_match eq_refl eq_refl eq_refl).
  apply (f_equal frags_of) in H. vm_compute in H. discriminate.
Qed.

(** ** Fuel *)

Lemma oneGameLoop_leftover lines game server valid_game game' server' v' rest :
  oneGameLoop lines game server valid_game = Ok (game', server', v', rest) ->
  (length rest <= length lines)%nat.
Proof.
  revert game server valid_game.
  induction lines as [|line lines IH]; intros game server valid_game H.
  - simpl in H. injection H as <- <- <- <-. done.
  - simpl in H. simpl length.
    destruct (classify line);
      try (apply IH in H; lia);
      try (destruct (lineProcKills line game server); apply IH in H; lia);
      try (inv_bind H; apply IH in H; lia).
    + inv_bind H. inv_bind H. apply IH in H. lia.
    + injection H as <- <- <- <-. lia.
Qed.

(** Fuel beyond the number of lines does not change the result of the main
    loop: [mainProcessing] gives it the fuel it needs. *)
Lemma mainLoop_fuel fuel fuel' lines server cgames N :
  (length lines < fuel)%nat ->
  (length lines < fuel')%nat ->
  mainLoop fuel lines server cgames N = mainLoop fuel' lines server cgames N.
Proof.
  revert fuel' lines server cgames N.
  induction fuel as [|fuel IH]; intros fuel' lines server cgames N H1 H2;
    [lia|].
  destruct fuel' as [|fuel']; [lia|].
  destruct lines as [|line lines]; [reflexivity|].
  simpl in *.
  destruct (has line " InitGame: "); [|apply IH; lia].
  destruct lines as [|peeked lines]; [reflexivity|].
  simpl in *.
  destruct (Str.find peeked " Warmup:" =? -1); [|apply IH; lia].
  destruct (lineProcInit line (Game_init N) server) as [[game server']|e];
    [|reflexivity].
  simpl.
  destruct (oneGameProc lines game server') as [[[[g s] v] rest]|e] eqn:E;
    [|reflexivity].
  simpl. apply oneGameLoop_leftover in E.
  destruct v; [|apply IH; lia].
  case_bool_decide; [apply IH; lia|].
  destruct (pymin (values (ptime g))); [|reflexivity].
  simpl. apply IH; lia.
Qed.

(** ** Sorting *)

Lemma mapM_result_Ok {A B} (f : A -> result B) (l : list A) (k : list B) :
  mapM f l = Ok k -> Forall2 (fun a b => f a = Ok b) l k.
Proof.
  revert k. induction l as [|a l IH]; intros k H; simpl in H.
  - injection H as <-. constructor.
  - inv_bind H. inv_bind H. injection H as <-.
    constructor; [done | by apply IH].
Qed.

Lemma mapM_result_raise {A B} (f : A -> result B) (l : list A) (e : exn) (a : A) :
  a ∈ l ->
  f a = Raise e ->
  (forall x, x ∈ l -> is_ok (f x) = true \/ f x = Raise e) ->
  mapM f l = Raise e.
Proof.
  induction l as [|x l IH]; intros Hin Ha Hall; [by inversion Hin|].
  simpl.
  destruct (Hall x ltac:(left)) as [Hx|Hx].
  - destruct (f x) as [b|] eqn:E; [|done]. simpl.
    apply elem_of_cons in Hin. destruct Hin as [-> | Hin]; [congruence|].
    rewrite IH; [done..|]. intros y Hy. apply Hall. by right.
  - by rewrite Hx.
Qed.

Lemma insert_sorted_perm reverse x l :
  insert_sorted reverse x l ≡ₚ x :: l.
Proof.
  induction l as [|y l IH]; simpl; [done|].
  destruct (if reverse then key_ltb x.1 y.1 else key_ltb y.1 x.1); [|done].
  rewrite IH. apply Permutation_swap.
Qed.

Lemma sort_keyed_perm reverse l :
  foldr (insert_sorted reverse) [] l ≡ₚ l.
Proof.
  induction l as [|x l IH]; simpl; [done|].
  by rewrite insert_sorted_perm, IH.
Qed.

(** A sort that returns gives back the entries it was given. *)
Lemma sorted_by_perm key reverse R l :
  sorted_by key reverse R = Ok l -> l ≡ₚ R.
Proof.
  unfold sorted_by. intros H. inv_bind H. injection H as <-.
  rewrite sort_keyed_perm.
  apply mapM_result_Ok in Ha.
  clear -Ha. induction Ha as [|p kp R keyed Hp _ IH]; simpl; [done|].
  destruct (key p) as [k|]; simpl in Hp; [|done].
  injection Hp as <-. simpl. by rewrite IH.
Qed.

(** ** C3: the result count of the ranker *)

Lemma results_ordered_Some R sort_option maxnumber l :
  results_ordered R sort_option maxnumber = Ok (Some l) ->
  exists full,
    full ≡ₚ R /\
    l = take_first (Z.min maxnumber (Z.of_nat (length R))) full.
Proof.
  unfold results_ordered. intros H.
  assert (forall key reverse n,
            (Rordered ← sorted_by key reverse R;
             Ok (Some (take_first n Rordered))) = Ok (Some l) ->
            exists full, full ≡ₚ R /\ l = take_first n full) as Hsort.
  { intros key reverse n Hs. inv_bind Hs. injection Hs as <-.
    exists a. split; [by eapply sorted_by_perm | done]. }
  destruct (Z.of_nat (length R) <? maxnumber) eqn:Hlt.
  - apply Z.ltb_lt in Hlt.
    rewrite Z.min_r by lia.
    repeat (destruct (String.eqb sort_option _); [by eapply Hsort|]).
    inv_bind H. destruct (player_field sort_option a); [|done].
    by eapply Hsort.
  - apply Z.ltb_ge in Hlt.
    destruct (maxnumber <=? 0); [done|].
    rewrite Z.min_l by lia.
    repeat (destruct (String.eqb sort_option _); [by eapply Hsort|]).
    inv_bind H. destruct (player_field sort_option a); [|done].
    by eapply Hsort.
Qed.

Example unscathed_log_career :
  (mainProcessing unscathed_log ≫= fun r => player_stats_total r.2)
  = Ok [foo_career].
Proof. by vm_compute. Qed.

Lemma take_first_twice (n m : Z) (l : list Player) :
  take_first n (take_first m l) = take_first (Z.min n m) l.
Proof.
  unfold take_first. rewrite take_take. f_equal. lia.
Qed.

(** With a positive count on a non-empty set, the step gives the first
    entries of what it gives when the count is the size of the set. *)
Lemma results_ordered_prefix R sort_option maxnumber :
  0 < maxnumber -> R <> [] ->
  results_ordered R sort_option maxnumber
  = option_map (take_first maxnumber)
      <$> results_ordered R sort_option (Z.of_nat (length R)).
Proof.
  intros Hpos Hne.
  assert (0 < Z.of_nat (length R)) as Hsize
    by (destruct R; [done | simpl; lia]).
  set (size := Z.of_nat (length R)) in *.
  assert (forall key reverse m,
            m = Z.min maxnumber size ->
            (Rordered ← sorted_by key reverse R;
             Ok (Some (take_first m Rordered)))
            = option_map (take_first maxnumber)
                <$> (Rordered ← sorted_by key reverse R;
                     Ok (Some (take_first size Rordered)))) as Hsort.
  { intros key reverse m ->. destruct (sorted_by key reverse R); [|done].
    simpl. by rewrite take_first_twice. }
  unfold results_ordered. fold size.
  destruct (Z.ltb_spec size size); [lia|].
  destruct (Z.leb_spec size 0); [lia|].
  assert (exists m, (if size <? maxnumber then Some size
                     else if maxnumber <=? 0 then None else Some maxnumber)
                    = Some m /\ m = Z.min maxnumber size) as (m & -> & Hm).
  { destruct (Z.ltb_spec size maxnumber); [exists size; split; [done | lia]|].
    destruct (Z.leb_spec maxnumber 0); [lia|].
    exists maxnumber. split; [done | lia]. }
  repeat (destruct (String.eqb sort_option _); [by apply Hsort|]).
  destruct (R !! 0%nat) as [first|]; [|done]. cbn [of_option mbind result_bind].
  destruct (player_field sort_option first); [by apply Hsort | done].
Qed.

Lemma results_ordered_complete R sort_option full :
  results_ordered R sort_option (Z.of_nat (length R)) = Ok (Some full) ->
  full ≡ₚ R.
Proof.
  intros H. apply results_ordered_Some in H as (l & Hperm & ->).
  rewrite Z.min_id. unfold take_first. rewrite Nat2Z.id.
  rewrite <- (Permutation_length Hperm), firstn_all. exact Hperm.
Qed.

(** C3, as the code has it.  A result count of zero or less makes the
    ranking step return nothing.  A count above the size of a non-empty set
    is lowered to that size, and the step then goes on as with the size
    itself.  With a positive count on a non-empty set the step gives the
    first entries, as many as the count says, of what it gives when the
    count is the size: the same list cut short, and the same failure or
    the same nothing where that is what the size gives.  What the size
    gives, when it is a list, is a rearrangement of the whole set.  A list
    returned has [min(N, size)] entries. *)
Theorem results_ordered_count (R : list Player) (sort_option : string)
        (maxnumber : Z) :
  (maxnumber <= 0 -> results_ordered R sort_option maxnumber = Ok None) /\
  (Z.of_nat (length R) < maxnumber -> R <> [] ->
   results_ordered R sort_option maxnumber
   = results_ordered R sort_option (Z.of_nat (length R))) /\
  (0 < maxnumber -> R <> [] ->
   results_ordered R sort_option maxnumber
   = option_map (take_first maxnumber)
       <$> results_ordered R sort_option (Z.of_nat (length R))) /\
  (forall full,
     results_ordered R sort_option (Z.of_nat (length R)) = Ok (Some full) ->
     full ≡ₚ R) /\
  (forall l,
     results_ordered R sort_option maxnumber = Ok (Some l) ->
     Z.of_nat (length l) = Z.min maxnumber (Z.of_nat (length R))).
Proof.
  split; [|split; [|split; [|split]]].
  - intros Hn. unfold results_ordered.
    destruct (Z.ltb_spec (Z.of_nat (length R)) maxnumber); [lia|].
    destruct (Z.leb_spec maxnumber 0); [done | lia].
  - intros Hlt Hne. unfold results_ordered.
    assert (0 < Z.of_nat (length R)) by (destruct R; [done | simpl; lia]).
    destruct (Z.ltb_spec (Z.of_nat (length R)) maxnumber); [|lia].
    destruct (Z.ltb_spec (Z.of_nat (length R)) (Z.of_nat (length R))); [lia|].
    destruct (Z.leb_spec (Z.of_nat (length R)) 0); [lia | done].
  - apply results_ordered_prefix.
  - apply results_ordered_complete.
  - intros l H.
    assert (0 < maxnumber) as Hpos.
    { destruct (Z.le_gt_cases maxnumber 0) as [Hle|]; [|done].
      unfold results_ordered in H.
      destruct (Z.ltb_spec (Z.of_nat (length R)) maxnumber); [lia|].
      destruct (Z.leb_spec maxnumber 0); [done | lia]. }
    destruct (results_ordered_Some _ _ _ _ H) as (full & Hperm & ->).
    unfold take_first. rewrite length_take, (Permutation_length Hperm). lia.
Qed.

Lemma results_ordered_count_witness :
  let R := [unnamed_career; foo_career] in
  Z.of_nat (length R) < MAXPLAYERS /\
  0 < 1 /\
  R <> [] /\
  results_ordered R SORT_OPTION MAXPLAYERS
  = results_ordered R SORT_OPTION (Z.of_nat (length R)) /\
  results_ordered R SORT_OPTION (Z.of_nat (length R))
  = Ok (Some [foo_career; unnamed_career]) /\
  results_ordered R SORT_OPTION 1
  = option_map (take_first 1)
      <$> results_ordered R SORT_OPTION (Z.of_nat (length R)) /\
  results_ordered R SORT_OPTION 1 = Ok (Some [foo_career]).
Proof.
  intros R.
  assert (Z.of_nat (length R) < MAXPLAYERS) as Hlt by (by vm_compute).
  assert (0 < 1) as Hpos by lia.
  assert (R <> []) as Hne by discriminate.
  split; [exact Hlt|]. split; [exact Hpos|]. split; [exact Hne|].
  split.
  { exact (proj1 (proj2 (results_ordered_count R SORT_OPTION MAXPLAYERS))
                 Hlt Hne). }
  split; [by vm_compute|].
  split; [|by vm_compute].
  exact (proj1 (proj2 (proj2 (results_ordered_count R SORT_OPTION 1)))
               Hpos Hne).
Defined.

(** With the configured maximum of 150 players and a set of one, the step
    returns the one entry. *)
Lemma count_above_size_is_served :
  results_ordered [foo_career] "frags" 150 = Ok (Some [foo_career]) /\
  ~ count_out_of_range_fails.
Proof.
  assert (results_ordered [foo_career] "frags" 150 = Ok (Some [foo_career]))
    as H by (by vm_compute).
  split; [exact H|].
  intros Hc. apply (Hc [foo_career] "frags" 150); [right; simpl; lia|].
  by exists [foo_career].
Qed.

(** ** C7: ratios with a zero denominator *)

(** The ratio of frags to one more than the deaths, as the ratio table has
    it, is defined for every count of deaths that is not negative. *)
Lemma guarded_ratio_total (c frags deaths : Z) :
  0 <= deaths -> is_ok (scaled c frags (1 + deaths)) = true.
Proof.
  intros H. unfold scaled, truediv.
  destruct (Z.eqb_spec (1 + deaths) 0); [lia | done].
Qed.

(** Sorting by the ratio of frags to deaths raises as soon as one entry has
    no deaths. *)
Lemma sorted_by_ratio_zero_deaths reverse R p :
  p ∈ R -> p_deaths p = 0 ->
  sorted_by (fun p => ratio (p_frags p) (p_deaths p)) reverse R
  = Raise ZeroDivisionError.
Proof.
  intros Hin Hz. unfold sorted_by.
  rewrite (mapM_result_raise _ R ZeroDivisionError p); [done | done | |].
  - unfold ratio, truediv. by rewrite Hz.
  - intros x _. unfold ratio, truediv.
    destruct (p_deaths x =? 0); [by right | by left].
Qed.

Lemma results_ordered_zero_deaths R maxnumber p :
  0 < maxnumber -> p ∈ R -> p_deaths p = 0 ->
  results_ordered R "frag_death_ratio" maxnumber = Raise ZeroDivisionError /\
  results_ordered R "name" maxnumber = Raise ZeroDivisionError.
Proof.
  intros Hpos Hin Hz. unfold results_ordered.
  assert ((if Z.of_nat (length R) <? maxnumber then Some (Z.of_nat (length R))
           else if maxnumber <=? 0 then None else Some maxnumber)
          = Some (Z.min maxnumber (Z.of_nat (length R)))) as ->.
  { destruct (Z.ltb_spec (Z.of_nat (length R)) maxnumber).
    - by rewrite Z.min_r by lia.
    - destruct (Z.leb_spec maxnumber 0); [lia|]. by rewrite Z.min_l by lia. }
  cbn [String.eqb Ascii.eqb Bool.eqb].
  by rewrite !(sorted_by_ratio_zero_deaths _ R p).
Qed.

(** C7.  Foo has a frag and no death.  Ranking by the frag/death ratio, or
    by the name key that uses the same ratio, divides by Foo's zero deaths
    and raises; the ratio table, which divides by one more than the
    deaths, is computed. *)
Theorem ratio_sort_faults_on_zero_deaths :
  p_frags foo_career = 1 /\ p_deaths foo_career = 0 /\
  results_ordered [foo_career] "frag_death_ratio" 150
  = Raise ZeroDivisionError /\
  results_ordered [foo_career] "name" 150 = Raise ZeroDivisionError /\
  is_ok (make_stats_table [foo_career]) = true.
Proof. repeat split; by vm_compute. Qed.

(** ** The aggregator, loop by loop *)

Lemma games_at_seq_from (pre cgames : list Game) :
  games_at (pre ++ cgames) (seq (length pre) (length cgames)) = cgames.
Proof.
  revert pre. induction cgames as [|g cgames IH]; intros pre; [done|].
  simpl. unfold games_at in *. simpl.
  rewrite lookup_app_r by lia. rewrite Nat.sub_diag. simpl. f_equal.
  specialize (IH (pre ++ [g])).
  rewrite <- app_assoc in IH. simpl in IH.
  rewrite length_app in IH. simpl in IH.
  by rewrite Nat.add_1_r in IH.
Qed.

Lemma games_at_seq (cgames : list Game) :
  games_at cgames (seq 0 (length cgames)) = cgames.
Proof. apply (games_at_seq_from [] cgames). Qed.

Lemma add_game_fields gs t t' :
  add_game gs t = Ok t' ->
  t_ctf_events t' = t_ctf_events t ++ [gs_ctf_events gs] /\
  t_weapon_count t' = t_weapon_count t ++ [gs_weapon_count gs] /\
  t_frags t' = t_frags t + gs_frags gs.
Proof.
  unfold add_game. intros H. repeat inv_bind H. by injection H as <-.
Qed.

Lemma fold_games_stats cgames name idx t t' :
  fold_games cgames name idx t = Ok t' ->
  exists stats,
    stats_of cgames name (filter (fun g => name ∈ validp g)
                                 (games_at cgames idx)) stats /\
    t_ctf_events t' = t_ctf_events t ++ map gs_ctf_events stats /\
    t_weapon_count t' = t_weapon_count t ++ map gs_weapon_count stats /\
    t_frags t' = t_frags t + zsum (map gs_frags stats).
Proof.
  revert t. induction idx as [|i idx IH]; intros t H; simpl in H.
  - injection H as <-. exists []. simpl.
    rewrite !app_nil_r. repeat split; [constructor | lia].
  - inv_bind H. apply of_option_Ok in Ha. rename a into game.
    unfold games_at. simpl. rewrite Ha. simpl.
    fold (games_at cgames idx).
    case_bool_decide as Hv; simpl in H.
    + inv_bind H. destruct a as [gs|]; [|done].
      inv_bind H. apply add_game_fields in Ha1 as (Hc & Hw & Hf).
      destruct (IH _ H) as (stats & Hs & Hc' & Hw' & Hf').
      exists (gs :: stats). rewrite filter_cons_True by done.
      split; [constructor; eauto|]. simpl.
      rewrite Hc', Hw', Hf', Hc, Hw, Hf, <- !app_assoc. simpl.
      repeat split. lia.
    + destruct (IH _ H) as (stats & Hs & Hrest).
      exists stats. by rewrite filter_cons_False by done.
Qed.

Lemma fold_names_elem cgames names acc R p :
  fold_names cgames names acc = Ok R ->
  p ∈ R ->
  p ∈ acc \/
  exists name t,
    name ∈ names /\
    fold_games cgames name (seq 0 (length cgames)) Totals_init = Ok t /\
    t_frags t <> 0 /\
    one_player name t = Ok p.
Proof.
  revert acc. induction names as [|name names IH]; intros acc H Hp;
    simpl in H.
  - injection H as <-. by left.
  - inv_bind H. rename a into t.
    destruct (Z.eqb_spec (t_frags t) 0) as [Hz|Hz].
    + destruct (IH _ H Hp) as [?|(n & t0 & Hn & ?)]; [by left|].
      right. exists n, t0. split; [by right | done].
    + inv_bind H. rename a into q.
      destruct (IH _ H Hp) as [Hin|(n & t0 & Hn & ?)].
      * apply elem_of_app in Hin as [?|Hin]; [by left|].
        apply list_elem_of_singleton in Hin as ->.
        right. exists name, t. split; [left | done].
      * right. exists n, t0. split; [by right | done].
Qed.

(** Every entry of the aggregated list comes from the games in which its
    player is valid. *)
Lemma player_stats_total_elem cgames R p :
  player_stats_total cgames = Ok R ->
  p ∈ R ->
  exists stats,
    stats_of cgames (p_name p) (valid_games cgames (p_name p)) stats /\
    csum (map gs_ctf_events stats) = Ok (p_ctf p) /\
    csum (map gs_weapon_count stats) = Ok (p_weapons p) /\
    p_frags p = zsum (map gs_frags stats) /\
    p_frags p <> 0.
Proof.
  unfold player_stats_total. intros H Hp.
  destruct (fold_names_elem _ _ _ _ _ H Hp) as [Hin|(name & t & _ & Hf & Hz & Ho)];
    [by inversion Hin|].
  apply fold_games_stats in Hf as (stats & Hs & Hc & Hw & Hfr).
  rewrite games_at_seq in Hs. simpl in Hc, Hw, Hfr.
  unfold one_player in Ho. repeat inv_bind Ho. injection Ho as <-. simpl.
  exists stats. unfold valid_games.
  rewrite Hc, Hw in *. simpl in *.
  repeat split; done.
Qed.

(** ** Column sums *)

Lemma mapM_result_map {A B} (f : A -> result B) (g : A -> B) (l : list A) :
  (forall x, x ∈ l -> f x = Ok (g x)) -> mapM f l = Ok (map g l).
Proof.
  induction l as [|x l IH]; intros H; simpl; [done|].
  rewrite (H x) by left. simpl.
  rewrite IH; [done|]. intros y Hy. apply H. by right.
Qed.

(** On a table with rows of one length, [csum] is the list of the sums of
    its columns. *)
Lemma csum_columns (n : nat) (A : list (list Z)) :
  A <> [] ->
  Forall (fun row => length row = n) A ->
  csum A = Ok (map (fun i => zsum (column i A)) (seq 0 n)).
Proof.
  intros Hne Hall. destruct A as [|first A']; [done|].
  unfold csum.
  assert (length first = n) as -> by (by inversion Hall).
  apply mapM_result_map. intros i Hi.
  apply elem_of_seq in Hi.
  rewrite (mapM_result_map _ (fun row => default 0 (row !! i))); [done|].
  intros row Hrow.
  rewrite Forall_forall in Hall. specialize (Hall row Hrow).
  destruct (lookup_lt_is_Some_2 row i ltac:(lia)) as [z ->]. done.
Qed.

Lemma csum_nonempty A S : csum A = Ok S -> A <> [].
Proof. by destruct A. Qed.

(** ** C9: the CTF vector of a career *)

(** What [player_stats] returns for a valid player, read off the game. *)
Lemma player_stats_inv cgames i name gs :
  player_stats cgames i name = Ok (Some gs) ->
  exists g w gty,
    cgames !! i = Some g /\
    name ∈ validp g /\
    weapons g !! name = Some w /\
    gametype g = Some gty /\
    gs_frags gs = zsum (values w) /\
    mapM (fun wn => of_option KeyError (w !! Str.slice wn 0 3)) wlist
    = Ok (gs_weapon_count gs) /\
    (if String.eqb gty "4" then
       c ← of_option KeyError (ctf g !! name);
       flags_taken ← of_option KeyError (c !! "0");
       flags_retrd ← of_option KeyError (c !! "2");
       flag_fraggd ← of_option KeyError (c !! "3");
       Ok [flags_taken; flags_retrd; flag_fraggd]
     else Ok [0; 0; 0]) = Ok (gs_ctf_events gs).
Proof.
  unfold player_stats. intros H.
  apply bind_Ok in H; destruct H as (g & Hg & H). apply of_option_Ok in Hg.
  destruct (bool_decide_reflect (name ∈ validp g)) as [Hv|Hv];
    cbn [negb] in H; [|done].
  cbv zeta in H.
  apply bind_Ok in H; destruct H as (joined & _ & H).
  apply bind_Ok in H; destruct H as (entry & _ & H).
  apply bind_Ok in H; destruct H as (hand & _ & H).
  apply bind_Ok in H; destruct H as (gty & Hgt & H). apply of_option_Ok in Hgt.
  apply bind_Ok in H; destruct H as (win & _ & H).
  apply bind_Ok in H; destruct H as (aw & _ & H).
  apply bind_Ok in H; destruct H as (world & _ & H).
  apply bind_Ok in H; destruct H as (deaths & _ & H).
  apply bind_Ok in H; destruct H as (own & _ & H).
  apply bind_Ok in H; destruct H as (w & Hw & H). apply of_option_Ok in Hw.
  apply bind_Ok in H; destruct H as (weapon_count & Hwc & H).
  apply bind_Ok in H; destruct H as (ctf_events & Hctf & H).
  injection H as <-. cbn [gs_frags gs_weapon_count gs_ctf_events].
  exists g, w, gty. done.
Qed.

Lemma player_stats_ctf cgames i name g gs :
  cgames !! i = Some g ->
  player_stats cgames i name = Ok (Some gs) ->
  gs_ctf_events gs = ctf_row name g.
Proof.
  intros Hg H.
  apply player_stats_inv in H as (g' & w & gty & Hg' & _ & _ & Hgt & _ & _ & H).
  assert (g' = g) as -> by congruence.
  unfold ctf_row, ctf_contrib, ctf_counter. rewrite Hgt.
  destruct (String.eqb_spec gty "4") as [Heq | Hne].
  - subst gty. rewrite !decide_True by done.
    apply bind_Ok in H; destruct H as (c & Hc & H). apply of_option_Ok in Hc.
    apply bind_Ok in H; destruct H as (c0 & Hc0 & H). apply of_option_Ok in Hc0.
    apply bind_Ok in H; destruct H as (c2 & Hc2 & H). apply of_option_Ok in Hc2.
    apply bind_Ok in H; destruct H as (c3 & Hc3 & H). apply of_option_Ok in Hc3.
    injection H as <-. rewrite Hc. simpl. rewrite Hc0, Hc2, Hc3. reflexivity.
  - rewrite !decide_False by congruence. congruence.
Qed.

Lemma stats_of_ctf cgames name games stats :
  stats_of cgames name games stats ->
  map gs_ctf_events stats = map (ctf_row name) games.
Proof.
  induction 1 as [|g gs games stats (i & Hg & Hs) _ IH]; simpl; [done|].
  by rewrite IH, (player_stats_ctf _ _ _ _ _ Hg Hs).
Qed.

(** C9, as the code has it.  The CTF vector of a career has three
    components, for the event codes 0, 2 and 3: each is the sum of the
    player's counter for that code over the games of type 4 in which the
    player is valid.  Code 1 has no component.  The row of the CTF table
    is these three numbers followed by the defence, assist and capture
    awards. *)
Theorem career_ctf_vector (cgames : list Game) (R : list Player) (p : Player) :
  player_stats_total cgames = Ok R ->
  p ∈ R ->
  p_ctf p = [ctf_total cgames (p_name p) "0";
             ctf_total cgames (p_name p) "2";
             ctf_total cgames (p_name p) "3"] /\
  (p_name p,
   [ctf_total cgames (p_name p) "0"; ctf_total cgames (p_name p) "2";
    ctf_total cgames (p_name p) "3";
    p_defence p; p_assist p; p_capture p]) ∈ make_ctf_table R.
Proof.
  intros H Hp.
  destruct (player_stats_total_elem _ _ _ H Hp)
    as (stats & Hs & Hc & _ & _ & _).
  assert (p_ctf p = [ctf_total cgames (p_name p) "0";
                     ctf_total cgames (p_name p) "2";
                     ctf_total cgames (p_name p) "3"]) as Hv.
  { rewrite (stats_of_ctf _ _ _ _ Hs) in Hc.
    pose proof (csum_nonempty _ _ Hc) as Hne.
    rewrite (csum_columns 3) in Hc.
    - injection Hc as <-. unfold ctf_total, column.
      simpl. rewrite !map_map. done.
    - done.
    - apply Forall_forall. intros row Hrow.
      apply list_elem_of_fmap in Hrow as (g & -> & _). done. }
  split; [exact Hv|].
  unfold make_ctf_table. apply list_elem_of_fmap. exists p.
  split; [|done]. by rewrite Hv.
Qed.

Example ctf_log_career :
  length (games_of ctf_log) = 1%nat /\
  player_stats_total (games_of ctf_log) = Ok [foo_ctf_career].
Proof. split; by vm_compute. Qed.

Lemma career_ctf_vector_witness :
  player_stats_total (games_of ctf_log) = Ok [foo_ctf_career] /\
  foo_ctf_career ∈ [foo_ctf_career] /\
  p_ctf foo_ctf_career
  = [ctf_total (games_of ctf_log) "Foo" "0";
     ctf_total (games_of ctf_log) "Foo" "2";
     ctf_total (games_of ctf_log) "Foo" "3"].
Proof.
  assert (player_stats_total (games_of ctf_log) = Ok [foo_ctf_career]) as H
    by (by vm_compute).
  assert (foo_ctf_career ∈ [foo_ctf_career]) as Hin by left.
  split; [exact H|]. split; [exact Hin|].
  exact (proj1 (career_ctf_vector (games_of ctf_log) [foo_ctf_career]
                                  foo_ctf_career H Hin)).
Defined.

(** Foo's capture, event code 1, is counted in the game and is no part of
    the career vector, which has three components. *)
Lemma capture_counter_is_not_in_career :
  map (fun code =>
         zsum (map (fun g => ctf_counter g "Foo" code)
                   (valid_games (games_of ctf_log) "Foo")))
      ["0"; "1"; "2"; "3"] = [1; 1; 0; 0] /\
  (map p_ctf <$> player_stats_total (games_of ctf_log)) = Ok [[1; 0; 0]] /\
  make_ctf_table [foo_ctf_career] = [("Foo", [1; 0; 0; 0; 0; 1])] /\
  ~ career_has_four_ctf_counters.
Proof.
  assert (map (fun code =>
                 zsum (map (fun g => ctf_counter g "Foo" code)
                           (valid_games (games_of ctf_log) "Foo")))
              ["0"; "1"; "2"; "3"] = [1; 1; 0; 0]) as Hc by (by vm_compute).
  split; [exact Hc|]. split; [by vm_compute|]. split; [by vm_compute|].
  intros H.
  specialize (H (games_of ctf_log) [foo_ctf_career] foo_ctf_career).
  simpl p_name in H. rewrite Hc in H.
  discriminate H; [by vm_compute | left].
Qed.

(** ** C1: the weapon vector of a career *)

Lemma zsum_perm (l k : list Z) : l ≡ₚ k -> zsum l = zsum k.
Proof. induction 1; simpl; lia. Qed.

Lemma zsum_app (l k : list Z) : zsum (l ++ k) = zsum l + zsum k.
Proof. induction l; simpl; lia. Qed.

Lemma zsum_map_add {A} (f g : A -> Z) (l : list A) :
  zsum (map (fun x => f x + g x) l) = zsum (map f l) + zsum (map g l).
Proof. induction l; simpl; lia. Qed.

Lemma zsum_map_zero {A} (l : list A) : zsum (map (fun _ => 0) l) = 0.
Proof. induction l; simpl; lia. Qed.

Lemma lookup_seq_all (row : list Z) :
  map (fun i => default 0 (row !! i)) (seq 0 (length row)) = row.
Proof.
  induction row as [|z row IH]; [done|].
  simpl. f_equal.
  rewrite <- fmap_S_seq.
  change (map ?f (?g <$> ?l)) with (f <$> (g <$> l)).
  rewrite <- list_fmap_compose. exact IH.
Qed.

(** Summing a table by columns or by rows gives the same total. *)
Lemma zsum_columns (n : nat) (A : list (list Z)) :
  Forall (fun row => length row = n) A ->
  zsum (map (fun i => zsum (column i A)) (seq 0 n)) = zsum (map zsum A).
Proof.
  induction 1 as [|row A Hrow _ IH]; simpl.
  - apply zsum_map_zero.
  - rewrite (zsum_map_add (fun i => default 0 (row !! i))
                          (fun i => zsum (column i A))).
    rewrite IH. subst n. by rewrite lookup_seq_all.
Qed.

Lemma csum_total (n : nat) (A : list (list Z)) (S : list Z) :
  Forall (fun row => length row = n) A ->
  csum A = Ok S ->
  zsum S = zsum (map zsum A).
Proof.
  intros Hall H. pose proof (csum_nonempty _ _ H) as Hne.
  rewrite (csum_columns n) in H by done. injection H as <-.
  by apply zsum_columns.
Qed.

(** The sum of the values of a dictionary, key by key. *)
Lemma zsum_values_keys (ks : list string) (w : gmap string Z) :
  NoDup ks ->
  dom w = list_to_set ks ->
  zsum (values w) = zsum (map (fun k => default 0 (w !! k)) ks).
Proof.
  intros Hnd. revert w. induction Hnd as [|k ks Hk Hnd IH]; intros w Hdom.
  - simpl in Hdom. apply dom_empty_inv_L in Hdom as ->.
    unfold values. by rewrite map_to_list_empty.
  - assert (dom w = {[k]} ∪ list_to_set ks) as Hdom2 by exact Hdom.
    assert (is_Some (w !! k)) as [v Hv].
    { apply elem_of_dom. rewrite Hdom2.
      apply elem_of_union_l. by apply elem_of_singleton. }
    assert (dom (delete k w) = list_to_set ks) as Hdom'.
    { rewrite dom_delete_L, Hdom2. apply set_eq. intros x.
      rewrite elem_of_difference, elem_of_union, elem_of_singleton,
        elem_of_list_to_set.
      split; [tauto|]. intros Hx. split; [by right|].
      intros ->. by apply Hk. }
    assert (zsum (values w) = v + zsum (values (delete k w))) as ->.
    { unfold values.
      by rewrite <- (zsum_perm _ _ (fmap_Permutation snd _ _
                                      (map_to_list_delete w k v Hv))). }
    rewrite (IH _ Hdom').
    change (zsum (map ?f (k :: ks))) with (f k + zsum (map f ks)).
    cbv beta. rewrite Hv. simpl default. f_equal. f_equal.
    apply map_ext_in. intros k' Hin.
    rewrite lookup_delete_ne; [done|].
    intros <-. apply Hk. by apply list_elem_of_In.
Qed.

Lemma wlist_codes :
  map (fun wn => Str.slice wn 0 3) wlist
  = ["SHO"; "GAU"; "MAC"; "GRE"; "GRE"; "ROC"; "ROC"; "PLA"; "PLA"; "RAI";
     "LIG"; "BFG"; "BFG"; "TEL"; "NAI"; "CHA"].
Proof. reflexivity. Qed.

Lemma weapon_codes_NoDup : NoDup weapon_codes.
Proof. apply (bool_decide_unpack _). by vm_compute. Qed.

Lemma player_stats_weapons cgames i name g gs :
  well_keyed g ->
  cgames !! i = Some g ->
  player_stats cgames i name = Ok (Some gs) ->
  length (gs_weapon_count gs) = 16%nat /\
  zsum (gs_weapon_count gs) = gs_frags gs + splash g name.
Proof.
  intros Hk Hg H.
  apply player_stats_inv in H
    as (g' & w & gty & Hg' & _ & Hw & _ & Hf & Hwc & _).
  assert (g' = g) as -> by congruence.
  rewrite Hf, (zsum_values_keys weapon_codes)
    by eauto using weapon_codes_NoDup.
  unfold splash. rewrite Hw.
  apply mapM_result_Ok in Hwc.
  assert (gs_weapon_count gs
          = map (fun k => default 0 (w !! k))
                (map (fun wn => Str.slice wn 0 3) wlist)) as ->.
  { rewrite map_map. clear -Hwc.
    induction Hwc as [|wn z l k Hz _ IH]; simpl; [done|].
    apply of_option_Ok in Hz. by rewrite Hz, IH. }
  rewrite wlist_codes. split; [done|].
  unfold weapon_codes. simpl. lia.
Qed.

Lemma stats_of_weapons cgames name games stats :
  Forall well_keyed games ->
  stats_of cgames name games stats ->
  Forall (fun row => length row = 16%nat) (map gs_weapon_count stats) /\
  zsum (map zsum (map gs_weapon_count stats))
  = zsum (map gs_frags stats) + zsum (map (fun g => splash g name) games).
Proof.
  intros Hk Hs. revert Hk.
  induction Hs as [|g gs games stats (i & Hg & Hst) _ IH]; intros Hk; simpl.
  - split; [constructor | done].
  - inversion Hk as [|? ? Hkg Hkr]; subst.
    destruct (IH Hkr) as [IH1 IH2].
    destruct (player_stats_weapons _ _ _ _ _ Hkg Hg Hst) as [Hl Hz].
    split; [by constructor | lia].
Qed.

(** The components of a career's weapon vector add up to the frags plus the
    frags made with a grenade, a rocket, the plasma gun or the BFG: the
    long and the splash entry of [wlist] both read the one counter that
    the three-letter code of a kill line has written to. *)
Lemma career_weapon_vector_sum (cgames : list Game) (R : list Player)
      (p : Player) :
  Forall well_keyed cgames ->
  player_stats_total cgames = Ok R ->
  p ∈ R ->
  zsum (p_weapons p)
  = p_frags p
    + zsum (map (fun g => splash g (p_name p))
                (valid_games cgames (p_name p))).
Proof.
  intros Hk H Hp.
  destruct (player_stats_total_elem _ _ _ H Hp)
    as (stats & Hs & _ & Hw & Hf & _).
  assert (Forall well_keyed (valid_games cgames (p_name p))) as Hk'.
  { unfold valid_games. rewrite Forall_forall in *.
    intros g Hin. apply list_elem_of_filter in Hin as [_ Hin]. by apply Hk. }
  destruct (stats_of_weapons _ _ _ _ Hk' Hs) as [Hlen Hsum].
  rewrite (csum_total 16 _ _ Hlen Hw), Hsum, Hf. done.
Qed.

(** *** The keys of the weapon dictionaries in a run *)

Lemma new_weapons_dom : dom new_weapons = list_to_set weapon_codes.
Proof.
  unfold new_weapons, weapon_codes. simpl.
  rewrite !dom_insert_L, dom_empty_L. done.
Qed.

Lemma well_keyed_init N : well_keyed (Game_init N).
Proof. intros name w H. simpl in H. by rewrite lookup_empty in H. Qed.

Lemma well_keyed_weapons g g' :
  weapons g' = weapons g -> well_keyed g -> well_keyed g'.
Proof. intros Hw Hk name w. rewrite Hw. apply Hk. Qed.

Lemma well_keyed_bump g killer code n w :
  well_keyed g ->
  weapons g !! killer = Some w ->
  w !! code = Some n ->
  well_keyed (set_weapons (<[killer := <[code := n + 1]> w]> (weapons g)) g).
Proof.
  intros Hk Hw Hn name w'. simpl.
  destruct (decide (killer = name)) as [<-|Hne].
  - rewrite lookup_insert_eq. intros [= <-].
    rewrite dom_insert_L, (Hk _ _ Hw).
    assert (code ∈ dom w) as Hin by (apply elem_of_dom; eauto).
    rewrite (Hk _ _ Hw) in Hin.
    apply set_eq. intros x. rewrite elem_of_union, elem_of_singleton.
    split; [intros [-> | ?]; done | by right].
  - rewrite lookup_insert_ne by done. apply Hk.
Qed.

Lemma lineProcKills_well_keyed line g server :
  well_keyed g -> well_keyed (lineProcKills line g server).1.
Proof.
  intros Hk. unfold lineProcKills.
  destruct (parse_kill line) as [[[killer killed] weapon]|]; [|done].
  assert (well_keyed (kill_branch killer killed weapon g).1) as Hb.
  { unfold kill_branch.
    destruct (String.eqb killer killed).
    - destruct (killsp g !! killer); [|done].
      by apply (well_keyed_weapons g).
    - destruct (negb (String.eqb killer "<world>")).
      + destruct (weapons g !! killer) as [w|] eqn:Hw; [|done].
        destruct (w !! Str.slice weapon 0 3) as [n|] eqn:Hn; [|done].
        by apply well_keyed_bump.
      + destruct (killsp g !! "<world>"); [|done].
        by apply (well_keyed_weapons g). }
  unfold kill_try.
  destruct (kill_branch killer killed weapon g) as [g1 [[]|e]];
    simpl in *; [|done].
  destruct (deathsp g1 !! killed); simpl; [|done].
  by apply (well_keyed_weapons g1).
Qed.

Lemma lineProcUserInfo_well_keyed line g g' :
  well_keyed g -> lineProcUserInfo line g = Ok g' -> well_keyed g'.
Proof.
  intros Hk H. unfold lineProcUserInfo in H.
  apply bind_Ok in H; destruct H as ([[[new_id new_name] hc] team] & _ & H).
  destruct (negb (in_values new_name (pid g))); [|by injection H as <-].
  apply bind_Ok in H; destruct H as (t & _ & H). injection H as <-.
  intros name w. simpl.
  destruct (decide (new_name = name)) as [<-|Hne].
  - rewrite lookup_insert_eq. intros [= <-]. apply new_weapons_dom.
  - rewrite lookup_insert_ne by done. apply Hk.
Qed.

Lemma lineProcCTF_weapons line g g' :
  lineProcCTF line g = Ok g' -> weapons g' = weapons g.
Proof.
  unfold lineProcCTF. intros H.
  apply bind_Ok in H; destruct H as (p_id & _ & H).
  apply bind_Ok in H; destruct H as (ev & _ & H).
  destruct (_ ≫= _) in H; by injection H as <-.
Qed.

Lemma lineProcAwards_weapons line g g' :
  lineProcAwards line g = Ok g' -> weapons g' = weapons g.
Proof.
  unfold lineProcAwards. intros H.
  apply bind_Ok in H; destruct H as (name & _ & H).
  destruct (bump _ _ _) in H; by injection H as <-.
Qed.

Lemma lineProcQuotes_weapons line g g' :
  lineProcQuotes line g = Ok g' -> weapons g' = weapons g.
Proof.
  unfold lineProcQuotes. intros H.
  apply bind_Ok in H; destruct H as (name & _ & H).
  apply bind_Ok in H; destruct H as (part & _ & H).
  by injection H as <-.
Qed.

Lemma lineProcScores_weapons line g g' :
  lineProcScores line g = Ok g' -> weapons g' = weapons g.
Proof.
  unfold lineProcScores. intros H.
  apply bind_Ok in H;
    destruct H as ([[[[tm score] ping] client] nick] & _ & H).
  apply bind_Ok in H; destruct H as (ok & _ & H).
  destruct ok; by injection H as <-.
Qed.

Lemma oneGameLoop_well_keyed lines g server v g' server' v' rest :
  well_keyed g ->
  oneGameLoop lines g server v = Ok (g', server', v', rest) ->
  well_keyed g'.
Proof.
  revert g server v.
  induction lines as [|line lines IH]; intros g server v Hk H; simpl in H.
  - by injection H as <- <- <- <-.
  - destruct (classify line).
    + by eapply IH.
    + pose proof (lineProcKills_well_keyed line g server Hk) as Hk'.
      destruct (lineProcKills line g server) as [g1 s1]. by eapply IH.
    + apply bind_Ok in H; destruct H as (g1 & Hg1 & H).
      eapply IH; [|exact H].
      eapply well_keyed_weapons; [by eapply lineProcCTF_weapons | done].
    + apply bind_Ok in H; destruct H as (g1 & Hg1 & H).
      eapply IH; [|exact H].
      eapply well_keyed_weapons; [by eapply lineProcAwards_weapons | done].
    + apply bind_Ok in H; destruct H as (g1 & Hg1 & H).
      eapply IH; [|exact H]. by eapply lineProcUserInfo_well_keyed.
    + apply bind_Ok in H; destruct H as (g1 & Hg1 & H).
      eapply IH; [|exact H].
      eapply well_keyed_weapons; [by eapply lineProcQuotes_weapons | done].
    + apply bind_Ok in H; destruct H as (g1 & Hg1 & H).
      eapply IH; [|exact H].
      eapply well_keyed_weapons; [by eapply lineProcScores_weapons | done].
    + apply bind_Ok in H; destruct H as (red & _ & H).
      apply bind_Ok in H; destruct H as (blue & _ & H).
      eapply IH; [|exact H]. by apply (well_keyed_weapons g).
    + apply bind_Ok in H; destruct H as (t & _ & H).
      eapply IH; [|exact H]. by apply (well_keyed_weapons g).
    + by injection H as <- <- <- <-.
    + by eapply IH.
Qed.

Lemma lineProcInit_well_keyed line g server g' server' :
  well_keyed g -> lineProcInit line g server = Ok (g', server') ->
  well_keyed g'.
Proof.
  intros Hk H. unfold lineProcInit in H.
  apply bind_Ok in H; destruct H as (mapname & _ & H).
  apply bind_Ok in H; destruct H as (hostname & _ & H).
  apply bind_Ok in H; destruct H as (gty & _ & H).
  injection H as <- <-. by apply (well_keyed_weapons g).
Qed.

Lemma mainLoop_well_keyed fuel lines server cgames N server' cgames' :
  Forall well_keyed cgames ->
  mainLoop fuel lines server cgames N = Ok (server', cgames') ->
  Forall well_keyed cgames'.
Proof.
  revert lines server cgames N.
  induction fuel as [|fuel IH]; intros lines server cgames N Hk H;
    simpl in H; [done|].
  destruct lines as [|line lines]; [by injection H as <- <-|].
  destruct (has line " InitGame: "); [|by eapply IH].
  destruct lines as [|peeked lines]; [done|].
  destruct (Str.find peeked " Warmup:" =? -1); [|by eapply IH].
  apply bind_Ok in H; destruct H as ([g s] & Hi & H).
  apply bind_Ok in H; destruct H as ([[[g1 s1] v] rest] & Hg & H).
  apply lineProcInit_well_keyed in Hi; [|apply well_keyed_init].
  apply oneGameLoop_well_keyed in Hg; [|done].
  destruct v; [|by eapply IH].
  case_bool_decide; [by eapply IH|].
  apply bind_Ok in H; destruct H as (first & _ & H).
  eapply IH; [|exact H]. apply Forall_app. split; [done|].
  by constructor.
Qed.

(** For the games of a log the sum holds as it stands. *)
Lemma weapon_vector_sum_of_a_log log server cgames R p :
  mainProcessing log = Ok (server, cgames) ->
  player_stats_total cgames = Ok R ->
  p ∈ R ->
  zsum (p_weapons p)
  = p_frags p
    + zsum (map (fun g => splash g (p_name p))
                (valid_games cgames (p_name p))).
Proof.
  intros Hm. apply career_weapon_vector_sum.
  eapply mainLoop_well_keyed; [|exact Hm]. constructor.
Qed.

(** C1.  In the log of one match Foo makes one frag, with the splash of a
    rocket.  The career has one frag, and a weapon vector whose components
    add up to two: the counter ROC is read for ROCKET and again for
    ROCKET_SPLASH. *)
Theorem weapon_vector_counts_splash_twice :
  (mainProcessing unscathed_log ≫= fun r => player_stats_total r.2)
  = Ok [foo_career] /\
  p_frags foo_career = 1 /\
  p_weapons foo_career = [0; 0; 0; 0; 0; 1; 1; 0; 0; 0; 0; 0; 0; 0; 0; 0] /\
  zsum (p_weapons foo_career) = 2.
Proof. repeat split; by vm_compute. Qed.

(** * Further properties of the code *)

(** ** The ban filter *)

Lemma index_of_Some x l i :
  index_of x l = Some i -> l !! i = Some x.
Proof.
  revert i. induction l as [|y l IH]; intros i H; simpl in H; [done|].
  destruct (String.eqb_spec y x) as [-> | Hne].
  - by injection H as <-.
  - destruct (index_of x l) as [j|]; [|done].
    injection H as <-. simpl. by apply IH.
Qed.

Lemma index_of_elem x l : x ∈ l -> is_Some (index_of x l).
Proof.
  induction l as [|y l IH]; intros H; [by inversion H|].
  simpl. destruct (String.eqb_spec y x) as [-> | Hne]; [eauto|].
  apply elem_of_cons in H as [-> | H]; [done|].
  destruct (IH H) as [j ->]. simpl. eauto.
Qed.

Lemma index_of_first x pre post :
  x ∉ pre -> index_of x (pre ++ x :: post) = Some (length pre).
Proof.
  induction pre as [|y pre IH]; intros H; simpl.
  - by rewrite String.eqb_refl.
  - apply not_elem_of_cons in H as [Hne H].
    destruct (String.eqb_spec y x) as [-> | _]; [done|].
    by rewrite IH.
Qed.

Lemma elem_of_ban_list_index i R_names BAN_LIST :
  i ∈ ban_list_index R_names BAN_LIST <->
  exists name, name ∈ BAN_LIST /\ index_of name R_names = Some i.
Proof.
  unfold ban_list_index. rewrite list_elem_of_In, in_flat_map. split.
  - intros (name & Hin & Hi). exists name. split; [by apply list_elem_of_In|].
    destruct (index_of name R_names) as [j|]; [|done].
    destruct Hi as [-> | []]. done.
  - intros (name & Hin & Hi). exists name. split; [by apply list_elem_of_In|].
    rewrite Hi. by left.
Qed.

Lemma ban_list_index_NoDup R_names BAN_LIST :
  NoDup BAN_LIST -> NoDup (ban_list_index R_names BAN_LIST).
Proof.
  induction 1 as [|name ban Hname Hnd IH]; simpl; [constructor|].
  destruct (index_of name R_names) as [i|] eqn:Hi; simpl; [|done].
  constructor; [|done].
  rewrite elem_of_ban_list_index. intros (name' & Hin & Hi').
  apply index_of_Some in Hi, Hi'.
  assert (name' = name) as -> by congruence. done.
Qed.

Lemma insert_desc_perm i l : insert_desc i l ≡ₚ i :: l.
Proof.
  induction l as [|j l IH]; simpl; [done|].
  destruct (i <? j)%nat; [|done]. rewrite IH. apply Permutation_swap.
Qed.

Lemma sorted_desc_perm l : sorted_desc l ≡ₚ l.
Proof.
  induction l as [|i l IH]; simpl; [done|].
  by rewrite insert_desc_perm, IH.
Qed.

Lemma insert_desc_sorted i l :
  StronglySorted (fun a b => (b <= a)%nat) l ->
  StronglySorted (fun a b => (b <= a)%nat) (insert_desc i l).
Proof.
  induction 1 as [|j l Hs IH Hall]; simpl.
  - repeat constructor.
  - destruct (Nat.ltb_spec i j).
    + constructor; [done|].
      rewrite insert_desc_perm. constructor; [lia | done].
    + constructor; [by constructor|].
      constructor; [done|].
      eapply Forall_impl; [exact Hall|]. simpl. intros; lia.
Qed.

Lemma sorted_desc_sorted l :
  StronglySorted (fun a b => (b <= a)%nat) (sorted_desc l).
Proof.
  induction l as [|i l IH]; simpl; [constructor|].
  by apply insert_desc_sorted.
Qed.

(** Without a repeated index the order is strict. *)
Lemma sorted_desc_strict l :
  NoDup l -> StronglySorted (fun a b => (b < a)%nat) (sorted_desc l).
Proof.
  intros Hnd.
  assert (NoDup (sorted_desc l)) as Hnd' by (by rewrite sorted_desc_perm).
  pose proof (sorted_desc_sorted l) as Hs.
  induction Hs as [|j k Hs IH Hall]; [constructor|].
  apply NoDup_cons in Hnd' as [Hj Hk].
  constructor; [by apply IH|].
  rewrite Forall_forall in *. intros x Hx.
  specialize (Hall x Hx).
  assert (x <> j) by (intros ->; done). lia.
Qed.

Lemma filter_all {A} (P : A -> Prop) `{!forall x, Decision (P x)} (l : list A) :
  Forall P l -> filter P l = l.
Proof.
  induction 1 as [|x l Hx _ IH]; [done|].
  by rewrite filter_cons_True, IH.
Qed.

Lemma filter_ext_elem {A} (P Q : A -> Prop)
      `{!forall x, Decision (P x), !forall x, Decision (Q x)} (l : list A) :
  (forall x, x ∈ l -> P x <-> Q x) -> filter P l = filter Q l.
Proof.
  induction l as [|x l IH]; intros Hpq; [done|].
  assert (filter P l = filter Q l) as IH'.
  { apply IH. intros y Hy. apply Hpq. by right. }
  assert (P x <-> Q x) as Hx by (apply Hpq; left).
  destruct (decide (P x)) as [Hp|Hp].
  - rewrite !filter_cons_True by tauto. by rewrite IH'.
  - rewrite !filter_cons_False by tauto. done.
Qed.

(** With distinct names, deleting an entry is filtering out its name. *)
Lemma delete_is_filter (R : list Player) (d : nat) (x : Player) :
  NoDup (map p_name R) ->
  R !! d = Some x ->
  delete d R = filter (fun p => p_name p <> p_name x) R.
Proof.
  revert d. induction R as [|y R IH]; intros d Hnd Hd; [done|].
  simpl in Hnd. apply NoDup_cons in Hnd as [Hy Hnd].
  destruct d as [|d]; simpl in Hd.
  - injection Hd as ->. simpl.
    rewrite filter_cons_False by (intros H; by apply H).
    symmetry. apply filter_all. apply Forall_forall. intros p Hp Heq.
    apply Hy. rewrite <- Heq. apply list_elem_of_fmap. eauto.
  - simpl. rewrite filter_cons_True.
    + f_equal. by apply IH.
    + intros Heq. apply Hy. rewrite Heq.
      apply list_elem_of_fmap. exists x. split; [done|].
      by eapply list_elem_of_lookup_2.
Qed.

(** Deleting at indexes in strictly descending order. *)
Lemma del_all_desc (R : list Player) (ds : list nat) :
  StronglySorted (fun a b => (b < a)%nat) ds ->
  Forall (fun d => (d < length R)%nat) ds ->
  NoDup (map p_name R) ->
  del_all ds R = Ok (filter (fun p => p_name p ∉ banned_at ds R) R).
Proof.
  intros Hs. revert R. induction Hs as [|d ds Hs IH Hlt]; intros R Hin Hnd.
  - simpl. symmetry. f_equal. apply filter_all.
    apply Forall_forall. intros p _ H. inversion H.
  - apply Forall_cons in Hin as [Hd Hin].
    destruct (lookup_lt_is_Some_2 R d Hd) as [x Hx].
    simpl. unfold del. destruct (Nat.ltb_spec d (length R)); [|lia]. simpl.
    assert (banned_at ds (delete d R) = banned_at ds R) as Hb.
    { unfold banned_at. clear -Hlt. induction Hlt as [|e ds He _ IH']; [done|].
      cbn [omap list_omap]. rewrite list_lookup_delete_lt by lia.
      by rewrite IH'. }
    rewrite IH.
    + rewrite Hb, (delete_is_filter R d x Hnd Hx), list_filter_filter.
      f_equal. apply list_filter_iff. intros p.
      unfold banned_at. simpl. rewrite Hx. simpl.
      rewrite not_elem_of_cons. tauto.
    + rewrite length_delete by eauto.
      rewrite Forall_forall in *. intros e He.
      specialize (Hlt e He). lia.
    + eapply sublist_NoDup; [exact Hnd|].
      apply (fmap_sublist p_name). apply sublist_delete.
Qed.

Lemma apply_ban_distinct (R : list Player) (BAN_LIST : list string) :
  NoDup (map p_name R) ->
  NoDup BAN_LIST ->
  apply_ban R BAN_LIST = Ok (filter (fun p => p_name p ∉ BAN_LIST) R).
Proof.
  intros HR Hban. unfold apply_ban.
  set (idx := ban_list_index (map p_name R) BAN_LIST).
  assert (forall i, i ∈ sorted_desc idx <-> i ∈ idx) as Hperm.
  { intros i. by rewrite sorted_desc_perm. }
  rewrite del_all_desc.
  - f_equal. apply filter_ext_elem. intros p Hp.
    assert (p_name p ∈ banned_at (sorted_desc idx) R <-> p_name p ∈ BAN_LIST)
      as Hiff; [|by rewrite Hiff].
    unfold banned_at. rewrite list_elem_of_omap. split.
    + intros (i & Hi & Hl). apply Hperm in Hi.
      apply elem_of_ban_list_index in Hi as (name & Hname & Hi).
      apply index_of_Some in Hi. rewrite list_lookup_fmap in Hi.
      destruct (R !! i) as [q|]; simpl in *; [|done].
      congruence.
    + intros Hname.
      destruct (index_of_elem (p_name p) (map p_name R)) as [i Hi].
      { apply list_elem_of_fmap. eauto. }
      exists i. split.
      * apply Hperm, elem_of_ban_list_index. eauto.
      * apply index_of_Some in Hi. by rewrite list_lookup_fmap in Hi.
  - apply sorted_desc_strict. by apply ban_list_index_NoDup.
  - apply Forall_forall. intros i Hi. apply Hperm in Hi.
    apply elem_of_ban_list_index in Hi as (name & _ & Hi).
    apply index_of_Some in Hi. apply lookup_lt_Some in Hi.
    by rewrite length_map in Hi.
  - done.
Qed.

(** X1.  On entries with distinct names and a ban list without repeats,
    [apply_ban] raises nothing and returns the entries whose name is not
    on the ban list, in their order. *)
Theorem apply_ban_filter (R : list Player) (BAN_LIST : list string) :
  NoDup (map p_name R) ->
  NoDup BAN_LIST ->
  apply_ban R BAN_LIST = Ok (filter (fun p => p_name p ∉ BAN_LIST) R).
Proof. apply apply_ban_distinct. Qed.

(** X2.  A name that stands twice in the ban list is looked up twice, and
    both times the index of its first entry is found.  The entry is
    deleted, and then the entry that has moved to its place is deleted as
    well, banned or not; when the banned entry was the last one, the
    second deletion raises [IndexError]. *)
Theorem apply_ban_repeated_name (pre post : list Player) (x : Player) :
  p_name x ∉ map p_name pre ->
  apply_ban (pre ++ x :: post) [p_name x; p_name x]
  = match post with
    | [] => Raise IndexError
    | _ :: post' => Ok (pre ++ post')
    end.
Proof.
  intros Hx. unfold apply_ban, ban_list_index. cbn [flat_map].
  rewrite map_app. cbn [map]. rewrite (index_of_first _ _ _ Hx).
  rewrite length_map. cbn [app sorted_desc foldr insert_desc].
  rewrite Nat.ltb_irrefl. cbn [del_all].
  assert (forall l : list Player,
            delete (length pre) (pre ++ l) = pre ++ drop 1 l) as Hdel.
  { intros l. rewrite delete_take_drop, take_app_length.
    rewrite drop_app_ge by lia. f_equal. f_equal. lia. }
  unfold del. rewrite length_app. cbn [length].
  destruct (Nat.ltb_spec (length pre) (length pre + S (length post))); [|lia].
  rewrite Hdel. cbn [drop mbind result_bind]. rewrite !drop_0.
  rewrite length_app.
  destruct post as [|y post']; cbn [length].
  - destruct (Nat.ltb_spec (length pre) (length pre + 0));
      [lia | reflexivity].
  - destruct (Nat.ltb_spec (length pre) (length pre + S (length post')));
      [|lia].
    rewrite Hdel. reflexivity.
Qed.

(** ** The aggregated set *)

Lemma elem_of_allnames (cgames : list Game) (name : string) :
  name ∈ allnames cgames <-> exists g, g ∈ cgames /\ name ∈ validp g.
Proof.
  unfold allnames.
  assert (forall acc : gset string,
            name ∈ foldl (fun acc game => acc ∪ list_to_set (validp game))
                         acc cgames
            <-> name ∈ acc \/ exists g, g ∈ cgames /\ name ∈ validp g) as H.
  { induction cgames as [|g cgames IH]; intros acc; simpl.
    - split; [by left | intros [?|(g & Hg & _)]; [done | by inversion Hg]].
    - rewrite IH, elem_of_union, elem_of_list_to_set. split.
      + intros [[?|?]|(g' & Hg' & Hv)]; [by left | right | right].
        * exists g. split; [left | done].
        * exists g'. split; [by right | done].
      + intros [?|(g' & Hg' & Hv)]; [by left; left|].
        apply elem_of_cons in Hg' as [-> | Hg']; [by left; right|].
        right. eauto. }
  rewrite H. split; [intros [Hin|?]; [by apply not_elem_of_empty in Hin | done]
                    | by right].
Qed.

Lemma one_player_name name t p : one_player name t = Ok p -> p_name p = name.
Proof.
  unfold one_player. intros H. repeat inv_bind H. by injection H as <-.
Qed.

Lemma fold_names_sublist cgames names acc R :
  fold_names cgames names acc = Ok R ->
  exists kept, kept `sublist_of` names /\
               map p_name R = map p_name acc ++ kept.
Proof.
  revert acc. induction names as [|name names IH]; intros acc H; simpl in H.
  - injection H as <-. exists []. by rewrite app_nil_r.
  - inv_bind H. rename a into t.
    destruct (t_frags t =? 0).
    + destruct (IH _ H) as (kept & Hs & Hm).
      exists kept. split; [by apply sublist_cons | done].
    + inv_bind H. rename a into p.
      destruct (IH _ H) as (kept & Hs & Hm).
      exists (name :: kept). split; [by apply sublist_skip|].
      rewrite Hm, map_app, <- app_assoc. simpl.
      by rewrite (one_player_name _ _ _ Ha0).
Qed.

Lemma player_stats_count cgames i name gs :
  player_stats cgames i name = Ok (Some gs) ->
  length (gs_weapon_count gs) = 16%nat /\ length (gs_ctf_events gs) = 3%nat.
Proof.
  intros H.
  apply player_stats_inv in H
    as (g & w & gty & _ & _ & _ & _ & _ & Hwc & Hctf).
  split.
  - apply mapM_result_Ok in Hwc. by apply Forall2_length in Hwc.
  - destruct (String.eqb gty "4"); [|by injection Hctf as <-].
    repeat inv_bind Hctf. by injection Hctf as <-.
Qed.

Lemma csum_length n A S :
  Forall (fun row => length row = n) A -> csum A = Ok S -> length S = n.
Proof.
  intros Hall H. pose proof (csum_nonempty _ _ H) as Hne.
  rewrite (csum_columns n) in H by done. injection H as <-.
  by rewrite length_map, length_seq.
Qed.

Lemma player_stats_total_NoDup (cgames : list Game) (R : list Player) :
  player_stats_total cgames = Ok R -> NoDup (map p_name R).
Proof.
  intros H. unfold player_stats_total in H.
  apply fold_names_sublist in H as (kept & Hs & Hm).
  rewrite Hm. simpl.
  eapply sublist_NoDup; [|exact Hs]. apply NoDup_elements.
Qed.

(** X3.  In the list that [player_stats_total] returns no name occurs
    twice, and every entry has a number of frags other than zero, is a
    valid player of some game, and has a weapon vector of 16 and a CTF
    vector of 3 components. *)
Theorem player_stats_total_entries (cgames : list Game) (R : list Player) :
  player_stats_total cgames = Ok R ->
  NoDup (map p_name R) /\
  forall p, p ∈ R ->
    p_frags p <> 0 /\
    (exists g, g ∈ cgames /\ p_name p ∈ validp g) /\
    length (p_weapons p) = 16%nat /\
    length (p_ctf p) = 3%nat.
Proof.
  intros H. split; [by eapply player_stats_total_NoDup|].
  intros p Hp.
  destruct (player_stats_total_elem _ _ _ H Hp)
    as (stats & Hs & Hc & Hw & _ & Hz).
  assert (Forall (fun gs => length (gs_weapon_count gs) = 16%nat /\
                            length (gs_ctf_events gs) = 3%nat) stats) as Hl.
  { clear -Hs. induction Hs as [|g gs games stats (i & _ & Hst) _ IH];
      constructor; [by eapply player_stats_count | done]. }
  split; [done|]. split; [|split].
  - unfold player_stats_total in H.
    destruct (fold_names_elem _ _ _ _ _ H Hp)
      as [Hin|(name & t & Hn & _ & _ & Ho)]; [by inversion Hin|].
    apply one_player_name in Ho as ->.
    apply elem_of_elements in Hn. by apply elem_of_allnames.
  - eapply csum_length; [|exact Hw].
    apply Forall_fmap. eapply Forall_impl; [exact Hl|]. by intros ? [? ?].
  - eapply csum_length; [|exact Hc].
    apply Forall_fmap. eapply Forall_impl; [exact Hl|]. by intros ? [? ?].
Qed.

(** *** Totals over the valid games *)

Lemma player_stats_inv_totals cgames i name gs :
  player_stats cgames i name = Ok (Some gs) ->
  exists g,
    cgames !! i = Some g /\
    gs_frags gs = frags_in g name /\
    gs_deaths gs = deaths_in g name /\
    gs_time gs = played_in g name.
Proof.
  unfold player_stats. intros H.
  apply bind_Ok in H; destruct H as (g & Hg & H). apply of_option_Ok in Hg.
  destruct (bool_decide_reflect (name ∈ validp g)) as [Hv|Hv];
    cbn [negb] in H; [|done].
  cbv zeta in H.
  apply bind_Ok in H; destruct H as (joined & Hj & H).
  apply of_option_Ok in Hj.
  apply bind_Ok in H; destruct H as (entry & _ & H).
  apply bind_Ok in H; destruct H as (hand & _ & H).
  apply bind_Ok in H; destruct H as (gty & _ & H).
  apply bind_Ok in H; destruct H as (win & _ & H).
  apply bind_Ok in H; destruct H as (aw & _ & H).
  apply bind_Ok in H; destruct H as (world & _ & H).
  apply bind_Ok in H; destruct H as (deaths & Hd & H).
  apply of_option_Ok in Hd.
  apply bind_Ok in H; destruct H as (own & _ & H).
  apply bind_Ok in H; destruct H as (w & Hw & H). apply of_option_Ok in Hw.
  apply bind_Ok in H; destruct H as (weapon_count & _ & H).
  apply bind_Ok in H; destruct H as (ctf_events & _ & H).
  injection H as <-. exists g.
  unfold frags_in, deaths_in, played_in. rewrite Hw, Hd, Hj. done.
Qed.

Lemma add_game_totals gs t t' :
  add_game gs t = Ok t' ->
  length (t_hand t') = S (length (t_hand t)) /\
  t_frags t' = t_frags t + gs_frags gs /\
  t_deaths t' = t_deaths t + gs_deaths gs /\
  t_time t' = t_time t + gs_time gs.
Proof.
  unfold add_game. intros H. repeat inv_bind H. injection H as <-. simpl.
  rewrite length_app. simpl. repeat split; lia.
Qed.

Lemma fold_games_totals cgames name idx t t' :
  fold_games cgames name idx t = Ok t' ->
  let games := filter (fun g => name ∈ validp g) (games_at cgames idx) in
  length (t_hand t') = (length (t_hand t) + length games)%nat /\
  t_frags t' = t_frags t + zsum (map (fun g => frags_in g name) games) /\
  t_deaths t' = t_deaths t + zsum (map (fun g => deaths_in g name) games) /\
  t_time t' = t_time t + zsum (map (fun g => played_in g name) games).
Proof.
  revert t. induction idx as [|i idx IH]; intros t H; simpl in H.
  - injection H as <-. simpl. repeat split; lia.
  - inv_bind H. rename a into game. apply of_option_Ok in Ha.
    unfold games_at. cbn [omap list_omap]. rewrite Ha.
    fold (games_at cgames idx).
    case_bool_decide as Hv; cbn [negb] in H.
    + inv_bind H. destruct a as [gs|]; [|done].
      inv_bind H. apply add_game_totals in Ha1 as (Hh & Hf & Hd & Ht).
      apply player_stats_inv_totals in Ha0 as (g' & Hg' & Hgf & Hgd & Hgt).
      assert (g' = game) as -> by congruence.
      destruct (IH _ H) as (IHh & IHf & IHd & IHt).
      rewrite filter_cons_True by done. simpl.
      rewrite IHh, IHf, IHd, IHt, Hh, Hf, Hd, Ht, Hgf, Hgd, Hgt.
      repeat split; lia.
    + destruct (IH _ H) as (IHh & IHf & IHd & IHt).
      rewrite filter_cons_False by done. done.
Qed.

(** X4.  The totals of a career are sums over the games in which the
    player is valid, and over no other game: the number of games is the
    number of those games, which is at least one, and frags, deaths and
    time are the sums of the game's weapon counters, death counter and
    time less the join offset. *)
Theorem career_totals (cgames : list Game) (R : list Player) (p : Player) :
  player_stats_total cgames = Ok R ->
  p ∈ R ->
  let games := valid_games cgames (p_name p) in
  p_games p = Z.of_nat (length games) /\
  1 <= p_games p /\
  p_frags p = zsum (map (fun g => frags_in g (p_name p)) games) /\
  p_deaths p = zsum (map (fun g => deaths_in g (p_name p)) games) /\
  p_time p = zsum (map (fun g => played_in g (p_name p)) games).
Proof.
  intros H Hp. unfold player_stats_total in H.
  destruct (fold_names_elem _ _ _ _ _ H Hp)
    as [Hin|(name & t & _ & Hf & Hz & Ho)]; [by inversion Hin|].
  apply fold_games_totals in Hf. cbv zeta in Hf.
  rewrite games_at_seq in Hf. destruct Hf as (Hh & Hfr & Hd & Ht).
  unfold one_player in Ho.
  apply bind_Ok in Ho; destruct Ho as (hand & Hhand & Ho).
  repeat inv_bind Ho. injection Ho as <-.
  cbn [p_name p_games p_frags p_deaths p_time]. unfold valid_games.
  rewrite Hh, Hfr, Hd, Ht. simpl.
  split; [done|]. split; [|done].
  unfold truediv in Hhand.
  destruct (Z.of_nat (length (t_hand t)) =? 0) eqn:E; [done|].
  apply Z.eqb_neq in E. rewrite Hh in E. simpl in E. lia.
Qed.

(** ** The ranker: order, unknown keys, the empty set *)

Lemma key_ltb_knum (a b : Z) : key_ltb (knum a) (knum b) = (a <? b).
Proof.
  unfold key_ltb, knum, Qltb, Qle_bool, inject_Z. simpl.
  rewrite !Z.mul_1_r. by rewrite Z.ltb_antisym.
Qed.

Section IntKey.
Variable f : Player -> Z.

Lemma insert_sorted_desc (p : Player) (l : list Player) :
  StronglySorted (fun a b => f b <= f a) l ->
  exists l',
    insert_sorted true ((keyed_by f) p) (map (keyed_by f) l) = map (keyed_by f) l' /\
    l' ≡ₚ p :: l /\
    StronglySorted (fun a b => f b <= f a) l'.
Proof.
  induction 1 as [|q l Hs IH Hall].
  - exists [p]. repeat split; [done|]. repeat constructor.
  - cbn [map insert_sorted]. unfold keyed_by at 1 2. cbn [fst].
    rewrite key_ltb_knum. destruct (Z.ltb_spec (f p) (f q)).
    + destruct IH as (l' & -> & Hperm & Hs').
      exists (q :: l'). split; [done|]. split.
      * rewrite Hperm. apply Permutation_swap.
      * constructor; [done|]. rewrite Hperm. constructor; [lia | done].
    + exists (p :: q :: l). split; [done|]. split; [done|].
      constructor; [by constructor|].
      constructor; [lia|].
      eapply Forall_impl; [exact Hall|]. simpl. intros; lia.
Qed.

Lemma sort_keyed_desc (R : list Player) :
  exists full,
    foldr (insert_sorted true) [] (map (keyed_by f) R) = map (keyed_by f) full /\
    full ≡ₚ R /\
    StronglySorted (fun a b => f b <= f a) full.
Proof.
  induction R as [|p R (full & IH & Hperm & Hs)]; simpl.
  - exists []. repeat split; [done|constructor].
  - rewrite IH.
    destruct (insert_sorted_desc p full Hs) as (l' & -> & Hp' & Hs').
    exists l'. split; [done|]. split; [|done]. by rewrite Hp', Hperm.
Qed.

Lemma sorted_by_desc (key : Player -> result keyval) (R : list Player) :
  (forall p, key p = Ok (knum (f p))) ->
  exists full,
    sorted_by key true R = Ok full /\
    full ≡ₚ R /\
    StronglySorted (fun a b => f b <= f a) full.
Proof.
  intros Hkey. unfold sorted_by.
  rewrite (mapM_result_map _ (keyed_by f)).
  - destruct (sort_keyed_desc R) as (full & Heq & Hperm & Hs).
    exists full. cbn [mbind result_bind]. rewrite Heq.
    split; [|done]. f_equal.
    clear. induction full as [|p full IH]; [done|].
    cbn [map fmap list_fmap]. f_equal. exact IH.
  - intros p _. by rewrite Hkey.
Qed.
End IntKey.

Lemma int_field_key sort_option f :
  (sort_option, f) ∈ int_fields ->
  Forall (fun k => String.eqb sort_option k = false) ratio_keys /\
  forall p, player_field sort_option p = Some (knum (f p)).
Proof.
  unfold int_fields. intros H.
  repeat (apply elem_of_cons in H as [[= -> ->] | H];
          [split; [by repeat constructor | done]|]).
  by inversion H.
Qed.

(** X5.  Sorting by one of the twelve integer fields of an entry: what
    [results_ordered] returns is the first [min(maxnumber, len(R))] entries
    of a rearrangement of [R] along which the field never increases. *)
Theorem results_ordered_by_field (R : list Player) (sort_option : string)
        (f : Player -> Z) (maxnumber : Z) (l : list Player) :
  (sort_option, f) ∈ int_fields ->
  results_ordered R sort_option maxnumber = Ok (Some l) ->
  exists full,
    full ≡ₚ R /\
    StronglySorted (fun a b => f b <= f a) full /\
    l = take_first (Z.min maxnumber (Z.of_nat (length R))) full.
Proof.
  intros Hf H.
  destruct (int_field_key _ _ Hf) as [Hr Hkey].
  inversion Hr as [|? ? E1 Hr1]; subst.
  inversion Hr1 as [|? ? E2 Hr2]; subst.
  inversion Hr2 as [|? ? E3 Hr3]; subst.
  inversion Hr3 as [|? ? E4 _]; subst.
  unfold results_ordered in H. rewrite E1, E2, E3, E4 in H.
  destruct (sorted_by_desc f
              (fun p => of_option KeyError (player_field sort_option p)) R)
    as (full & Hsort & Hperm & Hs).
  { intros p. by rewrite Hkey. }
  rewrite Hsort in H. cbn [mbind result_bind] in H.
  exists full. split; [done|]. split; [done|].
  destruct (Z.ltb_spec (Z.of_nat (length R)) maxnumber).
  - rewrite Z.min_r by lia.
    inv_bind H. rewrite Hkey in H. congruence.
  - destruct (maxnumber <=? 0); [done|].
    rewrite Z.min_l by lia.
    inv_bind H. rewrite Hkey in H. congruence.
Qed.

Lemma eqb_false_of_not_elem (s : string) (l : list string) :
  s ∉ l -> Forall (fun k => String.eqb s k = false) l.
Proof.
  intros H. apply Forall_forall. intros k Hk.
  apply String.eqb_neq. intros ->. done.
Qed.

(** X6.  With a sort key that is neither one of the four computed keys
    nor a key of the entries, [results_ordered] on a non-empty list takes
    the bare [return] after its message: it raises nothing and returns no
    list, whatever the count. *)
Theorem results_ordered_unknown_key (first : Player) (R : list Player)
        (sort_option : string) (maxnumber : Z) :
  sort_option ∉ ratio_keys ->
  sort_option ∉ player_keys ->
  results_ordered (first :: R) sort_option maxnumber = Ok None.
Proof.
  intros Hr Hk.
  apply eqb_false_of_not_elem in Hr, Hk.
  unfold results_ordered.
  destruct (if Z.of_nat (length (first :: R)) <? maxnumber
            then Some (Z.of_nat (length (first :: R)))
            else if maxnumber <=? 0 then None else Some maxnumber);
    [|done].
  unfold ratio_keys, player_keys in *.
  repeat match goal with
         | H : Forall _ (_ :: _) |- _ =>
             let E := fresh "E" in
             apply Forall_cons in H as [E H]
         end.
  repeat match goal with
         | E : String.eqb sort_option _ = false |- _ => rewrite E; clear E
         end.
  cbn [lookup list_lookup of_option mbind result_bind].
  unfold player_field.
  repeat match goal with
         | E : String.eqb sort_option _ = false |- _ => rewrite E; clear E
         end.
  done.
Qed.

(** X7.  On the empty list and a positive count, the four computed keys
    give the empty list, and every other key raises [IndexError] at
    [R[0]]. *)
Theorem results_ordered_empty (sort_option : string) (maxnumber : Z) :
  0 < maxnumber ->
  results_ordered [] sort_option maxnumber
  = if bool_decide (sort_option ∈ ratio_keys) then Ok (Some [])
    else Raise IndexError.
Proof.
  intros Hpos. unfold results_ordered. cbn [length].
  destruct (Z.ltb_spec (Z.of_nat 0) maxnumber); [|lia].
  case_bool_decide as Hin.
  - unfold ratio_keys in Hin.
    repeat (apply elem_of_cons in Hin as [-> | Hin]; [reflexivity|]).
    by inversion Hin.
  - apply eqb_false_of_not_elem in Hin. unfold ratio_keys in Hin.
    repeat match goal with
           | H : Forall _ (_ :: _) |- _ =>
               let E := fresh "E" in
               apply Forall_cons in H as [E H]
           end.
    by rewrite E, E0, E1, E2.
Qed.

(** X8.  The steps of [logToData] in a row: on what [results_ordered]
    returns for the list of [player_stats_total], the ban filter with a
    ban list without repeats raises nothing and removes the banned names
    and no other entry. *)
Theorem apply_ban_after_ranking (cgames : list Game) (R l : list Player)
        (sort_option : string) (maxnumber : Z) (BAN_LIST : list string) :
  player_stats_total cgames = Ok R ->
  results_ordered R sort_option maxnumber = Ok (Some l) ->
  NoDup BAN_LIST ->
  apply_ban l BAN_LIST = Ok (filter (fun p => p_name p ∉ BAN_LIST) l).
Proof.
  intros Ht Hr Hban. apply apply_ban_distinct; [|done].
  apply player_stats_total_NoDup in Ht as Hnd.
  apply results_ordered_Some in Hr as (full & Hperm & ->).
  eapply sublist_NoDup.
  - rewrite <- Hperm in Hnd. exact Hnd.
  - apply (fmap_sublist p_name). apply sublist_take.
Qed.

(** ** Invariants of a run *)

(** What one line can do to a game, processor by processor. *)

Lemma bump_inv k1 k2 d d' :
  bump k1 k2 d = Ok d' ->
  exists c n, d !! k1 = Some c /\ c !! k2 = Some n /\
              d' = <[k1 := <[k2 := n + 1]> c]> d.
Proof.
  unfold bump. intros H.
  apply bind_Ok in H; destruct H as (c & Hc & H). apply of_option_Ok in Hc.
  apply bind_Ok in H; destruct H as (n & Hn & H). apply of_option_Ok in Hn.
  injection H as <-. eauto.
Qed.

Lemma lineProcCTF_frame line g g' :
  lineProcCTF line g = Ok g' ->
  g' = g \/
  exists name c ev n,
    ctf g !! name = Some c /\ c !! ev = Some n /\
    g' = set_ctf (<[name := <[ev := n + 1]> c]> (ctf g)) g.
Proof.
  unfold lineProcCTF. intros H.
  apply bind_Ok in H; destruct H as (p_id & _ & H).
  apply bind_Ok in H; destruct H as (ev & _ & H).
  destruct (of_option KeyError (pid g !! p_id)) as [name|] eqn:Hn;
    cbn [mbind result_bind] in H; [|injection H as <-; by left].
  destruct (bump name ev (ctf g)) as [c'|] eqn:Hb;
    [|injection H as <-; by left].
  apply bump_inv in Hb as (c & n & Hc & Hn' & ->).
  injection H as <-. right. eauto 10.
Qed.

Lemma lineProcAwards_frame line g g' :
  lineProcAwards line g = Ok g' ->
  g' = g \/
  exists name a award n,
    awards g !! name = Some a /\ a !! award = Some n /\
    g' = set_awards (<[name := <[award := n + 1]> a]> (awards g)) g.
Proof.
  unfold lineProcAwards. intros H.
  apply bind_Ok in H; destruct H as (name & _ & H).
  destruct (bump _ _ _) as [a'|] eqn:Hb; [|injection H as <-; by left].
  apply bump_inv in Hb as (a & n & Ha & Hn & ->).
  injection H as <-. right. eauto 10.
Qed.

Lemma lineProcQuotes_frame line g g' :
  lineProcQuotes line g = Ok g' -> exists q, g' = set_quotes q g.
Proof.
  unfold lineProcQuotes. intros H.
  apply bind_Ok in H; destruct H as (name & _ & H).
  apply bind_Ok in H; destruct H as (part & _ & H).
  injection H as <-. eauto.
Qed.

Lemma lineProcScores_frame line g g' :
  lineProcScores line g = Ok g' ->
  exists row ping nick,
    is_Some (ptime g !! nick) /\
    let g1 := set_pos (pos g + 1)
                (set_players (<[nick := (ping, pos g)]> (players g))
                   (set_scores (scores g ++ [row]) g)) in
    g' = g1 \/ g' = set_validp (validp g ++ [nick]) g1.
Proof.
  unfold lineProcScores. intros H.
  apply bind_Ok in H;
    destruct H as ([[[[tm score] ping] client] nick] & _ & H).
  apply bind_Ok in H; destruct H as (ok & Hok & H).
  exists [tm; score; ping; client; nick], ping, nick.
  split.
  - unfold played_enough in Hok.
    apply bind_Ok in Hok; destruct Hok as (joined & Hj & _).
    apply of_option_Ok in Hj. simpl in Hj. eauto.
  - destruct ok; injection H as <-; [by right | by left].
Qed.

Lemma totime_range s t : totime s = Ok t -> 0 <= t < 86400.
Proof.
  unfold totime. intros H.
  destruct (Str.split s ":") as [|mins [|secs [|? ?]]]; try done.
  apply bind_Ok in H; destruct H as (m & _ & H).
  apply bind_Ok in H; destruct H as (sec & _ & H).
  destruct (999999999 <? Z.abs ((60 * m + sec) / 86400)); [done|].
  injection H as <-. apply Z.mod_pos_bound. lia.
Qed.

Lemma lineProcUserInfo_frame line g g' :
  lineProcUserInfo line g = Ok g' ->
  g' = g \/
  exists new_id new_name hc team t,
    0 <= t < 86400 /\
    g' = set_pid (<[new_id := new_name]> (pid g))
           (set_ptime (<[new_name := t]> (ptime g))
              (init_player new_name hc team g)).
Proof.
  unfold lineProcUserInfo. intros H.
  apply bind_Ok in H; destruct H as ([[[new_id new_name] hc] team] & _ & H).
  destruct (negb (in_values new_name (pid g)));
    [|injection H as <-; by left].
  apply bind_Ok in H; destruct H as (t & Ht & H).
  apply totime_range in Ht. injection H as <-.
  right. exists new_id, new_name, hc, team, t. done.
Qed.

Lemma lineProcKills_frame line g server :
  exists gb,
    kill_step g gb /\
    ((lineProcKills line g server).1 = gb \/
     exists victim d,
       deathsp g !! victim = Some d /\
       (lineProcKills line g server).1
       = set_deathsp (<[victim := d + 1]> (deathsp g)) gb).
Proof.
  unfold lineProcKills.
  destruct (parse_kill line) as [[[killer killed] weapon]|];
    [|exists g; split; [by left | by left]].
  unfold kill_try.
  pose proof (kill_branch_deathsp killer killed weapon g) as Hd.
  assert (kill_step g (kill_branch killer killed weapon g).1) as Hb.
  { unfold kill_branch.
    destruct (String.eqb killer killed).
    - destruct (killsp g !! killer) as [l|] eqn:E; [|by left].
      right; left. eauto.
    - destruct (negb (String.eqb killer "<world>")).
      + destruct (weapons g !! killer) as [w|] eqn:Ew; [|by left].
        destruct (w !! Str.slice weapon 0 3) as [n|] eqn:En; [|by left].
        right; right. eauto 10.
      + destruct (killsp g !! "<world>") as [l|] eqn:E; [|by left].
        right; left. eauto. }
  destruct (kill_branch killer killed weapon g) as [gb [[]|e]];
    simpl in *; exists gb; (split; [done|]); [|by left].
  destruct (deathsp gb !! killed) as [d|] eqn:E; [|by left].
  right. exists killed, d. rewrite Hd in *. done.
Qed.

(** The lines of a game leave the server's time, game type and host name
    alone; they can only add to its frags. *)
Lemma lineProcKills_server line g server :
  let s' := (lineProcKills line g server).2 in
  srv_time s' = srv_time server /\ srv_gtype s' = srv_gtype server /\
  srv_hostname s' = srv_hostname server /\ srv_frags server <= srv_frags s'.
Proof.
  unfold lineProcKills.
  destruct (parse_kill line) as [[[killer killed] weapon]|];
    [|simpl; repeat split; lia].
  destruct (kill_try killer killed weapon g) as [g' [[]|e]]; simpl;
    repeat split; lia.
Qed.

Lemma oneGameLoop_server lines g server v g' server' v' rest :
  oneGameLoop lines g server v = Ok (g', server', v', rest) ->
  srv_time server' = srv_time server /\ srv_gtype server' = srv_gtype server /\
  srv_hostname server' = srv_hostname server /\
  srv_frags server <= srv_frags server'.
Proof.
  revert g server v.
  induction lines as [|line lines IH]; intros g server v H; simpl in H.
  - injection H as <- <- <- <-. repeat split; lia.
  - destruct (classify line);
      try (apply IH in H; exact H);
      try (inv_bind H; apply IH in H; exact H).
    + pose proof (lineProcKills_server line g server) as Hk.
      destruct (lineProcKills line g server) as [g1 s1]. simpl in Hk.
      apply IH in H. destruct H as (-> & -> & -> & ?), Hk as (-> & -> & -> & ?).
      repeat split; lia.
    + inv_bind H. inv_bind H. by apply IH in H.
    + injection H as <- <- <- <-. repeat split; lia.
Qed.

(** X9.  The lines of a match leave the time, the game type and the host
    name of the server as they are, and never lower its frag counter. *)
Theorem oneGameProc_server (lines : list string) (game : Game)
        (server : Server) (game' : Game) (server' : Server) (valid : bool)
        (rest : list string) :
  oneGameProc lines game server = Ok (game', server', valid, rest) ->
  srv_time server' = srv_time server /\
  srv_gtype server' = srv_gtype server /\
  srv_hostname server' = srv_hostname server /\
  srv_frags server <= srv_frags server'.
Proof. apply oneGameLoop_server. Qed.

(** *** The game of a match stays sound *)

Lemma new_weapons_zero code n : new_weapons !! code = Some n -> n = 0.
Proof.
  assert (map_Forall (fun _ v => v = 0) new_weapons) as H
    by (apply (bool_decide_unpack _); by vm_compute).
  apply H.
Qed.

Lemma new_ctf_keys :
  is_Some (new_ctf !! "0") /\ is_Some (new_ctf !! "2")
  /\ is_Some (new_ctf !! "3").
Proof. repeat split; by vm_compute; eauto. Qed.

Lemma sound_init N : sound (Game_init N).
Proof.
  unfold sound. simpl.
  split; [lia|]. split; [|split; [|split; [|split; [|split]]]].
  - intros name t H. by rewrite lookup_empty in H.
  - intros name [? H]. by rewrite lookup_empty in H.
  - intros name H. by inversion H.
  - by vm_compute; eauto.
  - intros name d H. by rewrite lookup_empty in H.
  - intros name w code n H. by rewrite lookup_empty in H.
Qed.

Lemma sound_set_time t g : 0 <= t < 86400 -> sound g -> sound (set_time t g).
Proof. intros Ht (_ & H). split; [exact Ht | exact H]. Qed.

Lemma sound_set_ctfscores sc g : sound g -> sound (set_ctfscores sc g).
Proof. done. Qed.

Lemma sound_set_quotes q g : sound g -> sound (set_quotes q g).
Proof. done. Qed.

Lemma sound_set_mapname m g : sound g -> sound (set_mapname m g).
Proof. done. Qed.

Lemma sound_set_gametype gt g : sound g -> sound (set_gametype gt g).
Proof. done. Qed.

Lemma sound_ctf g name c ev n :
  ctf g !! name = Some c -> c !! ev = Some n ->
  sound g -> sound (set_ctf (<[name := <[ev := n + 1]> c]> (ctf g)) g).
Proof.
  intros Hc Hn (Ht & Hp & Hrest). split; [exact Ht|]. split; [|exact Hrest].
  intros name' t Hl. destruct (Hp _ _ Hl) as [Hr Hhc]. split; [exact Hr|].
  destruct Hhc as (H1 & H2 & H3 & H4 & H5 & H6 & c' & Hc' & K0 & K2 & K3).
  repeat (split; [assumption|]). simpl.
  destruct (decide (name = name')) as [<-|Hne].
  - rewrite lookup_insert_eq. eexists. split; [done|].
    assert (c' = c) as -> by congruence.
    rewrite !lookup_insert_is_Some'. auto.
  - rewrite lookup_insert_ne by done. eauto.
Qed.

Lemma sound_awards g name a award n :
  awards g !! name = Some a ->
  sound g -> sound (set_awards (<[name := <[award := n + 1]> a]> (awards g)) g).
Proof.
  intros Ha (Ht & Hp & Hrest). split; [exact Ht|]. split; [|exact Hrest].
  intros name' t Hl. destruct (Hp _ _ Hl) as [Hr Hhc]. split; [exact Hr|].
  destruct Hhc as (H1 & H2 & H3 & H4 & H5 & H6 & H7).
  repeat (split; [assumption|]). split; [|split; assumption]. simpl.
  rewrite lookup_insert_is_Some'. auto.
Qed.

Lemma sound_scores g row ping nick :
  is_Some (ptime g !! nick) ->
  sound g ->
  let g1 := set_pos (pos g + 1)
              (set_players (<[nick := (ping, pos g)]> (players g))
                 (set_scores (scores g ++ [row]) g)) in
  sound g1 /\ sound (set_validp (validp g ++ [nick]) g1).
Proof.
  intros Hn (Ht & Hp & Hpl & Hv & Hrest). cbv zeta.
  assert (forall name,
            is_Some (<[nick := (ping, pos g)]> (players g) !! name) ->
            is_Some (ptime g !! name)) as Hpl'.
  { intros name. rewrite lookup_insert_is_Some.
    intros [<- | [_ H]]; [done | by apply Hpl]. }
  split.
  - split; [exact Ht|]. split; [exact Hp|]. split; [exact Hpl'|].
    split; [|exact Hrest]. simpl. intros name Hin.
    rewrite lookup_insert_is_Some'. auto.
  - split; [exact Ht|]. split; [exact Hp|]. split; [exact Hpl'|].
    split; [|exact Hrest]. simpl. intros name Hin.
    rewrite lookup_insert_is_Some'.
    apply elem_of_app in Hin as [Hin|Hin]; [auto|].
    apply list_elem_of_singleton in Hin as ->. by left.
Qed.

Lemma sound_register g new_id new_name hc team t :
  0 <= t < 86400 ->
  sound g ->
  sound (set_pid (<[new_id := new_name]> (pid g))
           (set_ptime (<[new_name := t]> (ptime g))
              (init_player new_name hc team g))).
Proof.
  intros Ht (Htm & Hp & Hpl & Hv & Hw & Hd & Hwp).
  unfold sound, has_counters, init_player. simpl.
  split; [exact Htm|]. split; [|split; [|split; [|split; [|split]]]].
  - intros name t'. destruct (decide (new_name = name)) as [<-|Hne].
    + rewrite !lookup_insert_eq. intros [= <-]. split; [done|].
      repeat (split; [eauto|]).
      exists new_ctf. split; [done | apply new_ctf_keys].
    + rewrite !lookup_insert_ne by done. apply Hp.
  - intros name Hn. rewrite lookup_insert_is_Some'. auto.
  - exact Hv.
  - rewrite lookup_insert_is_Some'. auto.
  - intros name d. destruct (decide (new_name = name)) as [<-|Hne].
    + rewrite lookup_insert_eq. intros [= <-]. lia.
    + rewrite lookup_insert_ne by done. apply Hd.
  - intros name w code n. destruct (decide (new_name = name)) as [<-|Hne].
    + rewrite lookup_insert_eq. intros [= <-] Hn.
      apply new_weapons_zero in Hn. lia.
    + rewrite lookup_insert_ne by done. apply Hwp.
Qed.

Lemma kill_step_deathsp g gb : kill_step g gb -> deathsp gb = deathsp g.
Proof.
  intros [-> | [(k & l & x & _ & ->) | (k & w & code & n & _ & _ & ->)]];
    done.
Qed.

Lemma sound_kill_step g gb : kill_step g gb -> sound g -> sound gb.
Proof.
  intros [-> | [(k & l & x & Hk & ->) | (k & w & code & n & Hw & Hn & ->)]];
    [done | |]; intros (Htm & Hp & Hpl & Hv & Hwd & Hd & Hwp).
  - unfold sound, has_counters. simpl.
    split; [exact Htm|]. split; [|split; [|split; [|split; [|split]]]];
      try assumption.
    + intros name t Hl. destruct (Hp _ _ Hl) as [Hr Hhc]. split; [exact Hr|].
      destruct Hhc as (H1 & H2 & H3 & H4 & H5).
      repeat (split; [assumption|]). split; [|assumption].
      rewrite lookup_insert_is_Some'. auto.
    + rewrite lookup_insert_is_Some'. auto.
  - unfold sound, has_counters. simpl.
    split; [exact Htm|]. split; [|split; [|split; [|split; [|split]]]];
      try assumption.
    + intros name t Hl. destruct (Hp _ _ Hl) as [Hr Hhc]. split; [exact Hr|].
      destruct Hhc as (H1 & H2 & H3 & H4 & H5 & H6 & H7).
      repeat (split; [assumption|]). split; [|assumption].
      rewrite lookup_insert_is_Some'. auto.
    + intros name w' code' n'.
      destruct (decide (k = name)) as [<-|Hne].
      * rewrite lookup_insert_eq. intros [= <-].
        destruct (decide (code = code')) as [<-|Hc].
        -- rewrite lookup_insert_eq. intros [= <-].
           specialize (Hwp _ _ _ _ Hw Hn). lia.
        -- rewrite lookup_insert_ne by done. by apply (Hwp k).
      * rewrite lookup_insert_ne by done. apply Hwp.
Qed.

Lemma sound_death g victim d :
  deathsp g !! victim = Some d ->
  sound g -> sound (set_deathsp (<[victim := d + 1]> (deathsp g)) g).
Proof.
  intros Hd0 (Htm & Hp & Hpl & Hv & Hwd & Hd & Hwp).
  unfold sound, has_counters. simpl.
  split; [exact Htm|]. split; [|split; [|split; [|split; [|split]]]];
    try assumption.
  - intros name t Hl. destruct (Hp _ _ Hl) as [Hr Hhc]. split; [exact Hr|].
    destruct Hhc as (H1 & H2 & H3 & H4).
    repeat (split; [assumption|]). split; [|assumption].
    rewrite lookup_insert_is_Some'. auto.
  - intros name d'. destruct (decide (victim = name)) as [<-|Hne].
    + rewrite lookup_insert_eq. intros [= <-].
      specialize (Hd _ _ Hd0). lia.
    + rewrite lookup_insert_ne by done. apply Hd.
Qed.

Lemma sound_lineProcKills line g server :
  sound g -> sound (lineProcKills line g server).1.
Proof.
  intros Hs.
  destruct (lineProcKills_frame line g server)
    as (gb & Hstep & [-> | (victim & d & Hd & ->)]).
  - by eapply sound_kill_step.
  - rewrite <- (kill_step_deathsp _ _ Hstep) in *.
    apply sound_death; [done|]. by eapply sound_kill_step.
Qed.

Lemma kill_step_started N g gb : kill_step g gb -> started N g -> started N gb.
Proof.
  intros [-> | [(k & l & x & _ & ->) | (k & w & code & n & _ & _ & ->)]];
    done.
Qed.

Lemma lineProcKills_started N line g server :
  started N g -> started N (lineProcKills line g server).1.
Proof.
  intros Hs.
  destruct (lineProcKills_frame line g server)
    as (gb & Hstep & [-> | (victim & d & Hd & ->)]).
  - by eapply kill_step_started.
  - by apply (kill_step_started N) in Hstep.
Qed.

(** The lines of a match keep its game sound, and leave it its number and
    its type. *)
Lemma oneGameLoop_sound N lines g server v g' server' v' rest :
  sound g -> started N g ->
  oneGameLoop lines g server v = Ok (g', server', v', rest) ->
  sound g' /\ started N g'.
Proof.
  revert g server v.
  induction lines as [|line lines IH]; intros g server v Hs Hn H; simpl in H.
  - by injection H as <- <- <- <-.
  - destruct (classify line).
    + by eapply IH.
    + pose proof (sound_lineProcKills line g server Hs) as Hs'.
      pose proof (lineProcKills_started N line g server Hn) as Hn'.
      destruct (lineProcKills line g server) as [g1 s1]. by eapply IH.
    + apply bind_Ok in H; destruct H as (g1 & Hg1 & H).
      apply lineProcCTF_frame in Hg1
        as [-> | (name & c & ev & n & Hc & Hev & ->)];
        [by eapply IH|].
      eapply IH; [by apply sound_ctf | done | exact H].
    + apply bind_Ok in H; destruct H as (g1 & Hg1 & H).
      apply lineProcAwards_frame in Hg1
        as [-> | (name & a & award & n & Ha & Hev & ->)];
        [by eapply IH|].
      eapply IH; [by apply sound_awards | done | exact H].
    + apply bind_Ok in H; destruct H as (g1 & Hg1 & H).
      apply lineProcUserInfo_frame in Hg1
        as [-> | (new_id & new_name & hc & team & t & Ht & ->)];
        [by eapply IH|].
      eapply IH; [by apply sound_register | done | exact H].
    + apply bind_Ok in H; destruct H as (g1 & Hg1 & H).
      apply lineProcQuotes_frame in Hg1 as (q & ->).
      eapply IH; [by apply sound_set_quotes | done | exact H].
    + apply bind_Ok in H; destruct H as (g1 & Hg1 & H).
      apply lineProcScores_frame in Hg1 as (row & ping & nick & Hnick & Hg1).
      destruct (sound_scores g row ping nick Hnick Hs) as [Hs1 Hs2].
      cbv zeta in Hg1, Hs1, Hs2.
      destruct Hg1 as [-> | ->]; (eapply IH; [| |exact H]); done.
    + apply bind_Ok in H; destruct H as (red & _ & H).
      apply bind_Ok in H; destruct H as (blue & _ & H).
      eapply IH; [by apply sound_set_ctfscores | done | exact H].
    + apply bind_Ok in H; destruct H as (t & Ht & H).
      apply totime_range in Ht.
      eapply IH; [by apply sound_set_time | done | exact H].
    + by injection H as <- <- <- <-.
    + by eapply IH.
Qed.

Lemma lineProcInit_sound N line server g server' :
  lineProcInit line (Game_init N) server = Ok (g, server') ->
  sound g /\ started N g /\
  srv_time server' = srv_time server /\
  srv_frags server' = srv_frags server.
Proof.
  unfold lineProcInit. intros H.
  apply bind_Ok in H; destruct H as (mapname & _ & H).
  apply bind_Ok in H; destruct H as (hostname & _ & H).
  apply bind_Ok in H; destruct H as (gty & _ & H).
  injection H as <- <-. split; [apply (sound_init N)|].
  split; [|done]. split; [done | simpl; eauto].
Qed.

(** A sound game with a score has an earliest join offset. *)
Lemma sound_pymin g :
  sound g -> players g <> ∅ -> exists first, pymin (values (ptime g)) = Ok first.
Proof.
  intros (_ & _ & Hpl & _) Hne.
  apply map_choose in Hne as (name & e & He).
  destruct (Hpl name) as [t Ht]; [eauto|].
  unfold values, pymin.
  apply elem_of_map_to_list in Ht.
  destruct (map_to_list (ptime g)) as [|x l]; [by apply elem_of_nil in Ht|].
  simpl. eauto.
Qed.

Lemma zsum_snoc l x : zsum (l ++ [x]) = zsum l + x.
Proof. induction l as [|y l IH]; simpl; lia. Qed.

Lemma StronglySorted_snoc {A} (R : A -> A -> Prop) l x :
  StronglySorted R l -> Forall (fun y => R y x) l -> StronglySorted R (l ++ [x]).
Proof.
  induction 1 as [|y l Hs IH Hy]; intros Hx; simpl.
  - repeat constructor.
  - apply Forall_cons in Hx as [Hyx Hx]. constructor; [by apply IH|].
    apply Forall_app. split; [done|]. by constructor.
Qed.

Lemma mainLoop_run_inv fuel lines server cgames N server' cgames' :
  1 <= N ->
  run_inv server cgames N ->
  mainLoop fuel lines server cgames N = Ok (server', cgames') ->
  exists N', N <= N' /\ run_inv server' cgames' N'.
Proof.
  revert lines server cgames N.
  induction fuel as [|fuel IH]; intros lines server cgames N HN Hinv H;
    simpl in H; [done|].
  assert (Hup : forall s c, run_inv s c N -> run_inv s c (N + 1)).
  { intros s c (Ht & Hf & Hs). split; [done|]. split; [|done].
    eapply Forall_impl; [exact Hf|]. simpl. intros g (?&?&?&?).
    split; [done|]. split; [done|]. split; [done | lia]. }
  assert (Hnext : forall lines s c,
            run_inv s c (N + 1) ->
            mainLoop fuel lines s c (N + 1) = Ok (server', cgames') ->
            exists N', N <= N' /\ run_inv server' cgames' N').
  { intros l s c Hi Hm.
    destruct (IH _ _ _ (N + 1) ltac:(lia) Hi Hm) as (N' & ? & ?).
    exists N'. split; [lia | done]. }
  destruct lines as [|line lines].
  { injection H as <- <-. exists N. split; [lia | done]. }
  destruct (has line " InitGame: "); [|by eapply IH].
  destruct lines as [|peeked lines]; [done|].
  destruct (Str.find peeked " Warmup:" =? -1); [|by eapply IH].
  apply bind_Ok in H; destruct H as ([g s] & Hi & H).
  apply bind_Ok in H; destruct H as ([[[g1 s1] v] rest] & Hg & H).
  apply lineProcInit_sound in Hi as (Hs & Hn & Hti & _).
  pose proof (oneGameLoop_server _ _ _ _ _ _ _ _ Hg) as (Hts & _).
  apply (oneGameLoop_sound N) in Hg as [Hs1 Hn1]; [|done..].
  assert (Hkeep : run_inv s1 cgames (N + 1)).
  { apply Hup. destruct Hinv as (Ht & Hrest). split; [|done]. congruence. }
  destruct v; [|by eapply Hnext].
  case_bool_decide as Hsz; [by eapply Hnext|].
  apply bind_Ok in H; destruct H as (first & Hfirst & H).
  eapply Hnext; [|exact H].
  destruct Hkeep as (Ht & Hf & Hsd). split; [|split].
  - rewrite map_app. cbn [map]. rewrite zsum_snoc. cbn [add_time srv_time].
    unfold match_length at 2. rewrite Hfirst. lia.
  - apply Forall_app. split; [done|]. constructor; [|constructor].
    destruct Hn1 as [Hnum Hgt].
    split; [done|]. split; [|split; [done | lia]].
    intros He. apply Hsz. rewrite He. apply map_size_empty.
  - apply StronglySorted_snoc; [done|].
    destruct Hinv as (_ & Hlow & _).
    eapply Forall_impl; [exact Hlow|]. simpl.
    intros g' (_ & _ & _ & Hlt). destruct Hn1 as [-> _]. lia.
Qed.

(** X10.  What a run retains.  The time of the server is the sum, over
    the retained games, of the game's duration less its earliest join
    offset.  The numbers of the retained games are positive and increase
    along the list.  Every retained game has a score line and a game
    type, an earliest join offset, and is sound: its times are seconds of a
    day, every player with a score has a join offset and all counters,
    every valid player has a score, and no counter is negative. *)
Theorem mainProcessing_retained (log : list string) (server : Server)
        (cgames : list Game) :
  mainProcessing log = Ok (server, cgames) ->
  srv_time server = zsum (map match_length cgames) /\
  StronglySorted (fun a b => number a < number b) cgames /\
  Forall (fun g => 1 <= number g /\ sound g /\ players g <> ∅ /\
                   is_Some (gametype g) /\
                   exists first, pymin (values (ptime g)) = Ok first) cgames.
Proof.
  intros H. unfold mainProcessing in H.
  apply mainLoop_run_inv in H as (N' & _ & Ht & Hf & Hs); [|lia|].
  - split; [done|]. split; [done|].
    eapply Forall_impl; [exact Hf|]. simpl. intros g (?&?&?&?).
    split; [lia|]. split; [done|]. split; [done|]. split; [done|].
    by apply sound_pymin.
  - split; [done|]. split; constructor.
Qed.

(** ** The game type of the server *)

Lemma to_int_one_char (c : ascii) (n : Z) :
  Str.to_int (String c EmptyString) = Ok n -> 0 <= n <= 9.
Proof.
  intros H.
  destruct c as [[] [] [] [] [] [] [] []]; vm_compute in H;
    try discriminate H; injection H as <-; lia.
Qed.

Lemma index_one_char (s : string) (i : Z) (r : string) :
  Str.index s i = Ok r -> exists c, r = String c EmptyString.
Proof.
  unfold Str.index. intros H.
  destruct (_ || _); [done|].
  destruct (Str.of_str s !! _) as [c|]; [|done].
  injection H as <-. eauto.
Qed.

Lemma lineProcInit_gtype line g server g' server' :
  lineProcInit line g server = Ok (g', server') ->
  0 <= srv_gtype server' <= 9.
Proof.
  unfold lineProcInit. intros H.
  apply bind_Ok in H; destruct H as (mapname & _ & H).
  apply bind_Ok in H; destruct H as (hostname & _ & H).
  apply bind_Ok in H; destruct H as (gty & Hgt & H).
  injection H as _ <-. simpl.
  apply index_one_char in Hgt as [c ->].
  destruct (Str.to_int (String c EmptyString)) as [n|e] eqn:E; [|lia].
  by apply to_int_one_char in E.
Qed.

Lemma mainLoop_gtype fuel lines server cgames N server' cgames' :
  0 <= srv_gtype server <= 9 ->
  mainLoop fuel lines server cgames N = Ok (server', cgames') ->
  0 <= srv_gtype server' <= 9.
Proof.
  revert lines server cgames N.
  induction fuel as [|fuel IH]; intros lines server cgames N Hk H;
    simpl in H; [done|].
  destruct lines as [|line lines]; [by injection H as <- <-|].
  destruct (has line " InitGame: "); [|by eapply IH].
  destruct lines as [|peeked lines]; [done|].
  destruct (Str.find peeked " Warmup:" =? -1); [|by eapply IH].
  apply bind_Ok in H; destruct H as ([g s] & Hi & H).
  apply bind_Ok in H; destruct H as ([[[g1 s1] v] rest] & Hg & H).
  apply lineProcInit_gtype in Hi.
  apply oneGameLoop_server in Hg as (_ & Hgt & _).
  rewrite <- Hgt in Hi.
  destruct v; [|by eapply IH].
  case_bool_decide; [by eapply IH|].
  apply bind_Ok in H; destruct H as (first & _ & H).
  by eapply IH; [|exact H].
Qed.

Lemma gametype_name_digit (k : Z) :
  0 <= k <= 9 ->
  exists name, gametype_name k = Ok name /\ (k, name) ∈ take 10 gametypes.
Proof.
  intros Hk.
  assert (k = 0 \/ k = 1 \/ k = 2 \/ k = 3 \/ k = 4 \/ k = 5 \/ k = 6 \/
          k = 7 \/ k = 8 \/ k = 9) as Hcases by lia.
  repeat destruct Hcases as [-> | Hcases]; try subst k;
    (eexists; split; [by vm_compute|]);
    apply (bool_decide_unpack _); by vm_compute.
Qed.

(** X11.  The game type that a run leaves on the server is a number from
    0 to 9, the value of one character, or the default 0.  With the
    configured empty override [set_gametype] therefore finds a name for it
    and raises nothing; the names of the types 10 to 12 are never
    reported. *)
Theorem set_gametype_after_run (log : list string) (server : Server)
        (cgames : list Game) :
  mainProcessing log = Ok (server, cgames) ->
  exists name,
    set_server_gametype "" server = Ok name /\
    (srv_gtype server, name) ∈ take 10 gametypes.
Proof.
  intros H. apply mainLoop_gtype in H; [|by vm_compute].
  by apply gametype_name_digit.
Qed.

Lemma contains_empty (s : string) : s <> "" -> contains "" s = false.
Proof. by destruct s. Qed.

Lemma gametype_name_known (k : Z) (name : string) :
  gametype_name k = Ok name -> name ∈ gametypes.*2.
Proof.
  unfold gametype_name. intros H.
  destruct (filter _ gametypes) as [|e l] eqn:E; [done|].
  injection H as <-.
  assert (e ∈ filter (λ e : Z * string, e.1 = k) gametypes) as He
    by (rewrite E; left).
  apply list_elem_of_filter in He as [_ He].
  by apply list_elem_of_fmap_2.
Qed.

(** X12.  The last branch of [set_gametype] is never taken: the report
    says Unknown only when that word is the configured override. *)
Theorem set_gametype_never_unknown (GTYPE_OVERRIDE : string)
        (server : Server) :
  set_server_gametype GTYPE_OVERRIDE server = Ok "Unknown" ->
  GTYPE_OVERRIDE = "Unknown".
Proof.
  unfold set_server_gametype. intros H.
  destruct (String.eqb_spec GTYPE_OVERRIDE "") as [-> | Hne].
  - change (contains "" "") with true in H. cbv iota in H.
    apply gametype_name_known in H.
    exfalso. revert H. apply (bool_decide_unpack _). by vm_compute.
  - rewrite (contains_empty _ Hne) in H.
    repeat case_bool_decide; simpl in H; congruence.
Qed.

(** ** Matches without a limit *)

Lemma oneGameLoop_no_exit lines g server v g' server' v' rest :
  Forall (fun l => classify l <> EvExit) lines ->
  oneGameLoop lines g server v = Ok (g', server', v', rest) ->
  v' = v /\ Forall (fun l => classify l <> EvExit) rest.
Proof.
  intros Hf. revert g server v.
  induction Hf as [|line lines Hl Hf IH]; intros g server v H; simpl in H.
  - by injection H as <- <- <- <-.
  - destruct (classify line); try done;
      try (by eapply IH);
      try (destruct (lineProcKills line g server); by eapply IH);
      try (inv_bind H; by eapply IH).
    + inv_bind H. inv_bind H. by eapply IH.
    + by injection H as <- <- <- <-.
Qed.

Lemma mainLoop_no_exit fuel lines server cgames N server' cgames' :
  Forall (fun l => classify l <> EvExit) lines ->
  mainLoop fuel lines server cgames N = Ok (server', cgames') ->
  cgames' = cgames /\ srv_time server' = srv_time server.
Proof.
  revert lines server cgames N.
  induction fuel as [|fuel IH]; intros lines server cgames N Hf H;
    simpl in H; [done|].
  destruct lines as [|line lines]; [by injection H as <- <-|].
  apply Forall_cons in Hf as [_ Hf].
  destruct (has line " InitGame: "); [|by eapply IH].
  destruct lines as [|peeked lines]; [done|].
  apply Forall_cons in Hf as [_ Hf'].
  destruct (Str.find peeked " Warmup:" =? -1); [|by eapply IH].
  apply bind_Ok in H; destruct H as ([g s] & Hi & H).
  apply bind_Ok in H; destruct H as ([[[g1 s1] v] rest] & Hg & H).
  apply (lineProcInit_sound N) in Hi as (_ & _ & Hti & _).
  pose proof (oneGameLoop_server _ _ _ _ _ _ _ _ Hg) as (Hts & _).
  apply oneGameLoop_no_exit in Hg as [-> Hrest]; [|done].
  apply IH in H as [-> ->]; [|done]. split; [done | congruence].
Qed.

(** X13.  A log in which no line classifies as a limit-hit line, that is,
    no line on which the chain of tests of [oneGameProc], tried in its
    order, would come to the exit branch, whether the line is ever
    dispatched or not: such a log retains no game and leaves the server's
    time at zero, whatever else it holds. *)
Theorem mainProcessing_no_exit (log : list string) (server : Server)
        (cgames : list Game) :
  Forall (fun l => classify l <> EvExit) log ->
  mainProcessing log = Ok (server, cgames) ->
  cgames = [] /\ srv_time server = 0.
Proof. intros Hf H. by apply mainLoop_no_exit in H. Qed.

(** ** Warm-up rounds *)

Lemma mainLoop_warmup fuel line warm lines server cgames N :
  has line " InitGame: " = true ->
  Str.find warm " Warmup:" <> -1 ->
  mainLoop (S fuel) (line :: warm :: lines) server cgames N
  = mainLoop fuel lines server cgames N.
Proof.
  intros Hi Hw. simpl. rewrite Hi.
  apply Z.eqb_neq in Hw. by rewrite Hw.
Qed.

(** X14.  An init line that is followed by a warm-up line starts no match
    and uses up no game number: the log gives what it gives without the
    two lines and the idle lines before them. *)
Theorem mainProcessing_warmup (pre : list string) (line warm : string)
        (lines : list string) :
  Forall (fun l => has l " InitGame: " = false) pre ->
  has line " InitGame: " = true ->
  Str.find warm " Warmup:" <> -1 ->
  mainProcessing (pre ++ line :: warm :: lines) = mainProcessing lines.
Proof.
  intros Hpre Hi Hw. unfold mainProcessing.
  rewrite length_app. cbn [length].
  replace (S (length pre + S (S (length lines))))
    with (length pre + S (S (S (length lines))))%nat by lia.
  rewrite mainLoop_skip by done.
  rewrite mainLoop_warmup by done.
  apply mainLoop_fuel; lia.
Qed.

(** ** Quotes *)

Lemma elem_of_quotes_union (q : string * string) (cgames : list Game) :
  q ∈ foldr (fun g acc => quotes g ∪ acc) (∅ : gset (string * string)) cgames
  <-> exists g, g ∈ cgames /\ q ∈ quotes g.
Proof.
  induction cgames as [|g cgames IH]; simpl.
  - split; [set_solver|]. intros (g & Hg & _). by apply elem_of_nil in Hg.
  - rewrite elem_of_union, IH. split.
    + intros [Hq | (g' & Hg' & Hq)]; [exists g | exists g'];
        (split; [|done]); [left | by right].
    + intros (g' & Hg' & Hq). apply elem_of_cons in Hg' as [-> | Hg'];
        [by left | right; eauto].
Qed.

(** X15.  The list of [get_quotes] has no repeats, and holds exactly the
    quotes of the games: no game is left out by the comparison of its set
    with the empty list. *)
Theorem get_quotes_spec (cgames : list Game) :
  NoDup (get_quotes cgames) /\
  forall q, q ∈ get_quotes cgames <-> exists g, g ∈ cgames /\ q ∈ quotes g.
Proof.
  unfold get_quotes. case_bool_decide as Hn.
  - split; [apply NoDup_elements|]. intros q.
    by rewrite elem_of_elements, elem_of_quotes_union.
  - destruct cgames; [|simpl in Hn; lia]. split; [constructor|].
    intros q. split; [by intros ?%elem_of_nil|].
    intros (g & Hg & _). by apply elem_of_nil in Hg.
Qed.

(** ** A score line of a player who never joined *)

(** X16.  A score line for a nick that has no join offset raises
    [KeyError] in the validity test, and the exception leaves the match
    loop: the lines after it are not read. *)
Theorem score_of_unregistered_nick (line : string) (lines : list string)
        (g : Game) (server : Server) (v : bool)
        (tm score ping client nick : string) :
  classify line = EvScore ->
  parse_score line = Ok (tm, score, ping, client, nick) ->
  ptime g !! nick = None ->
  oneGameLoop (line :: lines) g server v = Raise KeyError.
Proof.
  intros Hc Hp Hn. simpl. rewrite Hc.
  unfold lineProcScores. rewrite Hp. simpl.
  unfold played_enough. simpl. by rewrite Hn.
Qed.

(** ** The statistics of the games of a run *)

Lemma run_games log server cgames g :
  mainProcessing log = Ok (server, cgames) ->
  g ∈ cgames ->
  sound g /\ well_keyed g /\ is_Some (gametype g).
Proof.
  intros H Hg. unfold mainProcessing in H.
  pose proof (mainLoop_well_keyed _ _ _ _ _ _ _ ltac:(constructor) H) as Hk.
  apply mainLoop_run_inv in H as (N' & _ & _ & Hf & _);
    [|lia|by split; [|split; constructor]].
  rewrite Forall_forall in Hf, Hk.
  destruct (Hf g Hg) as (? & _ & ? & _). split; [done|]. split; [|done].
  by apply Hk.
Qed.

Lemma zsum_nonneg (l : list Z) : Forall (fun z => 0 <= z) l -> 0 <= zsum l.
Proof. induction 1; simpl; lia. Qed.

Lemma sound_frags_in g name : sound g -> 0 <= frags_in g name.
Proof.
  intros (_ & _ & _ & _ & _ & _ & Hw). unfold frags_in.
  destruct (weapons g !! name) as [w|] eqn:E; simpl.
  - apply zsum_nonneg. unfold values. apply Forall_forall.
    intros z Hz. apply list_elem_of_fmap in Hz as ([k z'] & -> & Hz).
    apply elem_of_map_to_list in Hz. by eapply Hw.
  - unfold values. by rewrite map_to_list_empty.
Qed.

Lemma sound_deaths_in g name : sound g -> 0 <= deaths_in g name.
Proof.
  intros (_ & _ & _ & _ & _ & Hd & _). unfold deaths_in.
  destruct (deathsp g !! name) as [d|] eqn:E; simpl; [by eapply Hd | done].
Qed.

Lemma wlist_lookup (w : gmap string Z) :
  dom w = list_to_set weapon_codes ->
  mapM (fun wn => of_option KeyError (w !! Str.slice wn 0 3)) wlist
  = Ok (map (fun wn => default 0 (w !! Str.slice wn 0 3)) wlist).
Proof.
  intros Hd. apply mapM_result_map. intros wn Hwn.
  assert (Str.slice wn 0 3 ∈ weapon_codes) as Hc.
  { assert (Forall (fun wn => Str.slice wn 0 3 ∈ weapon_codes) wlist) as Hall.
    { apply (bool_decide_unpack _). by vm_compute. }
    rewrite Forall_forall in Hall. by apply Hall. }
  assert (is_Some (w !! Str.slice wn 0 3)) as [z ->]; [|done].
  apply elem_of_dom. rewrite Hd. by apply elem_of_list_to_set.
Qed.

(** X17.  For a game that a run has retained and that is not a team game,
    [player_stats] raises nothing for a valid player: every dictionary it
    reads has the name, and every weapon dictionary has the twelve codes.
    The time is the duration less the join offset, the frags are the sum
    of the weapon counters, the deaths the death counter; neither frags
    nor deaths are negative, and the CTF events are zero. *)
Theorem player_stats_of_a_run (log : list string) (server : Server)
        (cgames : list Game) (i : nat) (g : Game) (name : string) :
  mainProcessing log = Ok (server, cgames) ->
  cgames !! i = Some g ->
  name ∈ validp g ->
  gametype g <> Some "3" ->
  gametype g <> Some "4" ->
  exists gs,
    player_stats cgames i name = Ok (Some gs) /\
    gs_time gs = played_in g name /\
    gs_frags gs = frags_in g name /\ 0 <= gs_frags gs /\
    gs_deaths gs = deaths_in g name /\ 0 <= gs_deaths gs /\
    gs_ctf_events gs = [0; 0; 0].
Proof.
  intros Hrun Hg Hv H3 H4.
  destruct (run_games _ _ _ g Hrun) as (Hs & Hk & [gty Hgt]);
    [by eapply list_elem_of_lookup_2|].
  pose proof (sound_frags_in g name Hs) as Hfr.
  pose proof (sound_deaths_in g name Hs) as Hde.
  destruct Hs as (_ & Hp & Hpl & Hval & [world Hworld] & _).
  destruct (Hval name Hv) as [entry Hentry].
  destruct (Hpl name (mk_is_Some _ _ Hentry)) as [joined Hj].
  destruct (Hp name joined Hj)
    as (_ & [hand Hhand] & _ & [d Hd] & [own Hown] & [aw Haw] & [w Hw] & _).
  unfold player_stats. remember wlist as wl eqn:Ewl. rewrite Hg. simpl.
  rewrite bool_decide_eq_true_2 by done. simpl.
  rewrite Hj, Hentry, Hhand, Hgt. simpl.
  assert (String.eqb gty "4" = false) as E4
    by (apply String.eqb_neq; congruence).
  assert (String.eqb gty "3" = false) as E3
    by (apply String.eqb_neq; congruence).
  rewrite E4, E3. simpl.
  rewrite Haw, Hworld, Hd, Hown, Hw. simpl. subst wl.
  rewrite (wlist_lookup w) by (by eapply Hk). simpl.
  eexists. split; [reflexivity|]. simpl.
  unfold played_in, frags_in, deaths_in in *. rewrite Hj, Hd, Hw in *.
  simpl in *. done.
Qed.

(** X18.  A retained team game (type 3 or 4) whose log has no line of
    team scores has no attribute [ctfscores]: [player_stats] raises
    [AttributeError] for every valid player, which the handler for
    [IndexError] does not catch. *)
Theorem player_stats_team_game_without_scores (log : list string)
        (server : Server) (cgames : list Game) (i : nat) (g : Game)
        (name : string) :
  mainProcessing log = Ok (server, cgames) ->
  cgames !! i = Some g ->
  name ∈ validp g ->
  gametype g = Some "3" \/ gametype g = Some "4" ->
  ctfscores g = None ->
  player_stats cgames i name = Raise AttributeError.
Proof.
  intros Hrun Hg Hv Hgt Hc.
  destruct (run_games _ _ _ g Hrun) as (Hs & _ & _);
    [by eapply list_elem_of_lookup_2|].
  destruct Hs as (_ & Hp & Hpl & Hval & _).
  destruct (Hval name Hv) as [entry Hentry].
  destruct (Hpl name (mk_is_Some _ _ Hentry)) as [joined Hj].
  destruct (Hp name joined Hj) as (_ & [hand Hhand] & _).
  unfold player_stats. rewrite Hg. simpl.
  rewrite bool_decide_eq_true_2 by done. simpl.
  rewrite Hj, Hentry, Hhand. simpl.
  unfold team_win. rewrite Hc.
  by destruct Hgt as [-> | ->].
Qed.

(** ** The tables of a run *)

Lemma run_career log server cgames R p :
  mainProcessing log = Ok (server, cgames) ->
  player_stats_total cgames = Ok R ->
  p ∈ R ->
  1 <= p_games p /\ 1 <= p_frags p /\ 0 <= p_deaths p.
Proof.
  intros Hrun HR Hp.
  destruct (player_stats_total_elem _ _ _ HR Hp) as (_ & _ & _ & _ & _ & Hz).
  unfold player_stats_total in HR.
  destruct (fold_names_elem _ _ _ _ _ HR Hp)
    as [Hin|(name & t & _ & Hf & _ & Ho)]; [by inversion Hin|].
  apply fold_games_totals in Hf. cbv zeta in Hf.
  rewrite games_at_seq in Hf. destruct Hf as (Hh & Hfr & Hd & Ht).
  assert (Forall (fun g => sound g) (filter (fun g => name ∈ validp g) cgames))
    as Hs.
  { apply Forall_forall. intros g Hin.
    apply list_elem_of_filter in Hin as [_ Hin].
    by destruct (run_games _ _ _ g Hrun Hin). }
  unfold one_player in Ho.
  apply bind_Ok in Ho; destruct Ho as (hand & Hhand & Ho).
  repeat inv_bind Ho. injection Ho as <-.
  cbn [p_name p_games p_frags p_deaths p_time] in *.
  split; [|split].
  - unfold truediv in Hhand.
    destruct (Z.eqb_spec (Z.of_nat (length (t_hand t))) 0); [done | lia].
  - assert (0 <= t_frags t); [|lia]. rewrite Hfr. simpl.
    apply zsum_nonneg, Forall_fmap.
    eapply Forall_impl; [exact Hs|]. intros g ?. by apply sound_frags_in.
  - rewrite Hd. simpl. apply zsum_nonneg, Forall_fmap.
    eapply Forall_impl; [exact Hs|]. intros g ?. by apply sound_deaths_in.
Qed.

Lemma mapM_result_is_ok {A B} (f : A -> result B) (l : list A) :
  Forall (fun x => is_ok (f x) = true) l -> is_ok (mapM f l) = true.
Proof.
  induction 1 as [|x l Hx _ IH]; simpl; [done|].
  destruct (f x); [|done]. simpl. by destruct (mapM f l).
Qed.

Lemma stats_row_cases (p : Player) :
  1 <= p_games p -> 0 <= p_frags p -> 0 <= p_deaths p ->
  if decide (p_time p = 0) then stats_row p = Raise ZeroDivisionError
  else is_ok (stats_row p) = true.
Proof.
  intros Hg Hf Hd. unfold stats_row, scaled, truediv.
  destruct (Z.eqb_spec (p_games p) 0) as [?|_]; [lia|].
  destruct (Z.eqb_spec (1 + p_deaths p) 0) as [?|_]; [lia|].
  destruct (Z.eqb_spec (1 + p_frags p + p_deaths p) 0) as [?|_]; [lia|].
  destruct (decide (p_time p = 0)) as [Ht|Ht].
  - rewrite Ht. done.
  - destruct (Z.eqb_spec (p_time p) 0) as [?|_]; done.
Qed.

(** X19.  A career that is aggregated from the games of a run has at least
    one game and at least one frag, and no negative number of deaths. *)
Theorem career_of_a_run (log : list string) (server : Server)
        (cgames : list Game) (R : list Player) (p : Player) :
  mainProcessing log = Ok (server, cgames) ->
  player_stats_total cgames = Ok R ->
  p ∈ R ->
  1 <= p_games p /\ 1 <= p_frags p /\ 0 <= p_deaths p.
Proof. apply run_career. Qed.

(** X20.  On entries with at least one game and no negative frags or
    deaths, the table of ratios faults on a time of zero and on nothing
    else: it raises [ZeroDivisionError] when some entry has played no
    second, and is computed otherwise. *)
Theorem make_stats_table_time (R : list Player) :
  Forall (fun p => 1 <= p_games p /\ 0 <= p_frags p /\ 0 <= p_deaths p) R ->
  if decide (Forall (fun p => p_time p <> 0) R)
  then is_ok (make_stats_table R) = true
  else make_stats_table R = Raise ZeroDivisionError.
Proof.
  intros Hpre. unfold make_stats_table.
  assert (forall p, p ∈ R ->
            if decide (p_time p = 0)
            then stats_row p = Raise ZeroDivisionError
            else is_ok (stats_row p) = true) as Hrow.
  { intros p Hp. rewrite Forall_forall in Hpre.
    destruct (Hpre p Hp) as (? & ? & ?). by apply stats_row_cases. }
  destruct (decide (Forall (fun p => p_time p <> 0) R)) as [Hall|Hex].
  - apply mapM_result_is_ok. apply Forall_forall. intros p Hp.
    rewrite Forall_forall in Hall. specialize (Hrow p Hp).
    by rewrite decide_False in Hrow by by apply Hall.
  - apply not_Forall_Exists in Hex; [|intros p; apply _].
    apply Exists_exists in Hex as (p & Hp & Ht).
    apply (mapM_result_raise _ _ _ p); [done| |].
    + specialize (Hrow p Hp). rewrite decide_True in Hrow; [done|].
      by destruct (decide (p_time p = 0)).
    + intros q Hq. specialize (Hrow q Hq).
      destruct (decide (p_time q = 0)); [by right | by left].
Qed.

Lemma weapon_groups_total (w : list Z) : zsum (weapon_groups w) = zsum w.
Proof.
  unfold weapon_groups, lslice.
  rewrite !zsum_app.
  do 14 (destruct w as [|? w]; [simpl; lia|]).
  cbn [take drop Nat.sub]. unfold zsum. cbn [foldr].
  rewrite drop_0, take_0. cbn [foldr]. lia.
Qed.

Lemma weapon_groups_length (w : list Z) :
  length w = 16%nat -> length (weapon_groups w) = 12%nat.
Proof.
  intros H. do 17 (destruct w as [|? w]; [try done|]). done.
Qed.

(** X21.  The weapon table of a log.  On the careers aggregated from a
    run [make_weapons_table] raises nothing.  Every row has twelve
    counts, and they add up to the frags of the career plus its frags with
    a grenade, a rocket, the plasma gun or the BFG: the regrouping takes
    each of the 16 components once, so the shares of a row exceed 100 per
    cent as soon as one of these four weapons has made a frag. *)
Theorem make_weapons_table_of_a_log (log : list string) (server : Server)
        (cgames : list Game) (R : list Player) :
  mainProcessing log = Ok (server, cgames) ->
  player_stats_total cgames = Ok R ->
  is_ok (make_weapons_table R) = true /\
  forall p, p ∈ R ->
    length (weapon_groups (p_weapons p)) = 12%nat /\
    zsum (weapon_groups (p_weapons p))
    = p_frags p
      + zsum (map (fun g => splash g (p_name p))
                  (valid_games cgames (p_name p))).
Proof.
  intros Hrun HR. split.
  - apply mapM_result_is_ok, Forall_forall. intros p Hp.
    destruct (run_career _ _ _ _ _ Hrun HR Hp) as (_ & Hf & _).
    unfold weapons_row.
    assert (is_ok (mapM (fun x => truediv (100 * x) (p_frags p))
                        (weapon_groups (p_weapons p))) = true) as Hok.
    { apply mapM_result_is_ok, Forall_forall. intros x _. unfold truediv.
      destruct (Z.eqb_spec (p_frags p) 0); [lia | done]. }
    by destruct (mapM _ (weapon_groups (p_weapons p))).
  - intros p Hp. split.
    + apply weapon_groups_length.
      destruct (player_stats_total_elem _ _ _ HR Hp)
        as (stats & Hs & _ & Hw & _).
      eapply csum_length; [|exact Hw]. apply Forall_fmap.
      clear -Hs. induction Hs as [|g gs games stats (i & _ & Hst) _ IH];
        constructor; [|done]. by eapply player_stats_count.
    + rewrite weapon_groups_total.
      apply (career_weapon_vector_sum cgames R); [|done..].
      eapply mainLoop_well_keyed; [|exact Hrun]. constructor.
Qed.

(** ** Colour codes *)

Lemma rfind_from_no_caret (n s : list ascii) (i : Z) :
  "^"%char ∉ s -> Str.rfind_from ("^"%char :: n) s i = -1.
Proof.
  revert i. induction s as [|c s IH]; intros i Hc; [done|].
  apply not_elem_of_cons in Hc as [Hne Hc]. cbn [Str.rfind_from].
  rewrite (IH _ Hc). change (0 <=? -1) with false. cbv iota.
  cbn [Str.starts_with].
  destruct (Ascii.eqb_spec "^"%char c) as [<- | _]; done.
Qed.

Lemma colour_step_no_caret (nick n : string) :
  "^"%char ∉ Str.of_str nick -> colour_step nick n = nick.
Proof.
  intros Hc. unfold colour_step, Str.rfind.
  change (Str.of_str (String.append "^" n)) with ("^"%char :: Str.of_str n).
  by rewrite rfind_from_no_caret.
Qed.

(** X22.  A nick without a caret comes out of [name_colour] as it went
    in. *)
Theorem name_colour_no_caret (nick : string) :
  "^"%char ∉ Str.of_str nick -> name_colour nick = nick.
Proof.
  intros Hc. unfold name_colour. cbn [foldl].
  by repeat (rewrite (colour_step_no_caret nick) by done).
Qed.

Lemma of_str_append (a b : string) :
  Str.of_str (String.append a b) = Str.of_str a ++ Str.of_str b.
Proof. induction a as [|c a IH]; simpl; [done|]. by rewrite <- IH. Qed.

Lemma to_str_of_str (s : string) : Str.to_str (Str.of_str s) = s.
Proof. apply string_of_list_ascii_of_string. Qed.

Lemma of_str_to_str (l : list ascii) : Str.of_str (Str.to_str l) = l.
Proof. apply list_ascii_of_string_of_list_ascii. Qed.

Lemma len_of_str (s : string) : Str.len s = Z.of_nat (length (Str.of_str s)).
Proof.
  unfold Str.len. f_equal. induction s as [|c s IH]; simpl; [done|].
  by rewrite IH.
Qed.

Lemma rfind_from_range (sub s : list ascii) (i : Z) :
  Str.rfind_from sub s i = -1 \/ i <= Str.rfind_from sub s i.
Proof.
  revert i. induction s as [|c s IH]; intros i; cbn [Str.rfind_from].
  - destruct (Str.starts_with sub []); [right; lia | by left].
  - destruct (IH (i + 1)) as [-> | Hr].
    + change (0 <=? -1) with false. cbv iota.
      destruct (Str.starts_with sub (c :: s)); [right; lia | by left].
    + destruct (Z.leb_spec 0 (Str.rfind_from sub s (i + 1))); [right; lia|].
      destruct (Str.starts_with sub (c :: s)); [right; lia | by left].
Qed.

Lemma rfind_from_skip (n pre s : list ascii) (i : Z) :
  0 <= i ->
  "^"%char ∉ pre ->
  Str.rfind_from ("^"%char :: n) (pre ++ s) i
  = Str.rfind_from ("^"%char :: n) s (i + Z.of_nat (length pre)).
Proof.
  revert i. induction pre as [|c pre IH]; intros i Hi Hc.
  - simpl. f_equal. lia.
  - apply not_elem_of_cons in Hc as [Hne Hc].
    cbn [app Str.rfind_from Str.starts_with].
    rewrite IH by (done || lia).
    replace (i + 1 + Z.of_nat (length pre))
      with (i + Z.of_nat (length (c :: pre))) by (cbn [length]; lia).
    destruct (Ascii.eqb_spec "^"%char c) as [<- | _]; [done|]. cbv iota.
    cbn [andb].
    destruct (rfind_from_range ("^"%char :: n) s
                (i + Z.of_nat (length (c :: pre)))) as [-> | Hr]; [done|].
    destruct (Z.leb_spec 0 (Str.rfind_from ("^"%char :: n) s
                              (i + Z.of_nat (length (c :: pre)))));
      [done | lia].
Qed.

Lemma find_from_skip (n pre s : list ascii) (i : Z) :
  "^"%char ∉ pre ->
  Str.find_from ("^"%char :: n) (pre ++ s) i
  = Str.find_from ("^"%char :: n) s (i + Z.of_nat (length pre)).
Proof.
  revert i. induction pre as [|c pre IH]; intros i Hc.
  - simpl. f_equal. lia.
  - apply not_elem_of_cons in Hc as [Hne Hc].
    cbn [app Str.find_from Str.starts_with].
    destruct (Ascii.eqb_spec "^"%char c) as [<- | _]; [done|]. cbn [andb].
    rewrite IH by done. f_equal. cbn [length]. lia.
Qed.

Lemma slice_prefix (pre rest : list ascii) :
  Str.slice (Str.to_str (pre ++ rest)) 0 (Z.of_nat (length pre))
  = Str.to_str pre.
Proof.
  unfold Str.slice, Str.norm. rewrite len_of_str, of_str_to_str.
  rewrite length_app. change (0 <? 0) with false. cbv iota.
  destruct (Z.ltb_spec (Z.of_nat (length pre)) 0); [lia|].
  replace (Z.to_nat (Z.max 0 (Z.min (Z.of_nat (length pre + length rest)) 0)))
    with 0%nat by lia.
  rewrite drop_0.
  replace (Z.to_nat _) with (length pre) by lia.
  by rewrite take_app_length.
Qed.

Lemma slice_from_suffix (pre rest : list ascii) :
  slice_from (Str.to_str (pre ++ rest)) (Z.of_nat (length pre))
  = Str.to_str rest.
Proof.
  unfold slice_from, Str.slice, Str.norm.
  rewrite len_of_str, of_str_to_str, length_app.
  destruct (Z.ltb_spec (Z.of_nat (length pre)) 0); [lia|].
  destruct (Z.ltb_spec (Z.of_nat (length pre + length rest)) 0); [lia|].
  replace (Z.to_nat (Z.max 0 (Z.min (Z.of_nat (length pre + length rest))
                                (Z.of_nat (length pre)))))
    with (length pre) by lia.
  rewrite drop_app_length.
  rewrite take_ge; [done|]. lia.
Qed.

(** A code other than the only one of the nick. *)
Lemma colour_step_other (pre post : list ascii) (d n : ascii) :
  "^"%char ∉ pre -> "^"%char ∉ post -> d <> "^"%char -> n <> d ->
  colour_step (Str.to_str (pre ++ "^"%char :: d :: post))
              (String n EmptyString)
  = Str.to_str (pre ++ "^"%char :: d :: post).
Proof.
  intros Hpre Hpost Hd Hn. unfold colour_step, Str.rfind.
  rewrite of_str_to_str.
  change (Str.of_str (String.append "^" (String n EmptyString)))
    with ["^"%char; n].
  rewrite rfind_from_skip by done.
  cbn [Str.rfind_from Str.starts_with].
  rewrite rfind_from_no_caret by done.
  change (0 <=? -1) with false. cbv iota.
  destruct (Ascii.eqb_spec "^"%char d) as [? | _]; [congruence|].
  cbn [andb]. change (0 <=? -1) with false. cbv iota.
  rewrite Ascii.eqb_refl. cbn [andb].
  destruct (Ascii.eqb_spec n d) as [? | _]; [congruence|]. done.
Qed.

Lemma rfind_from_hit (sub s : list ascii) (i : Z) :
  Str.starts_with sub s = true -> i <= Str.rfind_from sub s i.
Proof.
  intros Hs. destruct s as [|c s]; cbn [Str.rfind_from].
  - rewrite Hs. lia.
  - rewrite Hs.
    destruct (rfind_from_range sub s (i + 1)) as [-> | Hr]; [done|].
    destruct (Z.leb_spec 0 (Str.rfind_from sub s (i + 1))); lia.
Qed.

Lemma find_from_hit (sub s : list ascii) (i : Z) :
  Str.starts_with sub s = true -> Str.find_from sub s i = i.
Proof. intros Hs. destruct s; cbn [Str.find_from]; by rewrite Hs. Qed.

(** The code of the nick: its first occurrence is replaced. *)
Lemma colour_step_hit (pre rest : list ascii) (d : ascii) :
  "^"%char ∉ pre ->
  colour_step (Str.to_str (pre ++ "^"%char :: d :: rest))
              (String d EmptyString)
  = Str.to_str (pre ++ span d ++ rest).
Proof.
  intros Hpre. unfold colour_step, Str.rfind, Str.find.
  rewrite of_str_to_str.
  change (Str.of_str (String.append "^" (String d EmptyString)))
    with ["^"%char; d].
  rewrite rfind_from_skip, find_from_skip by done.
  assert (Str.starts_with ["^"%char; d] ("^"%char :: d :: rest) = true) as Hs.
  { cbn [Str.starts_with]. by rewrite !Ascii.eqb_refl. }
  rewrite (find_from_hit _ _ _ Hs).
  pose proof (rfind_from_hit _ _ (0 + Z.of_nat (length pre)) Hs) as Hr.
  destruct (Z.ltb_spec (-1) (Str.rfind_from ["^"%char; d]
                               ("^"%char :: d :: rest)
                               (0 + Z.of_nat (length pre)))); [|lia].
  rewrite Z.add_0_l, slice_prefix.
  replace (pre ++ "^"%char :: d :: rest)
    with ((pre ++ ["^"%char; d]) ++ rest) by by rewrite <- app_assoc.
  replace (Z.of_nat (length pre) + 2)
    with (Z.of_nat (length (pre ++ ["^"%char; d])))
    by (rewrite length_app; cbn [length]; lia).
  rewrite slice_from_suffix.
  rewrite <- (to_str_of_str (String.append _ _)).
  f_equal. rewrite !of_str_append, !of_str_to_str. unfold span.
  rewrite <- !app_assoc. reflexivity.
Qed.

(** X23.  A nick whose only caret starts a colour code from 0 to 7: the
    code is replaced by the tag of its colour, and the text before and
    after it stays. *)
Theorem name_colour_one_code (pre post : list ascii) (d : ascii) :
  "^"%char ∉ pre -> "^"%char ∉ post ->
  d ∈ Str.of_str "01234567" ->
  name_colour (Str.to_str (pre ++ "^"%char :: d :: post))
  = Str.to_str (pre ++ span d ++ post).
Proof.
  intros Hpre Hpost Hd.
  assert ("^"%char ∉ pre ++ span d ++ post) as Hfree.
  { rewrite !not_elem_of_app. split; [done|]. split; [|done].
    unfold span. rewrite !not_elem_of_app. repeat split;
      try (apply (bool_decide_unpack _); by vm_compute).
    rewrite !not_elem_of_cons. repeat split; try done.
    - intros <-. revert Hd. apply (bool_decide_unpack _). by vm_compute.
    - apply not_elem_of_nil. }
  assert (Hno : forall n, colour_step (Str.to_str (pre ++ span d ++ post)) n
                          = Str.to_str (pre ++ span d ++ post)).
  { intros n. apply colour_step_no_caret. by rewrite of_str_to_str. }
  assert (Hother : forall n, n <> d ->
            colour_step (Str.to_str (pre ++ "^"%char :: d :: post))
                        (String n EmptyString)
            = Str.to_str (pre ++ "^"%char :: d :: post)).
  { intros n Hn. apply colour_step_other; try done.
    intros ->. revert Hd. apply (bool_decide_unpack _). by vm_compute. }
  unfold name_colour. cbn [foldl].
  simpl in Hd. rewrite !elem_of_cons in Hd.
  destruct Hd as [-> | [-> | [-> | [-> | [-> | [-> | [-> | [-> | Hd]]]]]]]];
    [..|by apply elem_of_nil in Hd];
    repeat first [ rewrite colour_step_hit by done
                 | rewrite Hno
                 | rewrite Hother by done ];
    reflexivity.
Qed.

Lemma rfind_from_other (n d : ascii) (pre s : list ascii) (i : Z) :
  "^"%char ∉ pre -> d <> "^"%char -> n <> d ->
  (forall j, Str.rfind_from ["^"%char; n] s j = -1) ->
  Str.rfind_from ["^"%char; n] (pre ++ "^"%char :: d :: s) i = -1.
Proof.
  intros Hpre Hd Hn Hs. revert i.
  induction pre as [|c pre IH]; intros i.
  - cbn [app Str.rfind_from Str.starts_with]. rewrite Hs.
    change (0 <=? -1) with false. cbv iota.
    destruct (Ascii.eqb_spec "^"%char d) as [? | _]; [congruence|].
    cbn [andb]. change (0 <=? -1) with false. cbv iota.
    rewrite Ascii.eqb_refl. cbn [andb].
    destruct (Ascii.eqb_spec n d) as [? | _]; [congruence|]. done.
  - apply not_elem_of_cons in Hpre as [Hne Hpre].
    cbn [app Str.rfind_from Str.starts_with]. rewrite IH by done.
    change (0 <=? -1) with false. cbv iota.
    destruct (Ascii.eqb_spec "^"%char c) as [? | _]; [congruence|]. done.
Qed.

(** X24.  A nick with the same colour code twice: the first one is
    replaced by its tag, and the second one is left in the name as it
    is. *)
Theorem name_colour_repeated_code (pre mid post : list ascii) (d : ascii) :
  "^"%char ∉ pre -> "^"%char ∉ mid -> "^"%char ∉ post ->
  d ∈ Str.of_str "01234567" ->
  name_colour
    (Str.to_str (pre ++ "^"%char :: d :: mid ++ "^"%char :: d :: post))
  = Str.to_str (pre ++ span d ++ mid ++ "^"%char :: d :: post).
Proof.
  intros Hpre Hmid Hpost Hd.
  assert (d <> "^"%char) as Hdc.
  { intros ->. revert Hd. apply (bool_decide_unpack _). by vm_compute. }
  assert ("^"%char ∉ span d) as Hspan.
  { unfold span. rewrite !not_elem_of_app. repeat split;
      try (apply (bool_decide_unpack _); by vm_compute).
    rewrite !not_elem_of_cons. repeat split; try done.
    apply not_elem_of_nil. }
  assert (Hbefore : forall n, n <> d ->
            colour_step
              (Str.to_str
                 (pre ++ "^"%char :: d :: mid ++ "^"%char :: d :: post))
              (String n EmptyString)
            = Str.to_str
                (pre ++ "^"%char :: d :: mid ++ "^"%char :: d :: post)).
  { intros n Hn. unfold colour_step, Str.rfind. rewrite of_str_to_str.
    change (Str.of_str (String.append "^" (String n EmptyString)))
      with ["^"%char; n].
    rewrite rfind_from_other; [done..|].
    intros j. apply rfind_from_other; try done.
    intros k. by apply rfind_from_no_caret. }
  assert (Hafter : forall n,
            colour_step
              (Str.to_str (pre ++ span d ++ mid ++ "^"%char :: d :: post))
              (String n EmptyString)
            = Str.to_str (pre ++ span d ++ mid ++ "^"%char :: d :: post)
            \/ n = d).
  { intros n. destruct (decide (n = d)) as [? | Hn]; [by right | left].
    unfold colour_step, Str.rfind. rewrite of_str_to_str.
    change (Str.of_str (String.append "^" (String n EmptyString)))
      with ["^"%char; n].
    rewrite !app_assoc.
    rewrite rfind_from_other; [done | | done..|].
    - by rewrite !not_elem_of_app.
    - intros k. by apply rfind_from_no_caret. }
  unfold name_colour. cbn [foldl].
  simpl in Hd. rewrite !elem_of_cons in Hd.
  destruct Hd as [-> | [-> | [-> | [-> | [-> | [-> | [-> | [-> | Hd]]]]]]]];
    [..|by apply elem_of_nil in Hd];
    repeat (rewrite Hbefore by done);
    rewrite colour_step_hit by done;
    repeat match goal with
           | |- context [colour_step ?s (String ?n EmptyString)] =>
               destruct (Hafter n) as [-> | ?]; [|done]
           end;
    reflexivity.
Qed.

(** ** Instances of the properties *)

Lemma apply_ban_filter_witness :
  NoDup (map p_name [unnamed_career; foo_career]) /\
  NoDup BAN_LIST /\
  apply_ban [unnamed_career; foo_career] BAN_LIST
  = Ok (filter (fun p => p_name p ∉ BAN_LIST) [unnamed_career; foo_career]).
Proof.
  assert (NoDup (map p_name [unnamed_career; foo_career])) as H1
    by (apply (bool_decide_unpack _); by vm_compute).
  assert (NoDup BAN_LIST) as H2
    by (apply (bool_decide_unpack _); by vm_compute).
  split; [exact H1|]. split; [exact H2|].
  exact (apply_ban_filter [unnamed_career; foo_career] BAN_LIST H1 H2).
Defined.

Lemma apply_ban_repeated_name_witness :
  (p_name unnamed_career ∉ map p_name []) /\
  apply_ban [unnamed_career; foo_career] ["UnnamedPlayer"; "UnnamedPlayer"]
  = Ok [].
Proof.
  assert (p_name unnamed_career ∉ map p_name []) as H
    by (apply (bool_decide_unpack _); by vm_compute).
  split; [exact H|].
  exact (apply_ban_repeated_name [] [foo_career] unnamed_career H).
Defined.

Lemma player_stats_total_entries_witness :
  player_stats_total (games_of unscathed_log) = Ok [foo_career] /\
  NoDup (map p_name [foo_career]) /\
  length (p_weapons foo_career) = 16%nat /\
  length (p_ctf foo_career) = 3%nat.
Proof.
  assert (player_stats_total (games_of unscathed_log) = Ok [foo_career]) as H
    by (by vm_compute).
  split; [exact H|].
  destruct (player_stats_total_entries _ _ H) as [Hnd Hall].
  split; [exact Hnd|].
  destruct (Hall foo_career ltac:(left)) as (_ & _ & Hw & Hc).
  split; [exact Hw | exact Hc].
Defined.

Lemma career_totals_witness :
  player_stats_total (games_of unscathed_log) = Ok [foo_career] /\
  foo_career ∈ [foo_career] /\
  p_time foo_career
  = zsum (map (fun g => played_in g "Foo")
              (valid_games (games_of unscathed_log) "Foo")).
Proof.
  assert (player_stats_total (games_of unscathed_log) = Ok [foo_career]) as H
    by (by vm_compute).
  assert (foo_career ∈ [foo_career]) as Hin by left.
  split; [exact H|]. split; [exact Hin|].
  exact (proj2 (proj2 (proj2 (proj2
           (career_totals (games_of unscathed_log) [foo_career] foo_career
                          H Hin))))).
Defined.

Lemma results_ordered_by_field_witness :
  (SORT_OPTION, p_time) ∈ int_fields /\
  results_ordered [unnamed_career; foo_career] SORT_OPTION MAXPLAYERS
  = Ok (Some [foo_career; unnamed_career]) /\
  exists full,
    full ≡ₚ [unnamed_career; foo_career] /\
    StronglySorted (fun a b => p_time b <= p_time a) full /\
    [foo_career; unnamed_career]
    = take_first (Z.min MAXPLAYERS
                        (Z.of_nat (length [unnamed_career; foo_career])))
                 full.
Proof.
  assert ((SORT_OPTION, p_time) ∈ int_fields) as H1
    by (unfold int_fields, SORT_OPTION; rewrite !elem_of_cons; tauto).
  assert (results_ordered [unnamed_career; foo_career] SORT_OPTION MAXPLAYERS
          = Ok (Some [foo_career; unnamed_career])) as H2 by (by vm_compute).
  split; [exact H1|]. split; [exact H2|].
  exact (results_ordered_by_field [unnamed_career; foo_career] SORT_OPTION
           p_time MAXPLAYERS [foo_career; unnamed_career] H1 H2).
Defined.

Lemma results_ordered_unknown_key_witness :
  ("nick" ∉ ratio_keys) /\ ("nick" ∉ player_keys) /\
  results_ordered [foo_career] "nick" MAXPLAYERS = Ok None.
Proof.
  assert ("nick" ∉ ratio_keys) as H1
    by (apply (bool_decide_unpack _); by vm_compute).
  assert ("nick" ∉ player_keys) as H2
    by (apply (bool_decide_unpack _); by vm_compute).
  split; [exact H1|]. split; [exact H2|].
  exact (results_ordered_unknown_key foo_career [] "nick" MAXPLAYERS H1 H2).
Defined.

Lemma results_ordered_empty_witness :
  0 < MAXPLAYERS /\
  results_ordered [] SORT_OPTION MAXPLAYERS = Raise IndexError.
Proof.
  assert (0 < MAXPLAYERS) as H by (unfold MAXPLAYERS; lia).
  split; [exact H|].
  exact (results_ordered_empty SORT_OPTION MAXPLAYERS H).
Defined.

Lemma apply_ban_after_ranking_witness :
  player_stats_total (games_of unscathed_log) = Ok [foo_career] /\
  results_ordered [foo_career] SORT_OPTION MAXPLAYERS
  = Ok (Some [foo_career]) /\
  NoDup BAN_LIST /\
  apply_ban [foo_career] BAN_LIST
  = Ok (filter (fun p => p_name p ∉ BAN_LIST) [foo_career]).
Proof.
  assert (player_stats_total (games_of unscathed_log) = Ok [foo_career]) as H1
    by (by vm_compute).
  assert (results_ordered [foo_career] SORT_OPTION MAXPLAYERS
          = Ok (Some [foo_career])) as H2 by (by vm_compute).
  assert (NoDup BAN_LIST) as H3
    by (apply (bool_decide_unpack _); by vm_compute).
  split; [exact H1|]. split; [exact H2|]. split; [exact H3|].
  exact (apply_ban_after_ranking (games_of unscathed_log) [foo_career]
           [foo_career] SORT_OPTION MAXPLAYERS BAN_LIST H1 H2 H3).
Defined.

Lemma mainProcessing_retained_witness :
  mainProcessing unscathed_log
  = Ok (server_of unscathed_log, games_of unscathed_log) /\
  srv_time (server_of unscathed_log)
  = zsum (map match_length (games_of unscathed_log)) /\
  Forall sound (games_of unscathed_log).
Proof.
  assert (mainProcessing unscathed_log
          = Ok (server_of unscathed_log, games_of unscathed_log)) as H
    by (vm_compute; reflexivity).
  split; [exact H|].
  destruct (mainProcessing_retained _ _ _ H) as (Ht & _ & Hf).
  split; [exact Ht|].
  eapply Forall_impl; [exact Hf|]. intros g Hg. exact (proj1 (proj2 Hg)).
Defined.

Lemma set_gametype_after_run_witness :
  mainProcessing ctf_log = Ok (server_of ctf_log, games_of ctf_log) /\
  exists name,
    set_server_gametype GTYPE_OVERRIDE (server_of ctf_log) = Ok name /\
    (srv_gtype (server_of ctf_log), name) ∈ take 10 gametypes.
Proof.
  assert (mainProcessing ctf_log = Ok (server_of ctf_log, games_of ctf_log))
    as H by (vm_compute; reflexivity).
  split; [exact H|].
  exact (set_gametype_after_run _ _ _ H).
Defined.

Lemma set_gametype_never_unknown_witness :
  set_server_gametype "Unknown" Server_init = Ok "Unknown" /\
  "Unknown" = "Unknown".
Proof.
  assert (set_server_gametype "Unknown" Server_init = Ok "Unknown") as H
    by reflexivity.
  split; [exact H|].
  exact (set_gametype_never_unknown "Unknown" Server_init H).
Defined.

Lemma mainProcessing_no_exit_witness :
  Forall (fun l => classify l <> EvExit) unfinished_match /\
  mainProcessing unfinished_match
  = Ok (server_of unfinished_match, games_of unfinished_match) /\
  games_of unfinished_match = [] /\
  srv_time (server_of unfinished_match) = 0.
Proof.
  assert (Forall (fun l => classify l <> EvExit) unfinished_match) as Hf
    by (repeat constructor; by vm_compute).
  assert (mainProcessing unfinished_match
          = Ok (server_of unfinished_match, games_of unfinished_match)) as H
    by (vm_compute; reflexivity).
  split; [exact Hf|]. split; [exact H|].
  exact (mainProcessing_no_exit _ _ _ Hf H).
Defined.

Lemma name_colour_no_caret_witness :
  ("^"%char ∉ Str.of_str "UnnamedPlayer") /\
  name_colour "UnnamedPlayer" = "UnnamedPlayer".
Proof.
  assert ("^"%char ∉ Str.of_str "UnnamedPlayer") as H
    by (apply (bool_decide_unpack _); by vm_compute).
  split; [exact H|].
  exact (name_colour_no_caret "UnnamedPlayer" H).
Defined.

Lemma name_colour_one_code_witness :
  ("^"%char ∉ Str.of_str "Mr") /\ ("^"%char ∉ Str.of_str "Foo") /\
  ("1"%char ∈ Str.of_str "01234567") /\
  name_colour (Str.to_str (Str.of_str "Mr" ++ "^"%char :: "1"%char
                                           :: Str.of_str "Foo"))
  = Str.to_str (Str.of_str "Mr" ++ span "1" ++ Str.of_str "Foo").
Proof.
  assert ("^"%char ∉ Str.of_str "Mr") as H1
    by (apply (bool_decide_unpack _); by vm_compute).
  assert ("^"%char ∉ Str.of_str "Foo") as H2
    by (apply (bool_decide_unpack _); by vm_compute).
  assert ("1"%char ∈ Str.of_str "01234567") as H3
    by (apply (bool_decide_unpack _); by vm_compute).
  split; [exact H1|]. split; [exact H2|]. split; [exact H3|].
  exact (name_colour_one_code (Str.of_str "Mr") (Str.of_str "Foo") "1"
                              H1 H2 H3).
Defined.

Lemma name_colour_repeated_code_witness :
  ("^"%char ∉ Str.of_str "") /\ ("^"%char ∉ Str.of_str "Foo") /\
  ("^"%char ∉ Str.of_str "bar") /\ ("1"%char ∈ Str.of_str "01234567") /\
  name_colour "^1Foo^1bar"
  = Str.to_str (span "1" ++ Str.of_str "Foo^1bar").
Proof.
  assert ("^"%char ∉ Str.of_str "") as H1
    by (apply (bool_decide_unpack _); by vm_compute).
  assert ("^"%char ∉ Str.of_str "Foo") as H2
    by (apply (bool_decide_unpack _); by vm_compute).
  assert ("^"%char ∉ Str.of_str "bar") as H3
    by (apply (bool_decide_unpack _); by vm_compute).
  assert ("1"%char ∈ Str.of_str "01234567") as H4
    by (apply (bool_decide_unpack _); by vm_compute).
  split; [exact H1|]. split; [exact H2|]. split; [exact H3|].
  split; [exact H4|].
  exact (name_colour_repeated_code (Str.of_str "") (Str.of_str "Foo")
                                   (Str.of_str "bar") "1" H1 H2 H3 H4).
Defined.

Lemma score_of_unregistered_nick_witness :
  classify (ln " 10:00 score: 1  ping: 62  client: 0 Foo") = EvScore /\
  parse_score (ln " 10:00 score: 1  ping: 62  client: 0 Foo")
  = Ok (" 10:00", "1", "62", "0", "Foo") /\
  ptime (Game_init 1) !! "Foo" = None /\
  oneGameLoop [ln " 10:00 score: 1  ping: 62  client: 0 Foo";
               ln " 10:00 ShutdownGame:"]
              (Game_init 1) Server_init true
  = Raise KeyError.
Proof.
  split; [reflexivity|]. split; [reflexivity|]. split; [reflexivity|].
  apply (score_of_unregistered_nick
           (ln " 10:00 score: 1  ping: 62  client: 0 Foo")
           [ln " 10:00 ShutdownGame:"] (Game_init 1) Server_init true
           " 10:00" "1" "62" "0" "Foo"); reflexivity.
Defined.

Lemma player_stats_of_a_run_witness :
  mainProcessing unscathed_log
  = Ok (server_of unscathed_log, games_of unscathed_log) /\
  games_of unscathed_log !! 0%nat = Some (game_at unscathed_log 0) /\
  "Foo" ∈ validp (game_at unscathed_log 0) /\
  gametype (game_at unscathed_log 0) <> Some "3" /\
  gametype (game_at unscathed_log 0) <> Some "4" /\
  exists gs,
    player_stats (games_of unscathed_log) 0 "Foo" = Ok (Some gs) /\
    gs_frags gs = frags_in (game_at unscathed_log 0) "Foo".
Proof.
  assert (mainProcessing unscathed_log
          = Ok (server_of unscathed_log, games_of unscathed_log)) as H
    by (vm_compute; reflexivity).
  assert (games_of unscathed_log !! 0%nat = Some (game_at unscathed_log 0))
    as Hg by (vm_compute; reflexivity).
  assert ("Foo" ∈ validp (game_at unscathed_log 0)) as Hv
    by (apply (bool_decide_unpack _); by vm_compute).
  assert (gametype (game_at unscathed_log 0) <> Some "3") as H3
    by (by vm_compute).
  assert (gametype (game_at unscathed_log 0) <> Some "4") as H4
    by (by vm_compute).
  split; [exact H|]. split; [exact Hg|]. split; [exact Hv|].
  split; [exact H3|]. split; [exact H4|].
  destruct (player_stats_of_a_run _ _ _ _ _ _ H Hg Hv H3 H4)
    as (gs & Hs & _ & Hf & _).
  exists gs. split; [exact Hs | exact Hf].
Defined.

Lemma player_stats_team_game_without_scores_witness :
  mainProcessing ctf_log_without_scores
  = Ok (server_of ctf_log_without_scores, games_of ctf_log_without_scores) /\
  games_of ctf_log_without_scores !! 0%nat
  = Some (game_at ctf_log_without_scores 0) /\
  "Foo" ∈ validp (game_at ctf_log_without_scores 0) /\
  gametype (game_at ctf_log_without_scores 0) = Some "4" /\
  ctfscores (game_at ctf_log_without_scores 0) = None /\
  player_stats (games_of ctf_log_without_scores) 0 "Foo"
  = Raise AttributeError.
Proof.
  assert (mainProcessing ctf_log_without_scores
          = Ok (server_of ctf_log_without_scores,
                games_of ctf_log_without_scores)) as H
    by (vm_compute; reflexivity).
  assert (games_of ctf_log_without_scores !! 0%nat
          = Some (game_at ctf_log_without_scores 0)) as Hg
    by (vm_compute; reflexivity).
  assert ("Foo" ∈ validp (game_at ctf_log_without_scores 0)) as Hv
    by (apply (bool_decide_unpack _); by vm_compute).
  assert (gametype (game_at ctf_log_without_scores 0) = Some "4") as H4
    by (vm_compute; reflexivity).
  assert (ctfscores (game_at ctf_log_without_scores 0) = None) as Hc
    by (vm_compute; reflexivity).
  split; [exact H|]. split; [exact Hg|]. split; [exact Hv|].
  split; [exact H4|]. split; [exact Hc|].
  exact (player_stats_team_game_without_scores _ _ _ _ _ _ H Hg Hv
           (or_intror H4) Hc).
Defined.

Lemma career_of_a_run_witness :
  mainProcessing unscathed_log
  = Ok (server_of unscathed_log, games_of unscathed_log) /\
  player_stats_total (games_of unscathed_log) = Ok [foo_career] /\
  foo_career ∈ [foo_career] /\
  1 <= p_games foo_career /\ 1 <= p_frags foo_career /\
  0 <= p_deaths foo_career.
Proof.
  assert (mainProcessing unscathed_log
          = Ok (server_of unscathed_log, games_of unscathed_log)) as H
    by (vm_compute; reflexivity).
  assert (player_stats_total (games_of unscathed_log) = Ok [foo_career])
    as HR by (by vm_compute).
  assert (foo_career ∈ [foo_career]) as Hin by left.
  split; [exact H|]. split; [exact HR|]. split; [exact Hin|].
  exact (career_of_a_run _ _ _ _ foo_career H HR Hin).
Defined.

Lemma make_stats_table_time_witness :
  Forall (fun p => 1 <= p_games p /\ 0 <= p_frags p /\ 0 <= p_deaths p)
         [foo_career; unnamed_career] /\
  make_stats_table [foo_career; unnamed_career] = Raise ZeroDivisionError.
Proof.
  assert (Forall (fun p => 1 <= p_games p /\ 0 <= p_frags p /\ 0 <= p_deaths p)
                 [foo_career; unnamed_career]) as H
    by (repeat constructor; simpl; lia).
  split; [exact H|].
  pose proof (make_stats_table_time [foo_career; unnamed_career] H) as Ht.
  destruct (decide (Forall (fun p => p_time p <> 0)
                           [foo_career; unnamed_career])) as [Hall|_];
    [|exact Ht].
  apply Forall_cons in Hall as [_ Hall].
  apply Forall_cons in Hall as [Hz _]. by contradict Hz.
Defined.

Lemma make_weapons_table_of_a_log_witness :
  mainProcessing unscathed_log
  = Ok (server_of unscathed_log, games_of unscathed_log) /\
  player_stats_total (games_of unscathed_log) = Ok [foo_career] /\
  is_ok (make_weapons_table [foo_career]) = true /\
  zsum (weapon_groups (p_weapons foo_career))
  = p_frags foo_career
    + zsum (map (fun g => splash g "Foo")
                (valid_games (games_of unscathed_log) "Foo")).
Proof.
  assert (mainProcessing unscathed_log
          = Ok (server_of unscathed_log, games_of unscathed_log)) as H
    by (vm_compute; reflexivity).
  assert (player_stats_total (games_of unscathed_log) = Ok [foo_career])
    as HR by (by vm_compute).
  split; [exact H|]. split; [exact HR|].
  destruct (make_weapons_table_of_a_log _ _ _ _ H HR) as [Hok Hall].
  split; [exact Hok|].
  exact (proj2 (Hall foo_career ltac:(left))).
Defined.

Lemma oneGameProc_server_witness :
  let r := match_of (drop 2 unscathed_log) (Game_init 1) Server_init in
  oneGameProc (drop 2 unscathed_log) (Game_init 1) Server_init
  = Ok (r.1.1.1, r.1.1.2, r.1.2, r.2) /\
  srv_time r.1.1.2 = srv_time Server_init /\
  srv_frags Server_init <= srv_frags r.1.1.2.
Proof.
  intros r.
  assert (oneGameProc (drop 2 unscathed_log) (Game_init 1) Server_init
          = Ok (r.1.1.1, r.1.1.2, r.1.2, r.2)) as H
    by (vm_compute; reflexivity).
  split; [exact H|].
  destruct (oneGameProc_server _ _ _ _ _ _ _ H) as (Ht & _ & _ & Hf).
  split; [exact Ht | exact Hf].
Defined.

Lemma mainProcessing_warmup_witness :
  Forall (fun l => has l " InitGame: " = false) [rule_line] /\
  has init_q3dm6 " InitGame: " = true /\
  Str.find warmup_line " Warmup:" <> -1 /\
  mainProcessing (rule_line :: init_q3dm6 :: warmup_line :: unscathed_log)
  = mainProcessing unscathed_log.
Proof.
  assert (Forall (fun l => has l " InitGame: " = false) [rule_line]) as H1
    by (repeat constructor).
  assert (Str.find warmup_line " Warmup:" <> -1) as H3 by (by vm_compute).
  split; [exact H1|]. split; [reflexivity|]. split; [exact H3|].
  exact (mainProcessing_warmup [rule_line] init_q3dm6 warmup_line
                               unscathed_log H1 eq_refl H3).
Defined.
